(** * Habit tracker: streak state machine and persistent store

    A shallow embedding of the Go package [habit] (the tracker of
    [habit.go] and the pointer-valued store it is compiled against),
    followed by the properties of the streak transitions, the summary
    and the persistence operations.

    Conventions of the embedding.
    - Go's [int] is the 64-bit two's complement integer: a [Z] kept in
      range by [wrap64].
    - [float64] is IEEE 754 binary64 as specified by the standard
      library's [SpecFloat] (precision 53, maximal exponent 1024).
    - A [time.Time] is an instant (nanoseconds since the Unix epoch) and
      the offset of its zone; no monotonic clock reading is carried, as
      for every timestamp that was parsed, built by [time.Date] or
      decoded from the store file.
    - [*Habit] values are locations of a heap of habit records, [nil]
      is [None]; the store's map therefore holds pointers, and what
      [Track] changes it changes through them.
    - The file system is a finite map from paths to nodes; a gob stream
      is represented by the value it decodes to.
    - The mutex of the store is not represented: every operation runs
      to completion before the next one starts. *)

From Stdlib Require Import ZArith String Ascii DecimalString List.
From Stdlib Require Import SpecFloat PrimFloat FloatOps Uint63 Lia.
From stdpp Require Import base option gmap strings list fin_maps.

Local Open Scope Z_scope.

(** ** Machine integers *)

Module GoInt.

Definition min_int : Z := - 9223372036854775808.
Definition max_int : Z := 9223372036854775807.

(** The value an [int] holds after an arithmetic operation whose
    mathematical result is [z]. *)
Definition wrap64 (z : Z) : Z :=
  (z + 9223372036854775808) mod 18446744073709551616 - 9223372036854775808.

Definition in_range (z : Z) : Prop := min_int <= z <= max_int.

End GoInt.

(** ** binary64 arithmetic *)

Module Float64.

Definition prec : Z := 53.
Definition emax : Z := 1024.

(** [float64(z)] for an integer [z]. *)
Definition of_int (z : Z) : spec_float := binary_normalize prec emax z 0 false.

Definition add : spec_float -> spec_float -> spec_float := SFadd prec emax.
Definition div : spec_float -> spec_float -> spec_float := SFdiv prec emax.

(** [int(f)]: the fraction is discarded (truncation towards zero).
    Only finite values occur in this program. *)
Definition to_int (f : spec_float) : Z :=
  match f with
  | S754_finite s m e =>
      let v := match e with
               | Zneg p => Z.pos m / 2 ^ Z.pos p
               | _ => Z.pos m * 2 ^ e
               end in
      if s then - v else v
  | _ => 0
  end.

End Float64.

(** The weight of the binary digit of exponent [e], in units of
    2^-2000: a finite number of mantissa [m] and exponent [e] is worth
    [m * weight e] units. Used to compare values without fractions. *)
Definition weight (e : Z) : Z := 2 ^ (e + 2000).

(** ** Package time *)

Module GoTime.

(** [time.Duration]: a count of nanoseconds in an int64. *)
Definition Second : Z := 1000000000.
Definition Hour : Z := 3600000000000.
Definition minDuration : Z := GoInt.min_int.
Definition maxDuration : Z := GoInt.max_int.

Record Time := mkTime {
  unixNano : Z;     (* the instant *)
  zoneOffset : Z    (* seconds east of UTC in force at that instant *)
}.

(** [t.Before(u)] compares instants. *)
Definition Before (t u : Time) : bool := unixNano t <? unixNano u.

(** [t.Sub(u)]: the difference of the instants, saturated at the
    bounds of [Duration]. *)
Definition Sub (t u : Time) : Z :=
  let d := unixNano t - unixNano u in
  if d <? minDuration then minDuration
  else if maxDuration <? d then maxDuration
  else d.

(** [d.Hours()]:
    [hour := d / Hour; nsec := d % Hour;
     return float64(hour) + float64(nsec)/(60*60*1e9)],
    with Go's truncated integer division. *)
Definition Hours (d : Z) : spec_float :=
  let hour := Z.quot d Hour in
  let nsec := Z.rem d Hour in
  Float64.add (Float64.of_int hour)
              (Float64.div (Float64.of_int nsec) (Float64.of_int (60 * 60 * 1000000000))).

(** The civil date of a day number counted from 1970-01-01, in the
    proleptic Gregorian calendar. *)
Definition civil (z : Z) : Z * Z * Z :=
  let z := z + 719468 in
  let era := z / 146097 in
  let doe := z - era * 146097 in
  let yoe := (doe - doe / 1460 + doe / 36524 - doe / 146096) / 365 in
  let doy := doe - (365 * yoe + yoe / 4 - yoe / 100) in
  let mp := (5 * doy + 2) / 153 in
  let d := doy - (153 * mp + 2) / 5 + 1 in
  let m := if mp <? 10 then mp + 3 else mp - 9 in
  let y := yoe + era * 400 + (if m <=? 2 then 1 else 0) in
  (y, m, d).

(** [t.Date()]: year, month and day of [t] in its own zone. *)
Definition Date (t : Time) : Z * Z * Z :=
  civil ((unixNano t + zoneOffset t * Second) / (86400 * Second)).

#[global] Instance Time_eq_dec : EqDecision Time.
Proof. solve_decision. Defined.

End GoTime.

Import GoTime.

(** ** Data model *)

(** [type Habit struct { Name string; CurrentStreak int; LastDone time.Time }] *)
Record Habit := mkHabit {
  Name : string;
  CurrentStreak : Z;
  LastDone : Time
}.

#[global] Instance Habit_eq_dec : EqDecision Habit.
Proof. solve_decision. Defined.

(** The zero value [Habit{}]; the zero [time.Time] is the first instant
    of the year 1 in UTC. *)
Definition zeroTime : Time := mkTime (-62135596800000000000) 0.
Definition zeroHabit : Habit := mkHabit "" 0 zeroTime.

(** A [*Habit]: [None] is [nil], [Some l] the address of a record. *)
Abbreviation loc := positive (only parsing).
Abbreviation ptr := (option positive) (only parsing).

(** [*p] for a [*Habit]; [None] stands for the run-time panic of a nil
    dereference. *)
Definition deref (mem : gmap loc Habit) (p : ptr) : option Habit :=
  match p with
  | Some l => mem !! l
  | None => None
  end.

(** [type store struct { path string; data map[string]*Habit; mtx sync.Mutex }] *)
Record store := mkStore {
  path : string;
  data : gmap string ptr
}.

(** What an [io.Writer] of the program is. *)
Inductive Writer :=
  | Stdout
  | Buffer (id : nat).

#[global] Instance Writer_eq_dec : EqDecision Writer.
Proof. solve_decision. Defined.

(** [type Tracker struct { output io.Writer; store *store }] *)
Record Tracker := mkTracker {
  output : Writer;
  tstore : store
}.

(** The lines the tracker prints, one constructor per format string of
    [habit.go], carrying the arguments of the [Fprintf]. *)
Inductive Msg :=
  | MsgNewHabit (hbtName : string)
      (* Congratulations on starting your new habit '%s'! ... *)
  | MsgSameDay (hbtName : string)
      (* Way to go practicing your habit '%s' more than once today! *)
  | MsgNewStreak (hbtName : string) (daysSince : Z) (dayOutput : string)
      (* You last did the habit '%s' %d %s ago, so you're starting a new streak today. ... *)
  | MsgStreak (hbtName : string) (currentStreak : Z) (dayOutput : string)
      (* Nice work: you've done the habit '%s' for %d %s in a row now. *)
  | MsgNoHabits
      (* You're not currently tracking any habits. *)
  | MsgInactive (daysSince : Z) (dayOutput : string) (hbtName : string)
      (* It's been %d %s since you did '%s'. Stay positive and get back on it! *)
  | MsgOnStreak (currentStreak : Z) (hbtName : string).
      (* You are currently on a %d-day streak for '%s'. Keep it going! *)

(** The verb [%d] of package fmt, and the end of a line. *)
Definition showInt (z : Z) : string := NilZero.string_of_int (Z.to_int z).
Definition newline : string := String (ascii_of_nat 10) EmptyString.

(** The text of a line. *)
Definition render (m : Msg) : string :=
  match m with
  | MsgNewHabit hbtName =>
      "Congratulations on starting your new habit '" +:+ hbtName +:+
      "'! Don't forget to do it again." +:+ newline
  | MsgSameDay hbtName =>
      "Way to go practicing your habit '" +:+ hbtName +:+
      "' more than once today!" +:+ newline
  | MsgNewStreak hbtName daysSince dayOutput =>
      "You last did the habit '" +:+ hbtName +:+ "' " +:+ showInt daysSince +:+
      " " +:+ dayOutput +:+
      " ago, so you're starting a new streak today. Good luck!" +:+ newline
  | MsgStreak hbtName currentStreak dayOutput =>
      "Nice work: you've done the habit '" +:+ hbtName +:+ "' for " +:+
      showInt currentStreak +:+ " " +:+ dayOutput +:+ " in a row now." +:+ newline
  | MsgNoHabits =>
      "You're not currently tracking any habits." +:+ newline
  | MsgInactive daysSince dayOutput hbtName =>
      "It's been " +:+ showInt daysSince +:+ " " +:+ dayOutput +:+
      " since you did '" +:+ hbtName +:+
      "'. Stay positive and get back on it!" +:+ newline
  | MsgOnStreak currentStreak hbtName =>
      "You are currently on a " +:+ showInt currentStreak +:+
      "-day streak for '" +:+ hbtName +:+ "'. Keep it going!" +:+ newline
  end.

(** Errors of the operating system that the program tells apart:
    [fs.ErrNotExist] and the others. *)
Inductive oserror :=
  | ENOENT
  | EACCES.

(** The errors the package builds, one constructor per message. *)
Inductive error :=
  | ErrCreatingStore (p : string) (cause : oserror)
      (* error creating store %q: %w *)
  | ErrEncodingStore (p : string)
      (* error encoding habit data to store %q: %w *)
  | ErrOpeningStore (p : string) (cause : oserror)
      (* error opening store %q: %w *)
  | ErrDecodingStore
      (* error decoding store data: %w *)
  | ErrPrecedes (now : Time) (hbtName : string) (last : Time)
      (* current time %q cannot precede last time habit '%s' was updated on %q *)
  | ErrNilOutput
      (* output writer must be non-nil *)
  | ErrNilStore.
      (* habit store must be non-nil *)

(** What a file holds: a gob stream of a [map[string]*Habit], given by
    the map it decodes to (gob transmits the records the pointers lead
    to), or bytes that do not decode to such a map (an empty or
    truncated file among them). *)
Inductive FileData :=
  | GobStream (m : gmap string Habit)
  | NotGob.

(** What a path of the file system leads to. A path that is not in the
    map names no file, in a directory where one may be created. *)
Inductive Node :=
  | Regular (d : FileData)     (* a file that can be read and written *)
  | ReadOnly (d : FileData)    (* a file that can only be read *)
  | NoAccess                   (* a file that cannot be opened at all *)
  | NoParent.                  (* no file, and no directory to create it in *)

(** The state outside the tracker: the heap of habit records, the file
    system, and what has been written to the writers, oldest first. *)
Record World := mkWorld {
  mem : gmap loc Habit;
  files : gmap string Node;
  written : list (Writer * Msg)
}.

Definition set_mem (m : gmap loc Habit) (w : World) : World :=
  mkWorld m (files w) (written w).
Definition set_files (f : gmap string Node) (w : World) : World :=
  mkWorld (mem w) f (written w).

(** [fmt.Fprintf(o, ...)] / [fmt.Fprintln(o, ...)]. *)
Definition emit (o : Writer) (m : Msg) (w : World) : World :=
  mkWorld (mem w) (files w) (written w ++ [(o, m)]).

(** ** Packages os and encoding/gob *)

(** [os.Open(name)]. The empty name is no file. *)
Definition os_Open (fs : gmap string Node) (name : string) : oserror + FileData :=
  if decide (name = "") then inl ENOENT
  else match fs !! name with
       | None => inl ENOENT
       | Some (Regular d) => inr d
       | Some (ReadOnly d) => inr d
       | Some NoAccess => inl EACCES
       | Some NoParent => inl ENOENT
       end.

(** [os.Create(name)]: the file is created or truncated, and is empty. *)
Definition os_Create (fs : gmap string Node) (name : string)
  : oserror + gmap string Node :=
  if decide (name = "") then inl ENOENT
  else match fs !! name with
       | None => inr (<[name := Regular NotGob]> fs)
       | Some (Regular _) => inr (<[name := Regular NotGob]> fs)
       | Some (ReadOnly _) => inl EACCES
       | Some NoAccess => inl EACCES
       | Some NoParent => inl ENOENT
       end.

(** [gob.NewEncoder(f).Encode(&data)]: the value transmitted, or [None]
    when the encoder fails, which it does on a nil element. *)
Definition gobEncode (mem : gmap loc Habit) (data : gmap string ptr)
  : option (gmap string Habit) :=
  if decide (map_Forall (fun _ p => is_Some (deref mem p)) data)
  then Some (omap (deref mem) data)
  else None.

(** [gob.NewDecoder(f).Decode(&data)] into an empty map: every record
    of the stream is allocated and the map holds its address. *)
Definition gobDecode (m : gmap string Habit) (mem : gmap loc Habit)
  : gmap string ptr * gmap loc Habit :=
  map_fold (fun k h (acc : gmap string ptr * gmap loc Habit) =>
              let l := fresh (dom acc.2) in
              (<[k := Some l]> acc.1, <[l := h]> acc.2))
           (∅, mem) m.

(** ** The store *)

(** [func (s *store) Get(key string) (Habit, bool)]; [None] is the
    panic of dereferencing a nil entry. *)
Definition store_Get (s : store) (mem : gmap loc Habit) (key : string)
  : option (Habit * bool) :=
  match data s !! key with
  | None => Some (zeroHabit, false)
  | Some p => match deref mem p with
              | Some h => Some (h, true)
              | None => None
              end
  end.

(** [func (s *store) Set(key string, hb *Habit)] *)
Definition store_Set (key : string) (hb : ptr) (s : store) : store :=
  mkStore (path s) (<[key := hb]> (data s)).

(** [func (s *store) Delete(key string)] *)
Definition store_Delete (key : string) (s : store) : store :=
  mkStore (path s) (delete key (data s)).

(** [func (s *store) All() map[string]*Habit]: a copy of the map. *)
Definition store_All (s : store) : gmap string ptr := data s.

(** [func (s *store) Save() error] *)
Definition store_Save (s : store) (w : World) : option error * World :=
  match os_Create (files w) (path s) with
  | inl e => (Some (ErrCreatingStore (path s) e), w)
  | inr fs =>
      match gobEncode (mem w) (data s) with
      | None => (Some (ErrEncodingStore (path s)), set_files fs w)
      | Some m => (None, set_files (<[path s := Regular (GobStream m)]> fs) w)
      end
  end.

(** [func OpenStore(path string)], which returns a store or an error. *)
Definition OpenStore (p : string) (w : World) : (error + store) * World :=
  match os_Open (files w) p with
  | inl ENOENT => (inr (mkStore p ∅), w)
  | inl e => (inl (ErrOpeningStore p e), w)
  | inr (GobStream m) =>
      let '(d, mem') := gobDecode m (mem w) in
      (inr (mkStore p d), set_mem mem' w)
  | inr NotGob => (inl ErrDecodingStore, w)
  end.

(** ** The tracker *)

(** [func sameDate(t1, t2 time.Time) bool] *)
Definition sameDate (t1 t2 : Time) : bool :=
  let '(t1Year, t1Month, t1Day) := Date t1 in
  let '(t2Year, t2Month, t2Day) := Date t2 in
  (t2Year =? t1Year) && (t2Month =? t1Month) && (t2Day =? t1Day).

(** [int(d.Hours() / 24)] for a duration [d]. *)
Definition daysIn (d : Z) : Z :=
  Float64.to_int (Float64.div (Hours d) (Float64.of_int 24)).

(** [int(now.Sub(last).Hours() / 24)], the expression [Track] and
    [PrintSummary] bind to [daysSince]. *)
Definition daysSince (now last : Time) : Z := daysIn (Sub now last).

(** [dayOutput := "days"; if daysSince == 1 { dayOutput = "day" }] *)
Definition dayOutput (n : Z) : string :=
  if n =? 1 then "day" else "days".

(** How a call ends: it returns an error value ([None] is Go's nil
    error), or the program panics. *)
Inductive outcome :=
  | Returns (err : option error)
  | Panics.

Definition set_store (s : store) (t : Tracker) : Tracker :=
  mkTracker (output t) s.

(** [func (t *Tracker) Track(hbtName string) error], where [now] is
    what the call of [Now()] returned. The tracker is returned with its
    store, whose map the call may have extended. *)
Definition Track (t : Tracker) (hbtName : string) (now : Time) (w : World)
  : outcome * Tracker * World :=
  match data (tstore t) !! hbtName with
  | None =>
      let l := fresh (dom (mem w)) in
      let w1 := set_mem (<[l := mkHabit hbtName 1 now]> (mem w)) w in
      let t1 := set_store (store_Set hbtName (Some l) (tstore t)) t in
      match store_Save (tstore t1) w1 with
      | (Some err, w2) => (Returns (Some err), t1, w2)
      | (None, w2) => (Returns None, t1, emit (output t) (MsgNewHabit hbtName) w2)
      end
  | Some None => (Panics, t, w)
  | Some (Some l) =>
      match mem w !! l with
      | None => (Panics, t, w)
      | Some hbt =>
          let n := daysSince now (LastDone hbt) in
          if Before now (LastDone hbt) then
            (Returns (Some (ErrPrecedes now hbtName (LastDone hbt))), t, w)
          else
            let '(streak, w1) :=
              if sameDate now (LastDone hbt) then
                (CurrentStreak hbt, emit (output t) (MsgSameDay hbtName) w)
              else if 0 <? n then
                (1, emit (output t) (MsgNewStreak hbtName n (dayOutput n)) w)
              else
                let s := GoInt.wrap64 (CurrentStreak hbt + 1) in
                (s, emit (output t) (MsgStreak hbtName s (dayOutput n)) w) in
            let w2 := set_mem (<[l := mkHabit (Name hbt) streak now]> (mem w1)) w1 in
            let '(err, w3) := store_Save (tstore t) w2 in
            (Returns err, t, w3)
      end
  end.

(** The line [PrintSummary] prints for one habit. *)
Definition summaryLine (now : Time) (hbt : Habit) : Msg :=
  let n := daysSince now (LastDone hbt) in
  if 0 <? n then MsgInactive n (dayOutput n) (Name hbt)
  else MsgOnStreak (CurrentStreak hbt) (Name hbt).

(** The loop of [PrintSummary] over the entries of the map, taken in
    the order [entries]. *)
Fixpoint summaryLoop (o : Writer) (now : Time) (entries : list (string * ptr))
  (w : World) : outcome * World :=
  match entries with
  | [] => (Returns None, w)
  | (_, p) :: rest =>
      match deref (mem w) p with
      | None => (Panics, w)
      | Some hbt => summaryLoop o now rest (emit o (summaryLine now hbt) w)
      end
  end.

(** [func (t Tracker) PrintSummary()], for one order of iteration over
    the map. [now] is what [Now()] returns if it is called. *)
Definition PrintSummaryIn (entries : list (string * ptr)) (t : Tracker)
  (now : Time) (w : World) : outcome * World :=
  if (Z.of_nat (size (data (tstore t))) <? 1)%Z then
    (Returns None, emit (output t) MsgNoHabits w)
  else summaryLoop (output t) now entries w.

(** Go leaves the order of [range] over a map open: [PrintSummary] may
    end in whatever some enumeration of the entries leads to. *)
Definition PrintSummary (t : Tracker) (now : Time) (w : World)
  (res : outcome * World) : Prop :=
  exists entries,
    entries ≡ₚ map_to_list (data (tstore t)) /\
    PrintSummaryIn entries t now w = res.

(** [type option], a function from a pointer to the tracker to an
    error: the option either fails or gives the tracker as it has
    configured it. *)
Definition trackerOption := Tracker -> error + Tracker.

(** [func WithOutput(output io.Writer) option] *)
Definition WithOutput (o : option Writer) : trackerOption :=
  fun t => match o with
           | None => inl ErrNilOutput
           | Some o => inr (mkTracker o (tstore t))
           end.

(** [func WithStore(store *store) option] *)
Definition WithStore (s : option store) : trackerOption :=
  fun t => match s with
           | None => inl ErrNilStore
           | Some s => inr (mkTracker (output t) s)
           end.

(** [for _, opt := range opts { err := opt(t); if err != nil { return nil, err } }] *)
Fixpoint applyOptions (opts : list trackerOption) (t : Tracker) : error + Tracker :=
  match opts with
  | [] => inr t
  | opt :: rest =>
      match opt t with
      | inl err => inl err
      | inr t' => applyOptions rest t'
      end
  end.

(** [func NewTracker(opts ...option)], which returns a tracker or an
    error. *)
Definition NewTracker (opts : list trackerOption) (w : World)
  : (error + Tracker) * World :=
  match OpenStore "habit.store" w with
  | (inl err, w') => (inl err, w')
  | (inr s, w') => (applyOptions opts (mkTracker Stdout s), w')
  end.

(** The world in which [Track] calls [Save] after it has updated the
    record at [l] and printed [msg]. *)
Definition updated (t : Tracker) (l : loc) (hbt : Habit) (streak : Z)
  (now : Time) (msg : Msg) (w : World) : World :=
  mkWorld (<[l := mkHabit (Name hbt) streak now]> (mem w)) (files w)
          (written w ++ [(output t, msg)]).

(** ** Scenarios

    The timestamps, trackers and worlds of the test suite and of the
    examples below. *)

Definition feb04_1300 : Time := mkTime 1707051600000000000 0. (* 2024-02-04T13:00:00Z *)
Definition feb05_1230 : Time := mkTime 1707136200000000000 0. (* 2024-02-05T12:30:00Z *)
Definition feb05_1300 : Time := mkTime 1707138000000000000 0. (* 2024-02-05T13:00:00Z *)
Definition feb05_1305 : Time := mkTime 1707138300000000000 0. (* 2024-02-05T13:05:00Z *)
Definition feb06_1259 : Time := mkTime 1707224340000000000 0. (* 2024-02-06T12:59:00Z *)
Definition feb06_1300 : Time := mkTime 1707224400000000000 0. (* 2024-02-06T13:00:00Z *)
Definition feb06_1305 : Time := mkTime 1707224700000000000 0. (* 2024-02-06T13:05:00Z *)

(** 2024-02-06T00:30:00+14:00 and, 49 hours later,
    2024-02-06T23:30:00-12:00. *)
Definition feb06_kiritimati : Time := mkTime 1707129000000000000 50400.
Definition feb06_baker : Time := mkTime 1707305400000000000 (-43200).

(** A tracker over a store bound to [p] that tracks the one habit
    [hbt] under its name, and a world that holds the record and no
    file. *)
Definition trackerOf (p : string) (hbt : Habit) : Tracker :=
  mkTracker (Buffer 0) (mkStore p {[ Name hbt := Some 1%positive ]}).
Definition worldOf (hbt : Habit) : World :=
  mkWorld {[ 1%positive := hbt ]} ∅ [].

(** ** The day count in the words of the specification

    [floor((now - last) in hours / 24)]: the whole days in the elapsed
    time [now - last], by integer division; the elapsed time is the
    difference of the instants itself, however long. [Track] and
    [PrintSummary] compute [daysSince] above instead; this definition
    is what the two are compared with. *)
Definition specDaysSince (now last : Time) : Z :=
  (unixNano now - unixNano last) / (24 * Hour).

(** A gap of 171 days less one nanosecond. *)
Definition epoch : Time := mkTime 0 0.
Definition day171_less_1ns : Time := mkTime (171 * 24 * Hour - 1) 0.

(** A sequence of calls [s.Set(key, hb)], first call first. *)
Definition setAll (calls : list (string * ptr)) (s : store) : store :=
  foldl (fun s call => store_Set call.1 call.2 s) s calls.

(** The three records of the store tests. *)
Definition threeHabits : gmap loc Habit :=
  {[ 1%positive := mkHabit "habit1" 0 zeroTime;
     2%positive := mkHabit "habit2" 0 zeroTime;
     3%positive := mkHabit "habit3" 0 zeroTime ]}.
Definition threeSets : list (string * ptr) :=
  [("habit1", Some 1%positive); ("habit2", Some 2%positive); ("habit3", Some 3%positive)].

(** ** Runs

    A call on a store, made directly or through a tracker that writes
    to [o]. Results are dropped: a run is followed for what it does to
    the store and to the world. *)
Inductive storeCall :=
  | CallGet (key : string)
  | CallSet (key : string) (hb : ptr)
  | CallDelete (key : string)
  | CallAll
  | CallSave
  | CallTrack (o : Writer) (hbtName : string) (now : Time).

Definition doCall (sw : store * World) (c : storeCall) : store * World :=
  match c with
  | CallGet _ | CallAll => sw
  | CallSet key hb => (store_Set key hb sw.1, sw.2)
  | CallDelete key => (store_Delete key sw.1, sw.2)
  | CallSave => (sw.1, (store_Save sw.1 sw.2).2)
  | CallTrack o hbtName now =>
      let '(_, t, w) := Track (mkTracker o sw.1) hbtName now sw.2 in (tstore t, w)
  end.

Definition doCalls (calls : list storeCall) (sw : store * World) : store * World :=
  foldl doCall sw calls.

(** The states a tracker over an empty store reaches by [n] calls of
    [Track] that return no error, in a world that is arbitrary at the
    start. *)
Inductive reachable : nat -> Tracker -> World -> Prop :=
  | reach_empty (o : Writer) (p : string) (w : World) :
      reachable 0 (mkTracker o (mkStore p ∅)) w
  | reach_Track (n : nat) (t : Tracker) (w : World)
      (hbtName : string) (now : Time) (t' : Tracker) (w' : World) :
      reachable n t w ->
      Track t hbtName now w = (Returns None, t', w') ->
      reachable (S n) t' w'.

(** A file that cannot be opened at the default path of the tracker. *)
Definition lockedDefault : World :=
  mkWorld ∅ {[ "habit.store" := NoAccess ]} [].

(** The two habits of the summary test, seen at 2024-02-06T13:00:00Z. *)
Definition feb03_1300 : Time := mkTime 1706965200000000000 0. (* 2024-02-03T13:00:00Z *)
Definition summaryTracker : Tracker :=
  mkTracker (Buffer 0)
    (mkStore "test.store"
       {[ "programming" := Some 1%positive; "exercising" := Some 2%positive ]}).
Definition summaryWorld : World :=
  mkWorld {[ 1%positive := mkHabit "programming" 1 feb05_1230;
             2%positive := mkHabit "exercising" 4 feb03_1300 ]} ∅ [].

(** Midnight of 1970-01-01 in UTC and the same instant an hour to the
    west, where it is 23:00 of the day before. *)
Definition clk (b : bool) : Time :=
  if b then mkTime 0 0 else mkTime 0 (-3600).

(** Two days of one habit. *)
Definition firstDay : outcome * Tracker * World :=
  Track (mkTracker (Buffer 0) (mkStore "test.store" ∅)) "programming" feb05_1300
        (mkWorld ∅ ∅ []).
Definition secondDay : outcome * Tracker * World :=
  Track firstDay.1.2 "programming" feb06_1259 firstDay.2.

(** A tracker of the one habit ["h"], and the worlds in which its
    record has the streak [s] and was last done at [clk b], the file
    of the store being an ordinary one. *)
Definition loneTracker : Tracker :=
  mkTracker Stdout (mkStore "habit.store" {[ "h" := Some 1%positive ]}).
Definition loneWorld (s : Z) (b : bool) (w : World) : Prop :=
  mem w = {[ 1%positive := mkHabit "h" s (clk b) ]} /\
  exists d, files w = {[ "habit.store" := Regular d ]}.

(** ** Sound stores and what they hold *)

(** A store is sound over a heap when every entry of its map leads to a
    record and no two entries lead to the same record: what [OpenStore]
    builds and [Track] keeps. [Set] can break it, with a nil pointer or
    with a pointer that another key holds. *)
Definition sound (s : store) (m : gmap loc Habit) : Prop :=
  (forall name p, data s !! name = Some p -> exists l, p = Some l /\ is_Some (m !! l)) /\
  (forall n1 n2 l, data s !! n1 = Some (Some l) -> data s !! n2 = Some (Some l) -> n1 = n2).

(** The records a store leads to, by key: the value [Save] hands to the
    encoder. *)
Definition contents (s : store) (m : gmap loc Habit) : gmap string Habit :=
  omap (deref m) (data s).

(** A path at which [os.Create] succeeds. *)
Definition writable (fs : gmap string Node) (p : string) : Prop :=
  p <> "" /\ (fs !! p = None \/ exists d, fs !! p = Some (Regular d)).

(** The streak the [switch] of [Track] leaves in a record that is not
    ahead of the clock, and the line it prints. *)
Definition nextStreak (now : Time) (hbt : Habit) : Z :=
  if sameDate now (LastDone hbt) then CurrentStreak hbt
  else if 0 <? daysSince now (LastDone hbt) then 1
  else GoInt.wrap64 (CurrentStreak hbt + 1).

Definition nextMsg (hbtName : string) (now : Time) (hbt : Habit) : Msg :=
  let n := daysSince now (LastDone hbt) in
  if sameDate now (LastDone hbt) then MsgSameDay hbtName
  else if 0 <? n then MsgNewStreak hbtName n (dayOutput n)
  else MsgStreak hbtName (nextStreak now hbt) (dayOutput n).

(** ** Days *)

(** The number of the day of [t] in its own zone, counted from
    1970-01-01: what [Date] hands to [civil]. *)
Definition localDay (t : Time) : Z :=
  (unixNano t + zoneOffset t * Second) / (86400 * Second).

(** The day number of a civil date, by which [civil] is inverted. *)
Definition dayNumber (y m d : Z) : Z :=
  let y' := if m <=? 2 then y - 1 else y in
  let era := y' / 400 in
  let yoe := y' - era * 400 in
  let mp := if 2 <? m then m - 3 else m + 9 in
  let doy := (153 * mp + 2) / 5 + d - 1 in
  let doe := yoe * 365 + yoe / 4 - yoe / 100 + doy in
  era * 146097 + doe - 719468.

(** A binary64 value that is not a finite number above zero. *)
Definition not_positive (x : spec_float) : Prop :=
  match x with
  | S754_finite false _ _ => False
  | _ => True
  end.

(** ** The command

    [Main] parses the command line with package flag, for which the
    command defines no flag, and then works on the store of the
    default path. *)

(** What [flag.Parse] makes of the arguments: it stops at the first
    argument that is not a flag, or fails on the first one that is. *)
Inductive flagResult :=
  | FlagsDone                        (* no error *)
  | FlagHelp                         (* flag.ErrHelp, for -h and -help *)
  | FlagBadSyntax (s : string)       (* bad flag syntax: %s *)
  | FlagUndefined (name : string).   (* flag provided but not defined: -%s *)

(** The rest of the name of a flag, which ends before the first ["="]:
    [for i := 1; i < len(name); i++ { if name[i] == '=' { ...; name = name[0:i]; break } }]. *)
Fixpoint upToEquals (s : string) : string :=
  match s with
  | EmptyString => EmptyString
  | String c rest => if Ascii.eqb c "=" then EmptyString else String c (upToEquals rest)
  end.

(** [func (f *FlagSet) parseOne()] on the argument [s], no flag being
    defined: an argument shorter than two bytes or without a leading
    ["-"] ends the flags, as does ["--"]; after one or two ["-"] comes
    the name, which is not empty and starts with neither ["-"] nor
    ["="]. *)
Definition parseOne (s : string) : flagResult :=
  match s with
  | String "-" (String c rest) =>
      if Ascii.eqb c "-" && String.eqb rest "" then FlagsDone
      else
        match (if Ascii.eqb c "-" then rest else String c rest) with
        | EmptyString => FlagBadSyntax s
        | String c0 rest0 =>
            if Ascii.eqb c0 "-" || Ascii.eqb c0 "=" then FlagBadSyntax s
            else
              let name := String c0 (upToEquals rest0) in
              if String.eqb name "help" || String.eqb name "h" then FlagHelp
              else FlagUndefined name
        end
  | _ => FlagsDone
  end.

(** [flag.Parse()] on [os.Args[1:]]. *)
Definition flagParse (arguments : list string) : flagResult :=
  match arguments with
  | [] => FlagsDone
  | s :: _ => parseOne s
  end.

(** What the command prints besides the lines of the tracker. *)
Inductive ConsoleLine :=
  | UsageText                 (* the text of [flag.Usage], on standard output *)
  | StderrText (s : string)   (* the message of package flag, on standard error *)
  | ErrorLine (err : error).  (* fmt.Fprintln(os.Stderr, err) *)

(** How the command ends: [Main] returns its exit code, package flag
    calls [os.Exit], or the program panics. *)
Inductive ending :=
  | Returned (code : Z)
  | Exited (code : Z)
  | Crashed.

(** [func Main() int] for the command line [osArgs], the program name
    first, where [now] is what [Now()] returns. It is a relation
    because [PrintSummary] is one. *)
Definition Main (osArgs : list string) (now : Time) (w : World)
  (res : ending * list ConsoleLine * World) : Prop :=
  match osArgs with
  | [] => res = (Crashed, [], w)
  | _ :: arguments =>
      match flagParse arguments with
      | FlagHelp => res = (Exited 0, [UsageText], w)
      | FlagBadSyntax s =>
          res = (Exited 2, [StderrText ("bad flag syntax: " +:+ s); UsageText], w)
      | FlagUndefined name =>
          res = (Exited 2,
                 [StderrText ("flag provided but not defined: -" +:+ name); UsageText], w)
      | FlagsDone =>
          match NewTracker [] w with
          | (inl err, w1) => res = (Returned 1, [ErrorLine err], w1)
          | (inr tracker, w1) =>
              match arguments with
              | hbtName :: _ =>
                  match Track tracker hbtName now w1 with
                  | (Returns (Some err), _, w2) => res = (Returned 1, [ErrorLine err], w2)
                  | (Returns None, _, w2) => res = (Returned 0, [], w2)
                  | (Panics, _, w2) => res = (Crashed, [], w2)
                  end
              | [] =>
                  exists r,
                    PrintSummary tracker now w1 r /\
                    res = (match r.1 with
                           | Returns _ => Returned 0
                           | Panics => Crashed
                           end, [], r.2)
              end
          end
      end
  end.

(** ** The store of habit values

    The store as it was before its map held pointers: the values are
    the habits themselves, [Add] files a habit under its own name and
    [All] returns a slice. It shares the file format of the store
    above, gob flattening pointers. *)

Module ValueStore.

(** [type store struct { path string; data map[string]Habit; mtx sync.Mutex }] *)
Record store := mkStore {
  path : string;
  data : gmap string Habit
}.

(** [func (s *store) Get(name string) (Habit, bool)] *)
Definition Get (s : store) (name : string) : Habit * bool :=
  match data s !! name with
  | Some h => (h, true)
  | None => (zeroHabit, false)
  end.

(** [func (s *store) Add(h Habit)] *)
Definition Add (h : Habit) (s : store) : store :=
  mkStore (path s) (<[Name h := h]> (data s)).

(** [func (s *store) Delete(name string)] *)
Definition Delete (name : string) (s : store) : store :=
  mkStore (path s) (delete name (data s)).

(** [func (s *store) All() []Habit]: the values of the map, in the
    order the [range] takes them. *)
Definition All (s : store) (habits : list Habit) : Prop :=
  habits ≡ₚ (map_to_list (data s)).*2.

(** [func (s *store) Save() error]; a map of values always encodes. *)
Definition Save (s : store) (fs : gmap string Node) : option error * gmap string Node :=
  match os_Create fs (path s) with
  | inl e => (Some (ErrCreatingStore (path s) e), fs)
  | inr fs' => (None, <[path s := Regular (GobStream (data s))]> fs')
  end.

(** [func OpenStore(path string)], which returns a store or an error. *)
Definition OpenStore (p : string) (fs : gmap string Node) : error + store :=
  match os_Open fs p with
  | inl ENOENT => inr (mkStore p ∅)
  | inl e => inl (ErrOpeningStore p e)
  | inr (GobStream m) => inr (mkStore p m)
  | inr NotGob => inl ErrDecodingStore
  end.

(** A call that changes the store. *)
Inductive call :=
  | CallAdd (h : Habit)
  | CallDelete (name : string).

Definition doCall (s : store) (c : call) : store :=
  match c with
  | CallAdd h => Add h s
  | CallDelete name => Delete name s
  end.

End ValueStore.

(** ** Further scenarios *)

(** A tracker whose store holds a nil pointer. *)
Definition nilTracker : Tracker :=
  mkTracker Stdout (store_Set "h" None (mkStore "habit.store" ∅)).

(** The habit of the tracker tests as it is after its first day, and a
    world whose default store file holds it. *)
Definition programmingDay1 : Habit := mkHabit "programming" 1 feb05_1300.
Definition storedWorld : World :=
  mkWorld ∅ {[ "habit.store" := Regular (GobStream {[ "programming" := programmingDay1 ]}) ]} [].

(** Three calls on the store of values, the second habit added twice. *)
Definition valueCalls : list ValueStore.call :=
  [ValueStore.CallAdd (mkHabit "habit1" 0 zeroTime);
   ValueStore.CallAdd (mkHabit "habit2" 1 zeroTime);
   ValueStore.CallAdd (mkHabit "habit2" 2 zeroTime);
   ValueStore.CallAdd (mkHabit "habit3" 0 zeroTime);
   ValueStore.CallDelete "habit1"].
Definition valueStore : ValueStore.store :=
  foldl ValueStore.doCall (ValueStore.mkStore "temp.store" ∅) valueCalls.

(** * Properties *)

(** ** Dates of the scenarios *)

Example date_of_zeroTime : Date zeroTime = (1, 1, 1).
Proof. reflexivity. Qed.

Example date_of_feb06 : Date feb06_1300 = (2024, 2, 6) /\ Date feb05_1305 = (2024, 2, 5).
Proof. split; reflexivity. Qed.

Example date_in_two_zones :
  Date feb06_kiritimati = (2024, 2, 6) /\ Date feb06_baker = (2024, 2, 6) /\
  Sub feb06_baker feb06_kiritimati = 49 * Hour.
Proof. repeat split; reflexivity. Qed.

Example date_of_leap_day : Date (mkTime 1709164800000000000 0) = (2024, 2, 29).
Proof. reflexivity. Qed.

Example date_of_clk :
  Date (clk true) = (1970, 1, 1) /\ Date (clk false) = (1969, 12, 31) /\
  Sub (clk true) (clk false) = 0.
Proof. repeat split; reflexivity. Qed.

(** ** The text of the lines *)

Example render_streak :
  render (MsgStreak "programming" 2 "days")
  = "Nice work: you've done the habit 'programming' for 2 days in a row now." +:+ newline.
Proof. reflexivity. Qed.

Example render_new_streak :
  render (MsgNewStreak "exercising" 1 "day")
  = "You last did the habit 'exercising' 1 day ago, so you're starting a new streak today. Good luck!"
    +:+ newline.
Proof. reflexivity. Qed.

Example render_inactive :
  render (MsgInactive 3 "days" "exercising")
  = "It's been 3 days since you did 'exercising'. Stay positive and get back on it!"
    +:+ newline.
Proof. reflexivity. Qed.

(** ** The store as a map *)

Lemma Get_missing s mem0 key :
  data s !! key = None -> store_Get s mem0 key = Some (zeroHabit, false).
Proof. intros Hk. unfold store_Get. by rewrite Hk. Qed.

Lemma Set_overwrites key hb1 hb2 s :
  store_Set key hb2 (store_Set key hb1 s) = store_Set key hb2 s.
Proof. unfold store_Set. cbn. by rewrite insert_insert_eq. Qed.

Lemma Delete_missing key s :
  data s !! key = None -> store_All (store_Delete key s) = store_All s.
Proof. intros Hk. unfold store_All, store_Delete. cbn. by apply delete_id. Qed.

(** ** Rounding in binary64

    [SpecFloat] computes with mantissas and exponents. The lemmas below
    bound what its rounding returns: a value that a binary64 number
    bounds from below or from above is rounded to a number with the
    same bound. *)

(** *** The number of binary digits *)

Lemma digits2_pos_size (p : positive) : digits2_pos p = Pos.size p.
Proof. induction p as [p IH|p IH|]; cbn; by rewrite ?IH. Qed.

Lemma digits2_bounds (p : positive) :
  2 ^ (Z.pos (digits2_pos p) - 1) <= Z.pos p < 2 ^ Z.pos (digits2_pos p).
Proof.
  rewrite digits2_pos_size.
  pose proof (Pos.size_gt p) as Hgt. pose proof (Pos.size_le p) as Hle.
  apply Pos2Z.pos_lt_pos in Hgt. apply Pos2Z.pos_le_pos in Hle.
  rewrite Pos2Z.inj_pow in Hgt, Hle. change (Z.pos p~0) with (2 * Z.pos p) in Hle.
  replace (Z.pos (Pos.size p)) with (Z.pos (Pos.size p) - 1 + 1) in Hle at 1 by lia.
  rewrite Z.pow_add_r in Hle by lia. change (2 ^ 1) with 2 in Hle. lia.
Qed.

Lemma digits2_unique (p : positive) (k : Z) :
  2 ^ (k - 1) <= Z.pos p < 2 ^ k -> Z.pos (digits2_pos p) = k.
Proof.
  intros [Hlo Hhi]. pose proof (digits2_bounds p) as [Hlo' Hhi'].
  assert (Hk : 0 < k).
  { destruct (Z_lt_le_dec 0 k); [done|].
    assert (2 ^ k <= 2 ^ 0) by (apply Z.pow_le_mono_r; lia).
    change (2 ^ 0) with 1 in *. lia. }
  destruct (Z_lt_le_dec (Z.pos (digits2_pos p)) k) as [Hlt|Hge].
  - assert (2 ^ Z.pos (digits2_pos p) <= 2 ^ (k - 1)) by (apply Z.pow_le_mono_r; lia).
    lia.
  - destruct (Z_lt_le_dec k (Z.pos (digits2_pos p))) as [Hlt|Hge']; [|lia].
    assert (2 ^ k <= 2 ^ (Z.pos (digits2_pos p) - 1)) by (apply Z.pow_le_mono_r; lia).
    lia.
Qed.

(** *** Shifting a mantissa to the right divides it *)

Lemma shr_1_m (mrs : shr_record) :
  0 <= shr_m mrs -> shr_m (shr_1 mrs) = shr_m mrs / 2.
Proof.
  destruct mrs as [m r s]. cbn [shr_m]. intros Hm.
  destruct m as [|[p|p|]|p]; cbn [shr_1 shr_m]; try lia; try reflexivity.
  - apply (Z.div_unique _ _ _ 1); lia.
  - apply (Z.div_unique _ _ _ 0); lia.
Qed.

Lemma iter_shr_1_m (p : positive) (mrs : shr_record) :
  0 <= shr_m mrs ->
  shr_m (SpecFloat.iter_pos shr_1 p mrs) = shr_m mrs / 2 ^ Z.pos p.
Proof.
  revert mrs. induction p as [p IH|p IH|]; intros mrs Hm; cbn [SpecFloat.iter_pos].
  - assert (H1 : 0 <= shr_m (shr_1 mrs)).
    { rewrite shr_1_m by done. apply Z.div_pos; lia. }
    assert (H2 : 0 <= shr_m (SpecFloat.iter_pos shr_1 p (shr_1 mrs))).
    { rewrite IH by done. apply Z.div_pos; [done|]. apply Z.pow_pos_nonneg; lia. }
    rewrite IH, IH, shr_1_m by done.
    rewrite !Z.div_div by (try lia; apply Z.pow_pos_nonneg; lia).
    f_equal. rewrite Pos2Z.inj_xI.
    rewrite <- Z.pow_add_r by lia. rewrite <- (Z.pow_1_r 2) at 1.
    rewrite <- Z.pow_add_r by lia. f_equal. lia.
  - assert (H2 : 0 <= shr_m (SpecFloat.iter_pos shr_1 p mrs)).
    { rewrite IH by done. apply Z.div_pos; [done|]. apply Z.pow_pos_nonneg; lia. }
    rewrite IH, IH by done.
    rewrite !Z.div_div by (try lia; apply Z.pow_pos_nonneg; lia).
    f_equal. rewrite Pos2Z.inj_xO.
    rewrite <- Z.pow_add_r by lia. f_equal. lia.
  - rewrite shr_1_m by done. reflexivity.
Qed.

(** *** The shape of a rounded number

    A mantissa of at least 53 digits is cut to 53 digits; rounding
    keeps the cut mantissa or adds one to it, and a carry to 2^53 moves
    the exponent up by one. *)

Lemma round_nearest_even_cases (m : Z) (l : location) :
  round_nearest_even m l = m \/ round_nearest_even m l = m + 1.
Proof.
  destruct l as [|[ | | ]]; cbn; auto. destruct (Z.even m); auto.
Qed.

Lemma fexp_normal (e : Z) : -1021 <= e -> fexp 53 1024 e = e - 53.
Proof. intros He. unfold fexp, emin. lia. Qed.

Lemma Zdigits2_pos_bounds (m : Z) :
  0 < m -> 2 ^ (Zdigits2 m - 1) <= m < 2 ^ Zdigits2 m.
Proof. destruct m as [|p|p]; try lia. intros _. apply digits2_bounds. Qed.

Lemma Zdigits2_unique (m k : Z) :
  2 ^ (k - 1) <= m < 2 ^ k -> 0 < m -> Zdigits2 m = k.
Proof. destruct m as [|p|p]; try lia. intros H _. by apply digits2_unique. Qed.

Lemma shr_m_shr (m : Z) (l : location) (e n : Z) :
  0 <= m -> 0 <= n ->
  shr_m (shr (shr_record_of_loc m l) e n).1 = m / 2 ^ n /\
  (shr (shr_record_of_loc m l) e n).2 = e + n.
Proof.
  intros Hm Hn.
  assert (Hrec : shr_m (shr_record_of_loc m l) = m) by (by destruct l as [|[ | | ]]).
  destruct n as [|p|p]; [| |lia]; cbn [shr fst snd].
  - rewrite Hrec, Z.div_1_r. lia.
  - rewrite iter_shr_1_m by lia. by rewrite Hrec.
Qed.

Lemma binary_round_aux_shape (mx ex : Z) (lx : location) :
  2 ^ 52 <= mx -> -900 <= ex -> Zdigits2 mx + ex <= 1000 ->
  let n := Zdigits2 mx - 53 in
  let m1 := mx / 2 ^ n in
  0 <= n /\ 2 ^ 52 <= m1 < 2 ^ 53 /\
  exists m3 e3,
    binary_round_aux 53 1024 false mx ex lx = S754_finite false m3 e3 /\
    2 ^ 52 <= Z.pos m3 < 2 ^ 53 /\
    ((Z.pos m3 = m1 /\ e3 = ex + n) \/
     (Z.pos m3 = m1 + 1 /\ e3 = ex + n) \/
     (m1 + 1 = 2 ^ 53 /\ Z.pos m3 = 2 ^ 52 /\ e3 = ex + n + 1)) /\
    (lx = loc_Exact -> n = 0 -> Z.pos m3 = mx /\ e3 = ex).
Proof.
  intros Hmx Hex Hd n m1.
  assert (Hpos : 0 < mx) by (pose proof (Z.pow_pos_nonneg 2 52); lia).
  pose proof (Zdigits2_pos_bounds mx Hpos) as [Hlo Hhi].
  assert (Hn : 0 <= n).
  { unfold n. destruct (Z_lt_le_dec (Zdigits2 mx) 53) as [Hlt|]; [|lia].
    assert (2 ^ Zdigits2 mx <= 2 ^ 52) by (apply Z.pow_le_mono_r; lia). lia. }
  assert (Hpn : 0 < 2 ^ n) by (apply Z.pow_pos_nonneg; lia).
  assert (Hsplit : 2 ^ (Zdigits2 mx - 1) = 2 ^ 52 * 2 ^ n).
  { rewrite <- Z.pow_add_r by lia. f_equal. unfold n. lia. }
  assert (Hsplit' : 2 ^ Zdigits2 mx = 2 ^ 53 * 2 ^ n).
  { rewrite <- Z.pow_add_r by lia. f_equal. unfold n. lia. }
  assert (Hm1 : 2 ^ 52 <= m1 < 2 ^ 53).
  { unfold m1. split.
    - apply Z.div_le_lower_bound; lia.
    - apply Z.div_lt_upper_bound; lia. }
  split; [done|]. split; [done|].
  unfold binary_round_aux, shr_fexp.
  rewrite fexp_normal by lia.
  replace (Zdigits2 mx + ex - 53 - ex) with n by (unfold n; lia).
  pose proof (shr_m_shr mx lx ex n ltac:(lia) Hn) as [Hs1 Hs2].
  destruct (shr (shr_record_of_loc mx lx) ex n) as [mrs' e'] eqn:Hshr.
  cbn [fst snd] in Hs1, Hs2. subst e'. fold m1 in Hs1.
  set (m2 := round_nearest_even (shr_m mrs') (loc_of_shr_record mrs')).
  assert (Hm2 : m2 = m1 \/ m2 = m1 + 1).
  { unfold m2. rewrite <- Hs1. apply round_nearest_even_cases. }
  assert (Hexact : lx = loc_Exact -> n = 0 -> m2 = mx).
  { intros -> Hn0. rewrite Hn0 in Hshr. cbn in Hshr. injection Hshr as <-.
    reflexivity. }
  destruct (Z_lt_le_dec m2 (2 ^ 53)) as [Hlt|Hge].
  - assert (Hdig : Zdigits2 m2 = 53).
    { apply Zdigits2_unique; [change (53 - 1) with 52|]; clearbody m2 m1; lia. }
    rewrite Hdig, fexp_normal by lia.
    replace (53 + (ex + n) - 53 - (ex + n)) with 0 by lia.
    cbn [shr shr_record_of_loc shr_m].
    destruct m2 as [|p2|p2] eqn:Hp2; [lia| |lia].
    replace (ex + n <=? 1024 - 53) with true by (symmetry; apply Z.leb_le; unfold n; lia).
    exists p2, (ex + n). split; [reflexivity|]. split; [lia|]. split.
    + destruct Hm2 as [->| ->]; auto.
    + intros Hl Hn0. rewrite (Hexact Hl Hn0). lia.
  - assert (Hm2' : m2 = 2 ^ 53) by lia.
    assert (Hdig : Zdigits2 m2 = 54) by (apply Zdigits2_unique; rewrite Hm2'; [split; [reflexivity|reflexivity]|reflexivity]).
    rewrite Hdig, fexp_normal by lia.
    replace (54 + (ex + n) - 53 - (ex + n)) with 1 by lia.
    rewrite Hm2'. cbn [shr shr_record_of_loc shr_m SpecFloat.iter_pos shr_1 Z.pow Z.pow_pos Pos.iter Z.mul Pos.mul].
    replace (ex + n + 1 <=? 1024 - 53) with true by (symmetry; apply Z.leb_le; unfold n; lia).
    eexists _, (ex + n + 1). split; [reflexivity|]. split; [split; reflexivity|]. split.
    + right. right. split; [lia|]. split; reflexivity.
    + intros Hl Hn0. pose proof (Hexact Hl Hn0) as Hmx2.
      rewrite Hn0 in Hsplit'. change (2 ^ 0) with 1 in Hsplit'. clearbody m2 m1. lia.
Qed.

(** *** Bounds survive the rounding

    The bound is a number [mc * 2^ec] with a mantissa below 2^53; the
    value that is rounded is [N/D * 2^g]. *)

Lemma weight_pos e : -2000 <= e -> 0 < weight e.
Proof. intros He. unfold weight. apply Z.pow_pos_nonneg; lia. Qed.

Lemma weight_add e n : -2000 <= e -> 0 <= n -> weight (e + n) = weight e * 2 ^ n.
Proof.
  intros He Hn. unfold weight. rewrite <- Z.pow_add_r by lia. f_equal. lia.
Qed.

Lemma pow2_ge_1 n : 0 <= n -> 1 <= 2 ^ n.
Proof. intros Hn. pose proof (Z.pow_pos_nonneg 2 n). lia. Qed.

Lemma pow2_ge_2 n : 0 < n -> 2 <= 2 ^ n.
Proof.
  intros Hn. replace n with (1 + (n - 1)) by lia.
  rewrite Z.pow_add_r by lia. pose proof (pow2_ge_1 (n - 1)). lia.
Qed.

(** The value [N/D * 2^g] cut to the [T] whole multiples of [2^g] it
    holds: a bound below the value is below the cut, a bound above the
    value is at least one multiple above the cut. *)
Lemma trunc_lower (N D T g mc ec : Z) :
  0 < D -> T * D <= N < (T + 1) * D -> 2 ^ 52 <= T ->
  0 < mc < 2 ^ 53 -> -2000 <= g -> -2000 <= ec ->
  mc * weight ec * D <= N * weight g ->
  mc * weight ec <= T * weight g.
Proof.
  intros HD [HT1 HT2] HT Hmc Hg Hec Hle.
  pose proof (weight_pos g Hg) as Hpg. pose proof (weight_pos ec Hec) as Hpe.
  destruct (Z_le_gt_dec g ec) as [Hge|Hlt].
  - replace ec with (g + (ec - g)) in * by lia.
    rewrite weight_add in * by lia.
    pose proof (pow2_ge_1 (ec - g)) as Hk. set (k := 2 ^ (ec - g)) in *.
    assert (mc * k * D <= N) by nia.
    assert (mc * k < T + 1) by nia.
    nia.
  - replace g with (ec + (g - ec)) in * by lia.
    rewrite weight_add in * by lia.
    pose proof (pow2_ge_2 (g - ec)) as Hk. set (k := 2 ^ (g - ec)) in *.
    change (2 ^ 53) with (2 ^ 52 * 2) in Hmc. nia.
Qed.

Lemma trunc_upper (N D T g mc ec : Z) :
  0 < D -> T * D <= N < (T + 1) * D -> 2 ^ 52 <= T ->
  0 < mc < 2 ^ 53 -> -2000 <= g -> -2000 <= ec ->
  N * weight g < mc * weight ec * D ->
  (T + 1) * weight g <= mc * weight ec.
Proof.
  intros HD [HT1 HT2] HT Hmc Hg Hec Hlt.
  pose proof (weight_pos g Hg) as Hpg. pose proof (weight_pos ec Hec) as Hpe.
  destruct (Z_le_gt_dec g ec) as [Hge|Hgt].
  - replace ec with (g + (ec - g)) in * by lia.
    rewrite weight_add in * by lia.
    pose proof (pow2_ge_1 (ec - g)) as Hk. set (k := 2 ^ (ec - g)) in *.
    assert (N < mc * k * D) by nia.
    assert (T < mc * k) by nia.
    nia.
  - exfalso. replace g with (ec + (g - ec)) in * by lia.
    rewrite weight_add in * by lia.
    pose proof (pow2_ge_2 (g - ec)) as Hk. set (k := 2 ^ (g - ec)) in *.
    change (2 ^ 53) with (2 ^ 52 * 2) in Hmc.
    assert (T * D * (weight ec * k) < mc * weight ec * D) by nia.
    assert (T * k < mc) by nia.
    nia.
Qed.

Lemma round_bounds (mx ex : Z) (lx : location) (N D : Z) :
  2 ^ 52 <= mx -> -900 <= ex -> Zdigits2 mx + ex <= 1000 ->
  0 < D -> mx * D <= N < (mx + 1) * D ->
  exists m3 e3,
    binary_round_aux 53 1024 false mx ex lx = S754_finite false m3 e3 /\
    2 ^ 52 <= Z.pos m3 < 2 ^ 53 /\
    ex <= e3 <= Zdigits2 mx + ex - 52 /\
    (forall mc ec, 0 < mc < 2 ^ 53 -> -2000 <= ec ->
       mc * weight ec * D <= N * weight ex -> mc * weight ec <= Z.pos m3 * weight e3) /\
    (forall mc ec, 0 < mc < 2 ^ 53 -> -2000 <= ec ->
       N * weight ex < mc * weight ec * D -> Z.pos m3 * weight e3 <= mc * weight ec) /\
    (lx = loc_Exact -> Zdigits2 mx = 53 -> Z.pos m3 = mx /\ e3 = ex).
Proof.
  intros Hmx Hex Hd HD [HN1 HN2].
  destruct (binary_round_aux_shape mx ex lx Hmx Hex Hd)
    as (Hn & Hm1 & m3 & e3 & Heq & Hm3 & Hcases & Hexact).
  set (n := Zdigits2 mx - 53) in *. set (m1 := mx / 2 ^ n) in *.
  assert (Hpn : 0 < 2 ^ n) by (apply Z.pow_pos_nonneg; lia).
  assert (Hdiv1 : m1 * 2 ^ n <= mx).
  { unfold m1. rewrite Z.mul_comm. apply Z.mul_div_le. lia. }
  assert (Hdiv2 : mx < (m1 + 1) * 2 ^ n).
  { unfold m1. rewrite Z.mul_comm. apply Z.mul_succ_div_gt. lia. }
  assert (HT : m1 * (D * 2 ^ n) <= N < (m1 + 1) * (D * 2 ^ n)) by (clearbody m1; nia).
  pose proof (weight_pos (ex + n) ltac:(lia)) as Hpg.
  assert (HV : m1 * weight (ex + n) <= Z.pos m3 * weight e3 <= (m1 + 1) * weight (ex + n)).
  { clearbody m1.
    destruct Hcases as [[-> ->]|[[-> ->]|(H53 & -> & ->)]]; [lia|lia|].
    rewrite (weight_add (ex + n) 1) by lia. change (2 ^ 1) with 2.
    change (2 ^ 53) with (2 ^ 52 * 2) in H53. nia. }
  exists m3, e3. split; [done|]. split; [done|]. split.
  { clearbody m1. destruct Hcases as [[_ ->]|[[_ ->]|(_ & _ & ->)]]; unfold n; lia. }
  split; [|split].
  - intros mc ec Hmc Hec Hle.
    assert (mc * weight ec <= m1 * weight (ex + n)); [|lia].
    apply (trunc_lower N (D * 2 ^ n) m1 (ex + n) mc ec); try lia.
    rewrite weight_add by lia. clearbody m1. nia.
  - intros mc ec Hmc Hec Hlt.
    assert ((m1 + 1) * weight (ex + n) <= mc * weight ec); [|lia].
    apply (trunc_upper N (D * 2 ^ n) m1 (ex + n) mc ec); try lia.
    rewrite weight_add by lia. clearbody m1. nia.
  - intros Hl Hd53. apply Hexact; [done|]. unfold n. lia.
Qed.

(** *** Conversion, quotient and sum *)

Lemma shl_align_value (m : positive) (e e' : Z) :
  e' <= e ->
  Z.pos (shl_align m e e').1 = Z.pos m * 2 ^ (e - e') /\ (shl_align m e e').2 = e'.
Proof.
  intros He. unfold shl_align.
  destruct (e' - e) as [|d|d] eqn:Hd; cbn [fst snd]; try lia.
  - replace (e - e') with 0 by lia. lia.
  - change (Pos.iter xO m d) with (Zpower.shift_pos d m).
    rewrite Zpower.shift_pos_correct, Z.pow_pos_fold.
    replace (e - e') with (Z.pos d) by lia. lia.
Qed.

Lemma shl_align_id (m : positive) (e e' : Z) :
  e <= e' -> shl_align m e e' = (m, e).
Proof. intros He. unfold shl_align. by destruct (e' - e) eqn:Hd; try lia. Qed.

Lemma Zdigits2_le (m k : Z) : 0 < m -> m < 2 ^ k -> Zdigits2 m <= k.
Proof.
  intros Hm Hk. pose proof (Zdigits2_pos_bounds m Hm) as [Hlo _].
  destruct (Z_le_gt_dec (Zdigits2 m) k) as [|Hgt]; [done|].
  assert (2 ^ k <= 2 ^ (Zdigits2 m - 1)) by (apply Z.pow_le_mono_r; lia). lia.
Qed.

Lemma Zdigits2_53 (m : Z) : 2 ^ 52 <= m < 2 ^ 53 -> Zdigits2 m = 53.
Proof.
  intros Hm. apply Zdigits2_unique; [change (53 - 1) with 52; lia|].
  pose proof (Z.pow_pos_nonneg 2 52). lia.
Qed.

(** [float64(z)] of a positive integer below 2^53 is exact. *)
Lemma of_int_exact (z : Z) :
  0 < z < 2 ^ 53 ->
  exists m e,
    binary_normalize 53 1024 z 0 false = S754_finite false m e /\
    2 ^ 52 <= Z.pos m < 2 ^ 53 /\ -52 <= e <= 0 /\
    Z.pos m * weight e = z * weight 0.
Proof.
  intros [Hz1 Hz2]. destruct z as [|p|p]; try lia.
  unfold binary_normalize, binary_round.
  pose proof (digits2_bounds p) as [Hlo Hhi].
  set (d := Z.pos (digits2_pos p)) in *.
  assert (Hd : 1 <= d <= 53).
  { split; [unfold d; lia|]. apply (Zdigits2_le (Z.pos p)); lia. }
  rewrite fexp_normal by lia.
  pose proof (shl_align_value p 0 (d + 0 - 53) ltac:(lia)) as [Hv He].
  destruct (shl_align p 0 (d + 0 - 53)) as [mz ez]. cbn [fst snd] in Hv, He. subst ez.
  replace (0 - (d + 0 - 53)) with (53 - d) in Hv by lia.
  assert (Hmz : 2 ^ 52 <= Z.pos mz < 2 ^ 53).
  { rewrite Hv. split.
    - replace 52 with ((d - 1) + (53 - d)) by lia. rewrite Z.pow_add_r by lia.
      pose proof (Z.pow_pos_nonneg 2 (53 - d)). nia.
    - replace 53 with (d + (53 - d)) at 2 by lia. rewrite Z.pow_add_r by lia.
      pose proof (Z.pow_pos_nonneg 2 (53 - d)). nia. }
  destruct (round_bounds (Z.pos mz) (d + 0 - 53) loc_Exact (Z.pos mz) 1)
    as (m3 & e3 & Heq & Hm3 & _ & _ & _ & Hexact); try lia.
  { rewrite (Zdigits2_53 _ Hmz). lia. }
  destruct (Hexact eq_refl (Zdigits2_53 _ Hmz)) as [Hm3' He3].
  exists m3, e3. split; [done|]. split; [done|]. split; [lia|].
  rewrite Hm3', He3, Hv.
  replace 0 with ((d + 0 - 53) + (53 - d)) at 2 by lia.
  rewrite weight_add by lia. lia.
Qed.

Lemma div_bounds (m1 : positive) (e1 : Z) (m2 : positive) (e2 : Z) :
  2 ^ 52 <= Z.pos m1 < 2 ^ 53 -> 2 ^ 52 <= Z.pos m2 < 2 ^ 53 ->
  -400 <= e1 <= 400 -> -400 <= e2 <= 400 ->
  exists m3 e3,
    SFdiv 53 1024 (S754_finite false m1 e1) (S754_finite false m2 e2)
    = S754_finite false m3 e3 /\
    2 ^ 52 <= Z.pos m3 < 2 ^ 53 /\
    e1 - e2 - 53 <= e3 <= e1 - e2 - 51 /\
    (forall mc ec, 0 < mc < 2 ^ 53 -> -2000 <= ec ->
       mc * weight ec * Z.pos m2 <= Z.pos m1 * weight (e1 - e2) ->
       mc * weight ec <= Z.pos m3 * weight e3) /\
    (forall mc ec, 0 < mc < 2 ^ 53 -> -2000 <= ec ->
       Z.pos m1 * weight (e1 - e2) < mc * weight ec * Z.pos m2 ->
       Z.pos m3 * weight e3 <= mc * weight ec).
Proof.
  intros Hm1 Hm2 He1 He2.
  unfold SFdiv, SFdiv_core_binary. cbn [xorb].
  rewrite (Zdigits2_53 _ Hm1), (Zdigits2_53 _ Hm2).
  rewrite fexp_normal by lia.
  replace (Z.min (53 + e1 - (53 + e2) - 53) (e1 - e2)) with (e1 - e2 - 53) by lia.
  replace (e1 - e2 - (e1 - e2 - 53)) with 53 by lia.
  rewrite Z.shiftl_mul_pow2 by lia.
  pose proof (Z_div_mod (Z.pos m1 * 2 ^ 53) (Z.pos m2) ltac:(lia)) as Hdm.
  destruct (Z.div_eucl (Z.pos m1 * 2 ^ 53) (Z.pos m2)) as [q r].
  destruct Hdm as [Hq Hr].
  change (2 ^ 53) with (2 ^ 52 * 2) in Hm1, Hm2.
  assert (Hq1 : 2 ^ 52 <= q) by nia.
  assert (Hq2 : q < 2 ^ 54) by (change (2 ^ 54) with (2 ^ 52 * 4); nia).
  assert (Hdq : Zdigits2 q <= 54) by (apply Zdigits2_le; lia).
  destruct (round_bounds q (e1 - e2 - 53) (new_location (Z.pos m2) r)
              (Z.pos m1 * 2 ^ 53) (Z.pos m2))
    as (m3 & e3 & Heq & Hm3 & He3 & Hlow & Hup & _); try lia.
  exists m3, e3. split; [done|]. split; [done|]. split; [lia|].
  assert (HP : weight (e1 - e2) = weight (e1 - e2 - 53) * 2 ^ 53).
  { rewrite <- weight_add by lia. f_equal. lia. }
  split.
  - intros mc ec Hmc Hec Hle. apply Hlow; [done..|]. rewrite HP in Hle. lia.
  - intros mc ec Hmc Hec Hlt. apply Hup; [done..|]. rewrite HP in Hlt. lia.
Qed.

Lemma add_bounds (m1 : positive) (e1 : Z) (m2 : positive) (e2 : Z) :
  2 ^ 52 <= Z.pos m1 < 2 ^ 53 -> 2 ^ 52 <= Z.pos m2 < 2 ^ 53 ->
  -400 <= e1 <= 400 -> -400 <= e2 <= 400 ->
  exists m3 e3,
    SFadd 53 1024 (S754_finite false m1 e1) (S754_finite false m2 e2)
    = S754_finite false m3 e3 /\
    2 ^ 52 <= Z.pos m3 < 2 ^ 53 /\
    Z.min e1 e2 <= e3 <= Z.max e1 e2 + 2 /\
    (forall mc ec, 0 < mc < 2 ^ 53 -> -2000 <= ec ->
       mc * weight ec <= Z.pos m1 * weight e1 + Z.pos m2 * weight e2 ->
       mc * weight ec <= Z.pos m3 * weight e3) /\
    (forall mc ec, 0 < mc < 2 ^ 53 -> -2000 <= ec ->
       Z.pos m1 * weight e1 + Z.pos m2 * weight e2 < mc * weight ec ->
       Z.pos m3 * weight e3 <= mc * weight ec).
Proof.
  intros Hm1 Hm2 He1 He2.
  unfold SFadd, cond_Zopp. set (ez := Z.min e1 e2).
  pose proof (shl_align_value m1 e1 ez ltac:(lia)) as [Hv1 _].
  pose proof (shl_align_value m2 e2 ez ltac:(lia)) as [Hv2 _].
  set (a := (shl_align m1 e1 ez).1) in *. set (b := (shl_align m2 e2 ez).1) in *.
  change (Z.pos a + Z.pos b) with (Z.pos (a + b)).
  unfold binary_normalize, binary_round.
  assert (Hk1 : 1 <= 2 ^ (e1 - ez)) by (apply pow2_ge_1; lia).
  assert (Hk2 : 1 <= 2 ^ (e2 - ez)) by (apply pow2_ge_1; lia).
  assert (HM : Z.pos (a + b) = Z.pos m1 * 2 ^ (e1 - ez) + Z.pos m2 * 2 ^ (e2 - ez)).
  { rewrite Pos2Z.inj_add. lia. }
  assert (HM1 : 2 ^ 52 <= Z.pos (a + b)) by nia.
  assert (HMmax : Z.pos (a + b) < 2 ^ (Z.max e1 e2 - ez + 54)).
  { rewrite HM.
    assert (2 ^ (e1 - ez) <= 2 ^ (Z.max e1 e2 - ez)) by (apply Z.pow_le_mono_r; lia).
    assert (2 ^ (e2 - ez) <= 2 ^ (Z.max e1 e2 - ez)) by (apply Z.pow_le_mono_r; lia).
    rewrite Z.pow_add_r by lia. change (2 ^ 54) with (2 ^ 53 * 2). nia. }
  assert (Hd1 : 53 <= Zdigits2 (Z.pos (a + b))).
  { destruct (Z_le_gt_dec 53 (Zdigits2 (Z.pos (a + b)))) as [|Hgt]; [done|].
    pose proof (Zdigits2_pos_bounds (Z.pos (a + b)) ltac:(lia)) as [_ Hhi].
    assert (2 ^ Zdigits2 (Z.pos (a + b)) <= 2 ^ 52) by (apply Z.pow_le_mono_r; lia).
    lia. }
  assert (Hd2 : Zdigits2 (Z.pos (a + b)) <= Z.max e1 e2 - ez + 54).
  { apply Zdigits2_le; lia. }
  change (Z.pos (digits2_pos (a + b))) with (Zdigits2 (Z.pos (a + b))).
  rewrite fexp_normal by lia.
  rewrite shl_align_id by lia.
  destruct (round_bounds (Z.pos (a + b)) ez loc_Exact (Z.pos (a + b)) 1)
    as (m3 & e3 & Heq & Hm3 & He3 & Hlow & Hup & _); try lia.
  exists m3, e3. split; [done|]. split; [done|]. split; [lia|].
  assert (HP1 : weight e1 = weight ez * 2 ^ (e1 - ez)).
  { rewrite <- weight_add by lia. f_equal. lia. }
  assert (HP2 : weight e2 = weight ez * 2 ^ (e2 - ez)).
  { rewrite <- weight_add by lia. f_equal. lia. }
  split.
  - intros mc ec Hmc Hec Hle. apply Hlow; [done..|]. rewrite HP1, HP2 in Hle. nia.
  - intros mc ec Hmc Hec Hlt. apply Hup; [done..|]. rewrite HP1, HP2 in Hlt. nia.
Qed.



(** *** The conversion to [int] *)

Lemma to_int_ge (m : positive) (e k : Z) :
  -2000 <= e -> k * weight 0 <= Z.pos m * weight e ->
  k <= Float64.to_int (S754_finite false m e).
Proof.
  intros He Hk. unfold Float64.to_int. pose proof (weight_pos 0 ltac:(lia)) as H0.
  destruct e as [|p|p].
  - change (2 ^ 0) with 1. nia.
  - replace (Z.pos p) with (0 + Z.pos p) in Hk by lia. rewrite weight_add in Hk by lia. nia.
  - assert (HP : weight 0 = weight (Z.neg p) * 2 ^ Z.pos p).
    { rewrite <- weight_add by lia. f_equal. lia. }
    pose proof (weight_pos (Z.neg p) He) as Hp.
    assert (Hpp : 0 < 2 ^ Z.pos p) by (apply Z.pow_pos_nonneg; lia).
    apply Z.div_le_lower_bound; [done|]. rewrite HP in Hk. nia.
Qed.

Lemma to_int_lt (m : positive) (e k : Z) :
  -2000 <= e -> Z.pos m * weight e < k * weight 0 ->
  Float64.to_int (S754_finite false m e) < k.
Proof.
  intros He Hk. unfold Float64.to_int. pose proof (weight_pos 0 ltac:(lia)) as H0.
  destruct e as [|p|p].
  - change (2 ^ 0) with 1. nia.
  - replace (Z.pos p) with (0 + Z.pos p) in Hk by lia. rewrite weight_add in Hk by lia.
    assert (Hpp : 0 < 2 ^ Z.pos p) by (apply Z.pow_pos_nonneg; lia). nia.
  - assert (HP : weight 0 = weight (Z.neg p) * 2 ^ Z.pos p).
    { rewrite <- weight_add by lia. f_equal. lia. }
    pose proof (weight_pos (Z.neg p) He) as Hp.
    assert (Hpp : 0 < 2 ^ Z.pos p) by (apply Z.pow_pos_nonneg; lia).
    apply Z.div_lt_upper_bound; [done|]. rewrite HP in Hk. nia.
Qed.

Lemma to_int_nonneg (m : positive) (e : Z) :
  0 <= Float64.to_int (S754_finite false m e).
Proof.
  unfold Float64.to_int. destruct e as [|p|p].
  - lia.
  - pose proof (Z.pow_pos_nonneg 2 (Z.pos p)). nia.
  - apply Z.div_pos; [lia|]. apply Z.pow_pos_nonneg; lia.
Qed.

(** *** Hours and days of a duration *)

(** What [Hours] is for a duration that is not negative: zero for
    zero, and otherwise a normal number between the whole hours and
    the next hour, which it reaches only through rounding. *)
Lemma Hours_bounds (d : Z) :
  0 < d <= maxDuration ->
  exists m e,
    Hours d = S754_finite false m e /\
    2 ^ 52 <= Z.pos m < 2 ^ 53 /\ -400 <= e <= 400 /\
    (d / Hour) * weight 0 <= Z.pos m * weight e <= (d / Hour + 1) * weight 0 /\
    (d / Hour < 1000 ->
     Z.pos m * weight e <= ((d / Hour + 1) * 2 ^ 43 - 1) * weight (- 43)).
Proof.
  intros [Hd1 Hd2]. unfold Hours, maxDuration, GoInt.max_int in *.
  rewrite Z.quot_div_nonneg, Z.rem_mod_nonneg by (unfold Hour; lia).
  pose proof (Z.div_pos d Hour ltac:(lia) ltac:(unfold Hour; lia)) as Hh0.
  pose proof (Z.mod_pos_bound d Hour ltac:(unfold Hour; lia)) as Hn.
  assert (Hh1 : d / Hour < 2 ^ 22).
  { apply Z.div_lt_upper_bound; [unfold Hour; lia|]. unfold Hour.
    change (2 ^ 22) with 4194304. lia. }
  pose proof (Z.div_mod d Hour ltac:(unfold Hour; lia)) as Hdm.
  set (hour := d / Hour) in *. set (nsec := d mod Hour) in *.
  clearbody hour nsec.
  pose proof (weight_pos 0 ltac:(lia)) as HP0.
  change (Float64.of_int (60 * 60 * 1000000000))
    with (S754_finite false 7372800000000000 (-11)).
  assert (HP43 : weight 0 = weight (- 43) * 2 ^ 43).
  { rewrite <- weight_add by lia. reflexivity. }
  (* the whole hours *)
  assert (Ha : hour = 0 /\ Float64.of_int hour = S754_zero false \/
               0 < hour /\ exists ma ea,
                 Float64.of_int hour = S754_finite false ma ea /\
                 2 ^ 52 <= Z.pos ma < 2 ^ 53 /\ -52 <= ea <= 0 /\
                 Z.pos ma * weight ea = hour * weight 0).
  { destruct (Z.eq_dec hour 0) as [->|Hne]; [left; done|right].
    split; [lia|]. apply of_int_exact. change (2 ^ 53) with (2 ^ 22 * 2 ^ 31). lia. }
  (* the fraction of an hour *)
  assert (Hx : nsec = 0 /\
               Float64.div (Float64.of_int nsec) (S754_finite false 7372800000000000 (-11))
               = S754_zero false \/
               0 < nsec /\ exists mx ex,
                 Float64.div (Float64.of_int nsec) (S754_finite false 7372800000000000 (-11))
                 = S754_finite false mx ex /\
                 2 ^ 52 <= Z.pos mx < 2 ^ 53 /\ -100 <= ex <= 0 /\
                 Z.pos mx * weight ex <= (2 ^ 42 - 1) * weight (- 42)).
  { destruct (Z.eq_dec nsec 0) as [->|Hne]; [left; done|right].
    split; [lia|].
    destruct (of_int_exact nsec) as (mn & en & Heq & Hmn & Hen & Hvn).
    { unfold Hour in Hn. change (2 ^ 53) with 9007199254740992. lia. }
    unfold Float64.of_int, Float64.prec, Float64.emax. rewrite Heq.
    destruct (div_bounds mn en 7372800000000000 (-11))
      as (mx & ex & Hdiv & Hmx & Hex & _ & Hup); [done| |lia|lia|].
    { split; [by vm_compute|reflexivity]. }
    exists mx, ex. split; [exact Hdiv|]. split; [done|]. split; [lia|].
    apply Hup; [split; reflexivity|lia|].
    replace (en - -11) with (en + 11) by lia. rewrite weight_add by lia.
    assert (HP42 : weight 0 = weight (- 42) * 2 ^ 42).
    { rewrite <- weight_add by lia. reflexivity. }
    pose proof (weight_pos (-42) ltac:(lia)) as Hp42.
    assert (Hvn' : Z.pos mn * weight en * 2 ^ 11 = nsec * 2 ^ 11 * (weight (-42) * 2 ^ 42)).
    { rewrite Hvn, HP42. lia. }
    unfold Hour in Hn.
    change (2 ^ 42) with 4398046511104 in *. change (2 ^ 11) with 2048 in *.
    nia. }
  assert (HP42 : weight 0 = weight (- 42) * 2 ^ 42).
  { rewrite <- weight_add by lia. reflexivity. }
  assert (HP4243 : weight (- 42) = weight (- 43) * 2).
  { replace (- 42) with (- 43 + 1) by lia. rewrite weight_add by lia. reflexivity. }
  pose proof (weight_pos (-43) ltac:(lia)) as Hp43.
  destruct Ha as [[Hh Ha]|[Hh (ma & ea & Ha & Hma & Hea & Hva)]];
    destruct Hx as [[Hns Hx]|[Hns (mx & ex & Hx & Hmx & Hex & Hvx)]];
    rewrite Ha, Hx.
  - (* d = 0 *) lia.
  - (* less than an hour *)
    exists mx, ex. split; [reflexivity|]. split; [done|]. split; [lia|].
    pose proof (weight_pos ex ltac:(lia)) as Hpex.
    rewrite Hh. change (2 ^ 42) with 4398046511104 in *.
    change (2 ^ 43) with 8796093022208 in *.
    rewrite HP43. rewrite HP4243 in Hvx. split; [split|intros _]; nia.
  - (* whole hours *)
    exists ma, ea. split; [reflexivity|]. split; [done|]. split; [lia|].
    rewrite Hva. change (2 ^ 43) with 8796093022208 in *.
    split; [split; lia|intros _; rewrite HP43; clear -Hp43 Hh0; nia].
  - destruct (add_bounds ma ea mx ex)
      as (my & ey & Hadd & Hmy & Hey & Hlow & Hup); [done|done|lia|lia|].
    unfold Float64.add, Float64.prec, Float64.emax. rewrite Hadd.
    exists my, ey. split; [reflexivity|]. split; [done|]. split; [lia|].
    pose proof (weight_pos ex ltac:(lia)) as Hpex.
    change (2 ^ 42) with 4398046511104 in *. change (2 ^ 43) with 8796093022208 in *.
    split; [split|].
    + apply (Hlow hour 0); [change (2 ^ 53) with (2 ^ 22 * 2 ^ 31); lia|lia|]. nia.
    + apply (Hup (hour + 1) 0); [change (2 ^ 53) with (2 ^ 22 * 2 ^ 31); lia|lia|]. nia.
    + intros Hsmall.
      apply (Hup ((hour + 1) * 8796093022208 - 1) (-43));
        [change (2 ^ 53) with 9007199254740992; lia|lia|]. nia.
Qed.

Lemma days_zero : daysIn 0 = 0.
Proof. reflexivity. Qed.

Section Days.

Variable d : Z.
Hypothesis Hd : 0 < d <= maxDuration.

Lemma days_div_24 :
  exists my ey mz ez,
    Hours d = S754_finite false my ey /\
    (d / Hour) * weight 0 <= Z.pos my * weight ey <= (d / Hour + 1) * weight 0 /\
    (d / Hour < 1000 ->
     Z.pos my * weight ey <= ((d / Hour + 1) * 2 ^ 43 - 1) * weight (- 43)) /\
    Float64.div (Hours d) (Float64.of_int 24) = S754_finite false mz ez /\
    -2000 <= ez /\
    (forall mc ec, 0 < mc < 2 ^ 53 -> -2000 <= ec ->
       mc * weight ec * 6755399441055744 <= Z.pos my * weight ey * 2 ^ 48 ->
       mc * weight ec <= Z.pos mz * weight ez) /\
    (forall mc ec, 0 < mc < 2 ^ 53 -> -2000 <= ec ->
       Z.pos my * weight ey * 2 ^ 48 < mc * weight ec * 6755399441055744 ->
       Z.pos mz * weight ez <= mc * weight ec).
Proof.
  destruct (Hours_bounds d Hd) as (my & ey & Hy & Hmy & Hey & Hvy & Hfine).
  change (Float64.of_int 24) with (S754_finite false 6755399441055744 (-48)).
  destruct (div_bounds my ey 6755399441055744 (-48))
    as (mz & ez & Hz & Hmz & Hez & Hlow & Hup); [done| |lia|lia|].
  { split; [by vm_compute|reflexivity]. }
  exists my, ey, mz, ez. rewrite Hy.
  split; [reflexivity|]. split; [done|]. split; [done|].
  split; [exact Hz|]. split; [lia|].
  assert (HP : weight (ey - -48) = weight ey * 2 ^ 48).
  { rewrite <- weight_add by lia. f_equal; lia. }
  split.
  - intros mc ec Hmc Hec Hle. apply Hlow; [done..|]. rewrite HP. lia.
  - intros mc ec Hmc Hec Hlt. apply Hup; [done..|]. rewrite HP. lia.
Qed.

Lemma hours_of_days (k : Z) :
  (k * (24 * Hour) <= d -> 24 * k <= d / Hour) /\
  (d < k * (24 * Hour) -> d / Hour + 1 <= 24 * k).
Proof.
  unfold Hour. split; intros H.
  - apply Z.div_le_lower_bound; lia.
  - assert (d / 3600000000000 < 24 * k); [|lia].
    apply Z.div_lt_upper_bound; lia.
Qed.

Lemma days_lower (k : Z) :
  1 <= k -> k * (24 * Hour) <= d -> k <= daysIn d.
Proof.
  intros Hk Hkd.
  destruct days_div_24 as (my & ey & mz & ez & _ & [Hy1 _] & _ & Hz & Hez & Hlow & _).
  unfold daysIn. rewrite Hz. apply to_int_ge; [done|].
  pose proof (proj1 (hours_of_days k) Hkd) as Hh.
  pose proof (weight_pos 0 ltac:(lia)) as HP0.
  apply (Hlow k 0); [|lia|].
  - unfold maxDuration, GoInt.max_int, Hour in *. change (2 ^ 53) with 9007199254740992. lia.
  - change (2 ^ 48) with 281474976710656. nia.
Qed.

Lemma days_upper (k : Z) :
  1 <= k <= 2 ^ 40 -> d < k * (24 * Hour) -> daysIn d <= k.
Proof.
  intros Hk Hkd.
  destruct days_div_24 as (my & ey & mz & ez & _ & [_ Hy2] & _ & Hz & Hez & _ & Hup).
  unfold daysIn. rewrite Hz.
  assert (Float64.to_int (S754_finite false mz ez) < k + 1); [|lia].
  apply to_int_lt; [done|].
  pose proof (proj2 (hours_of_days k) Hkd) as Hh.
  pose proof (weight_pos 0 ltac:(lia)) as HP0.
  pose proof (weight_pos (-1) ltac:(lia)) as HP1.
  assert (HP : weight 0 = weight (-1) * 2).
  { change 0 with (-1 + 1). rewrite weight_add by lia. reflexivity. }
  assert (Z.pos mz * weight ez <= (2 * k + 1) * weight (-1)); [|rewrite HP; nia].
  apply (Hup (2 * k + 1) (-1)); [|lia|].
  - change (2 ^ 53) with (2 ^ 40 * 8192). lia.
  - change (2 ^ 48) with 281474976710656. rewrite HP in Hy2. nia.
Qed.

(** Below 32 days the rounding of [Hours] stays clear of the next
    whole day. *)
Lemma days_upper_short (k : Z) :
  0 <= k <= 31 -> d < (k + 1) * (24 * Hour) -> daysIn d <= k.
Proof.
  intros Hk Hlt.
  destruct days_div_24 as (my & ey & mz & ez & _ & _ & Hfine & Hz & Hez & _ & Hup).
  unfold daysIn. rewrite Hz.
  assert (Float64.to_int (S754_finite false mz ez) < k + 1); [|lia].
  apply to_int_lt; [done|].
  pose proof (proj2 (hours_of_days (k + 1)) Hlt) as Hh.
  pose proof (Z.div_pos d Hour ltac:(lia) ltac:(unfold Hour; lia)) as Hh0.
  specialize (Hfine ltac:(lia)).
  pose proof (weight_pos (-48) ltac:(lia)) as HP48.
  assert (HPa : weight 0 = weight (-48) * 2 ^ 48).
  { change 0 with (-48 + 48). rewrite weight_add by lia. reflexivity. }
  assert (HPb : weight (-43) = weight (-48) * 2 ^ 5).
  { change (-43) with (-48 + 5). rewrite weight_add by lia. reflexivity. }
  assert (Z.pos mz * weight ez <= ((k + 1) * 2 ^ 48 - 1) * weight (-48)).
  { apply (Hup ((k + 1) * 2 ^ 48 - 1) (-48)); [|lia|].
    - change (2 ^ 53) with (32 * 2 ^ 48). change (2 ^ 48) with 281474976710656. lia.
    - rewrite HPb in Hfine.
      change (2 ^ 48) with 281474976710656 in *. change (2 ^ 43) with 8796093022208 in *.
      change (2 ^ 5) with 32 in *. nia. }
  rewrite HPa. change (2 ^ 48) with 281474976710656 in *. nia.
Qed.

Lemma days_sub_day : d < 24 * Hour -> daysIn d = 0.
Proof.
  intros Hlt.
  pose proof (days_upper_short 0 ltac:(lia) ltac:(lia)) as Hup.
  destruct days_div_24 as (my & ey & mz & ez & _ & _ & _ & Hz & _).
  unfold daysIn in *. rewrite Hz in *.
  pose proof (to_int_nonneg mz ez). lia.
Qed.

End Days.

(** The day count of a duration that is not negative is the number of
    whole days in it or one more, and is 0 below one day. *)
Lemma daysIn_spec (d : Z) :
  0 <= d <= maxDuration ->
  d / (24 * Hour) <= daysIn d <= d / (24 * Hour) + 1 /\
  (d < 24 * Hour -> daysIn d = 0).
Proof.
  intros [Hd0 Hd1].
  destruct (Z.eq_dec d 0) as [->|Hne]; [by rewrite days_zero|].
  assert (Hd : 0 < d <= maxDuration) by lia.
  assert (H24 : 0 < 24 * Hour) by (unfold Hour; lia).
  destruct (Z_lt_le_dec d (24 * Hour)) as [Hlt|Hge].
  - rewrite (days_sub_day d Hd Hlt), Z.div_small by lia. lia.
  - split; [|lia].
    pose proof (Z.mul_div_le d (24 * Hour) H24) as Hq1.
    pose proof (Z.mul_succ_div_gt d (24 * Hour) H24) as Hq2.
    assert (Hq0 : 1 <= d / (24 * Hour)) by (apply Z.div_le_lower_bound; lia).
    assert (Hq3 : d / (24 * Hour) < 2 ^ 22).
    { apply Z.div_lt_upper_bound; [done|].
      unfold maxDuration, GoInt.max_int, Hour in *. change (2 ^ 22) with 4194304. lia. }
    split.
    + apply (days_lower d Hd); lia.
    + apply (days_upper d Hd); [|lia]. change (2 ^ 40) with (2 ^ 22 * 262144). lia.
Qed.

(** Below 32 days it is the number of whole days. *)
Lemma daysIn_exact_short (d : Z) :
  0 <= d < 32 * (24 * Hour) -> daysIn d = d / (24 * Hour).
Proof.
  intros [Hd0 Hd1].
  assert (Hmax : d <= maxDuration).
  { unfold maxDuration, GoInt.max_int, Hour in *. lia. }
  destruct (daysIn_spec d ltac:(lia)) as [[Hlow _] _].
  destruct (Z.eq_dec d 0) as [->|Hne]; [reflexivity|].
  assert (H24 : 0 < 24 * Hour) by (unfold Hour; lia).
  pose proof (Z.mul_succ_div_gt d (24 * Hour) H24) as Hq2.
  assert (Hq0 : 0 <= d / (24 * Hour)) by (apply Z.div_pos; lia).
  assert (Hq1 : d / (24 * Hour) < 32) by (apply Z.div_lt_upper_bound; lia).
  pose proof (days_upper_short d ltac:(lia) (d / (24 * Hour)) ltac:(lia) ltac:(lia)).
  lia.
Qed.

Lemma Sub_not_Before (now last : Time) :
  Before now last = false -> 0 <= Sub now last <= maxDuration.
Proof.
  unfold Before, Sub. intros Hb. apply Z.ltb_ge in Hb.
  unfold minDuration, maxDuration, GoInt.min_int, GoInt.max_int.
  repeat case_match; lia.
Qed.

(** ** The day count of a time that is not after the last one

    Rounding keeps the sign: where the duration is not positive,
    neither is any of the binary64 values on the way to the day count. *)

Lemma binary_round_aux_sign (mx ex : Z) (lx : location) :
  not_positive (binary_round_aux Float64.prec Float64.emax true mx ex lx).
Proof.
  unfold binary_round_aux.
  destruct (shr_fexp _ _ _ _ _) as [mrs' e'].
  destruct (shr_fexp _ _ _ _ _) as [mrs'' e''].
  destruct (shr_m mrs''); try done.
  by destruct (_ <=? _).
Qed.

Lemma binary_normalize_sign (z e : Z) :
  z <= 0 -> not_positive (binary_normalize Float64.prec Float64.emax z e false).
Proof.
  intros Hz. destruct z as [|p|p]; [done|lia|].
  unfold binary_normalize, binary_round.
  destruct (shl_align _ _ _) as [mz ez]. apply binary_round_aux_sign.
Qed.

Lemma div_sign (x : spec_float) (my : positive) (ey : Z) :
  not_positive x -> not_positive (Float64.div x (S754_finite false my ey)).
Proof.
  unfold Float64.div, SFdiv. destruct x as [s| s| |[|] m e]; try done.
  intros _. destruct (SFdiv_core_binary _ _ _ _ _ _) as [[mz ez] lz].
  apply binary_round_aux_sign.
Qed.

Lemma add_sign (x y : spec_float) :
  not_positive x -> not_positive y -> not_positive (Float64.add x y).
Proof.
  unfold Float64.add, SFadd.
  destruct x as [[|]|[|]| |[|] mx ex], y as [[|]|[|]| |[|] my ey]; try done.
  intros _ _. apply binary_normalize_sign. cbn. lia.
Qed.

Lemma to_int_sign (x : spec_float) : not_positive x -> Float64.to_int x <= 0.
Proof.
  destruct x as [s|s| |[|] m e]; try done; cbn; try lia.
  intros _. destruct e as [|p|p].
  - lia.
  - pose proof (Z.pow_pos_nonneg 2 (Z.pos p)). nia.
  - assert (0 <= Z.pos m / 2 ^ Z.pos p); [|lia].
    apply Z.div_pos; [lia|]. apply Z.pow_pos_nonneg; lia.
Qed.

Lemma daysIn_nonpos (d : Z) : d <= 0 -> daysIn d <= 0.
Proof.
  intros Hd. apply to_int_sign. unfold daysIn.
  assert (H24 : exists m e, Float64.of_int 24 = S754_finite false m e)
    by (eexists _, _; reflexivity).
  assert (Hh : exists m e, Float64.of_int (60 * 60 * 1000000000) = S754_finite false m e)
    by (eexists _, _; reflexivity).
  destruct H24 as (m24 & e24 & ->). apply div_sign. unfold Hours.
  destruct Hh as (mh & eh & ->).
  apply add_sign; [|apply div_sign]; apply binary_normalize_sign.
  - pose proof (Z.mul_quot_ge d Hour Hd ltac:(done)) as Hq.
    unfold Hour in *. lia.
  - apply Z.rem_nonpos; [done|lia].
Qed.

(** [Sub] against the difference of the instants. *)
Lemma Sub_cases (now last : Time) :
  (Sub now last < 0 <-> unixNano now - unixNano last < 0) /\
  (24 * Hour <= Sub now last <-> 24 * Hour <= unixNano now - unixNano last) /\
  minDuration <= Sub now last <= maxDuration /\
  (minDuration <= unixNano now - unixNano last <= maxDuration ->
   Sub now last = unixNano now - unixNano last).
Proof.
  unfold Sub, minDuration, maxDuration, GoInt.min_int, GoInt.max_int, Hour.
  generalize (unixNano now - unixNano last). intros g.
  destruct (Z.ltb_spec g (-9223372036854775808));
    [|destruct (Z.ltb_spec 9223372036854775807 g)]; lia.
Qed.

(** The day count is positive exactly from 24 hours on. *)
Lemma daysSince_positive (now last : Time) :
  0 < daysSince now last <-> 24 * Hour <= unixNano now - unixNano last.
Proof.
  unfold daysSince.
  destruct (Sub_cases now last) as (Hneg & Hday & [_ Hmax] & _).
  rewrite <- Hday. clear Hneg Hday.
  generalize dependent (Sub now last). intros d Hmax.
  assert (H24 : 0 < 24 * Hour) by (unfold Hour; lia).
  destruct (Z_lt_le_dec d 0) as [Hlt0|Hpos].
  - pose proof (daysIn_nonpos d ltac:(lia)). lia.
  - destruct (daysIn_spec d ltac:(lia)) as [[Hlow _] Hzero].
    split.
    + intros Hd. destruct (Z_lt_le_dec d (24 * Hour)) as [Hlt|Hge]; [|done].
      specialize (Hzero Hlt). lia.
    + intros Hge.
      assert (1 <= d / (24 * Hour)) by (apply Z.div_le_lower_bound; lia).
      lia.
Qed.

(** The day count of [Track] against the whole days elapsed, for a
    time that is not before the last one: where the elapsed time is a
    [Duration] it is their number or one more, and it is 0 with them. *)
Lemma daysSince_spec (now last : Time) :
  Before now last = false ->
  (unixNano now - unixNano last <= maxDuration ->
   specDaysSince now last <= daysSince now last <= specDaysSince now last + 1) /\
  (specDaysSince now last = 0 -> daysSince now last = 0).
Proof.
  intros Hb. pose proof (Sub_not_Before now last Hb) as Hd.
  destruct (daysIn_spec (Sub now last) Hd) as [Hbounds Hzero].
  destruct (Sub_cases now last) as (_ & _ & _ & HSub).
  unfold Before in Hb. apply Z.ltb_ge in Hb.
  unfold daysSince, specDaysSince. split.
  - intros Hmax.
    assert (HS : Sub now last = unixNano now - unixNano last)
      by (apply HSub; unfold minDuration, GoInt.min_int; lia).
    rewrite HS in *. done.
  - intros Hq. apply Hzero.
    apply Z.div_small_iff in Hq; [|unfold Hour; lia].
    assert (Hgap : 0 <= unixNano now - unixNano last < 24 * Hour) by (unfold Hour in *; lia).
    rewrite HSub; [lia|].
    unfold minDuration, maxDuration, GoInt.min_int, GoInt.max_int, Hour in *. lia.
Qed.


(** ** Saving changes the files only *)

Lemma store_Save_mem s w : mem (store_Save s w).2 = mem w.
Proof.
  unfold store_Save.
  destruct (os_Create _ _); [reflexivity|].
  destruct (gobEncode _ _); reflexivity.
Qed.

Lemma store_Save_written s w : written (store_Save s w).2 = written w.
Proof.
  unfold store_Save.
  destruct (os_Create _ _); [reflexivity|].
  destruct (gobEncode _ _); reflexivity.
Qed.

(** ** The transitions of [Track] on a habit of the store *)

Section Existing.

Variables (t : Tracker) (hbtName : string) (now : Time) (w : World).
Variables (l : loc) (hbt : Habit).
Hypothesis Hdata : data (tstore t) !! hbtName = Some (Some l).
Hypothesis Hmem : mem w !! l = Some hbt.

Lemma Track_precedes :
  Before now (LastDone hbt) = true ->
  Track t hbtName now w
  = (Returns (Some (ErrPrecedes now hbtName (LastDone hbt))), t, w).
Proof. intros Hb. unfold Track. rewrite Hdata, Hmem, Hb. reflexivity. Qed.

(** Every other case ends in [Save], after one update and one line. *)
Lemma Track_update (streak : Z) (msg : Msg) :
  Before now (LastDone hbt) = false ->
  (if sameDate now (LastDone hbt) then
     (CurrentStreak hbt, MsgSameDay hbtName)
   else if 0 <? daysSince now (LastDone hbt) then
     (1, MsgNewStreak hbtName (daysSince now (LastDone hbt))
                      (dayOutput (daysSince now (LastDone hbt))))
   else
     (GoInt.wrap64 (CurrentStreak hbt + 1),
      MsgStreak hbtName (GoInt.wrap64 (CurrentStreak hbt + 1))
                (dayOutput (daysSince now (LastDone hbt)))))
  = (streak, msg) ->
  Track t hbtName now w
  = (Returns (store_Save (tstore t) (updated t l hbt streak now msg w)).1, t,
     (store_Save (tstore t) (updated t l hbt streak now msg w)).2).
Proof.
  intros Hb Hcase. unfold Track. rewrite Hdata, Hmem, Hb.
  destruct (sameDate now (LastDone hbt));
    [|destruct (0 <? daysSince now (LastDone hbt))];
    injection Hcase as <- <-; cbn zeta;
    unfold updated, set_mem, emit; cbn [mem files written];
    destruct (store_Save _ _); reflexivity.
Qed.

Lemma Track_update_spec (streak : Z) (msg : Msg) :
  Track t hbtName now w
  = (Returns (store_Save (tstore t) (updated t l hbt streak now msg w)).1, t,
     (store_Save (tstore t) (updated t l hbt streak now msg w)).2) ->
  exists err w',
    Track t hbtName now w = (Returns err, t, w') /\
    (err, w') = store_Save (tstore t) (updated t l hbt streak now msg w) /\
    mem w' = <[l := mkHabit (Name hbt) streak now]> (mem w) /\
    written w' = written w ++ [(output t, msg)].
Proof.
  intros ->. eexists _, _. split; [reflexivity|].
  split; [symmetry; apply surjective_pairing|].
  rewrite store_Save_mem, store_Save_written. split; reflexivity.
Qed.

End Existing.

(** ** C1: an occurrence before the last one is rejected *)

(** C1. For a habit of the store, [Track] at a time strictly before
    the stored [LastDone] returns the error that names the time, the
    habit and the stored time, and leaves the tracker, the heap of
    records, the files and the output as they were. *)
Theorem C1_out_of_order_rejected
  (t : Tracker) (hbtName : string) (now : Time) (w : World) (l : loc) (hbt : Habit) :
  data (tstore t) !! hbtName = Some (Some l) ->
  mem w !! l = Some hbt ->
  Before now (LastDone hbt) = true ->
  Track t hbtName now w
  = (Returns (Some (ErrPrecedes now hbtName (LastDone hbt))), t, w).
Proof. intros Hd Hm Hb. by apply (Track_precedes t hbtName now w l hbt). Qed.

(** The scenario of the test suite: last done 2024-02-06T13:00:00Z,
    recorded at 2024-02-05T13:00:00Z. *)
Lemma C1_out_of_order_rejected_witness :
  let hbt := mkHabit "programming" 0 feb06_1300 in
  Track (trackerOf "" hbt) "programming" feb05_1300 (worldOf hbt)
  = (Returns (Some (ErrPrecedes feb05_1300 "programming" feb06_1300)),
     trackerOf "" hbt, worldOf hbt).
Proof.
  intros hbt.
  apply (C1_out_of_order_rejected (trackerOf "" hbt) "programming" feb05_1300
           (worldOf hbt) 1%positive hbt); reflexivity.
Defined.

(** ** C2: a second occurrence on the same calendar date *)

(** C2. For a habit of the store, [Track] at a time that is not before
    the stored [LastDone] and falls on its calendar date keeps
    [CurrentStreak], sets [LastDone] to the time, prints the line of a
    repeated day and saves; no condition on the day count is involved,
    the case is decided before it is looked at. *)
Theorem C2_same_day_keeps_streak
  (t : Tracker) (hbtName : string) (now : Time) (w : World) (l : loc) (hbt : Habit) :
  data (tstore t) !! hbtName = Some (Some l) ->
  mem w !! l = Some hbt ->
  Before now (LastDone hbt) = false ->
  sameDate now (LastDone hbt) = true ->
  exists err w',
    Track t hbtName now w = (Returns err, t, w') /\
    (err, w') = store_Save (tstore t)
                  (updated t l hbt (CurrentStreak hbt) now (MsgSameDay hbtName) w) /\
    mem w' = <[l := mkHabit (Name hbt) (CurrentStreak hbt) now]> (mem w) /\
    written w' = written w ++ [(output t, MsgSameDay hbtName)].
Proof.
  intros Hd Hm Hb Hs.
  apply (Track_update_spec t hbtName now w l hbt).
  apply (Track_update t hbtName now w l hbt); [done..|]. by rewrite Hs.
Qed.

(** Two timestamps of one calendar date, each in its own zone, that
    are 49 hours apart: the day count is 2 and the streak of 7 stays. *)
Lemma C2_same_day_keeps_streak_witness :
  let hbt := mkHabit "programming" 7 feb06_kiritimati in
  daysSince feb06_baker feb06_kiritimati = 2 /\
  exists err w',
    Track (trackerOf "test.store" hbt) "programming" feb06_baker (worldOf hbt)
    = (Returns err, trackerOf "test.store" hbt, w') /\
    (err, w') = store_Save (tstore (trackerOf "test.store" hbt))
                  (updated (trackerOf "test.store" hbt) 1%positive hbt 7 feb06_baker
                     (MsgSameDay "programming") (worldOf hbt)) /\
    mem w' = <[1%positive := mkHabit "programming" 7 feb06_baker]> (mem (worldOf hbt)) /\
    written w' = written (worldOf hbt) ++ [(Buffer 0, MsgSameDay "programming")].
Proof.
  intros hbt. split; [reflexivity|].
  apply (C2_same_day_keeps_streak (trackerOf "test.store" hbt) "programming"
           feb06_baker (worldOf hbt) 1%positive hbt); reflexivity.
Defined.

(** ** C3: an occurrence a day or more after the last one *)

(** On the scenarios of the test suite the day count [Track] computes
    is the number of whole days elapsed. *)
Example daysSince_one_day : daysSince feb06_1305 feb05_1305 = 1.
Proof. reflexivity. Qed.

Example daysSince_two_days :
  daysSince feb06_1305 feb04_1300 = 2 /\ specDaysSince feb06_1305 feb04_1300 = 2.
Proof. split; reflexivity. Qed.

Example daysSince_less_than_a_day :
  daysSince feb06_1259 feb05_1300 = 0 /\ specDaysSince feb06_1259 feb05_1300 = 0.
Proof. split; reflexivity. Qed.

(** It is not that number in general. One nanosecond short of 171
    days, [Hours] adds 4103 and a quotient that is less than 1 by less
    than half the spacing of the binary64 numbers near 4104: the sum is
    rounded to 4104, and the day count is 171 for 170 whole days. *)
Example Hours_rounds_up :
  Hours (171 * 24 * Hour - 1) = Float64.of_int 4104 /\
  daysSince day171_less_1ns epoch = 171 /\
  specDaysSince day171_less_1ns epoch = 170.
Proof. repeat split; reflexivity. Qed.

(** The binary64 unit of the processor agrees: 4103 plus the quotient of
    3599999999999 by 3.6e12 is 4104, while 4079 plus that quotient is
    not 4080. *)
Example Hours_rounds_up_in_hardware :
  Prim2SF (PrimFloat.add (PrimFloat.of_uint63 4103%uint63)
             (PrimFloat.div (PrimFloat.of_uint63 3599999999999%uint63)
                            (PrimFloat.of_uint63 3600000000000%uint63)))
  = Hours (171 * 24 * Hour - 1) /\
  Prim2SF (PrimFloat.add (PrimFloat.of_uint63 4079%uint63)
             (PrimFloat.div (PrimFloat.of_uint63 3599999999999%uint63)
                            (PrimFloat.of_uint63 3600000000000%uint63)))
  = Hours (170 * 24 * Hour - 1) /\
  Hours (170 * 24 * Hour - 1) <> Float64.of_int 4080.
Proof. repeat split; [vm_compute; reflexivity..|by vm_compute]. Qed.


(** The spread of the two counts is not bounded: [Sub] saturates at
    the longest [Duration], some 292 years. From the zero [time.Time],
    which a habit that was set without a [LastDone] carries, to
    2024-02-06 that makes 106751 days for 738921 whole days elapsed. *)
Example daysSince_saturates :
  daysSince feb06_1300 zeroTime = 106751 /\
  specDaysSince feb06_1300 zeroTime = 738921.
Proof. split; reflexivity. Qed.



(** ** C4: an occurrence on another date, less than a day later *)

Lemma wrap64_id (z : Z) : GoInt.in_range z -> GoInt.wrap64 z = z.
Proof.
  unfold GoInt.in_range, GoInt.min_int, GoInt.max_int, GoInt.wrap64.
  intros Hz. rewrite Z.mod_small by lia. lia.
Qed.

(** C4, as the claim has it, fails at the largest [int]: the streak
    2^63 - 1 extended at 2024-02-06T12:59:00Z, less than a day after
    2024-02-05T13:00:00Z, becomes -2^63. *)
Lemma C4_increment_refuted :
  ~ (forall (t : Tracker) (hbtName : string) (now : Time) (w : World)
            (l : loc) (hbt : Habit),
        GoInt.in_range (CurrentStreak hbt) ->
        data (tstore t) !! hbtName = Some (Some l) ->
        mem w !! l = Some hbt ->
        Before now (LastDone hbt) = false ->
        sameDate now (LastDone hbt) = false ->
        specDaysSince now (LastDone hbt) = 0 ->
        daysSince now (LastDone hbt) = 0 ->
        exists err w',
          Track t hbtName now w = (Returns err, t, w') /\
          mem w' = <[l := mkHabit (Name hbt) (CurrentStreak hbt + 1) now]> (mem w)).
Proof.
  intros claim.
  pose (hbt := mkHabit "programming" GoInt.max_int feb05_1300).
  destruct (claim (trackerOf "test.store" hbt) "programming" feb06_1259
              (worldOf hbt) 1%positive hbt)
    as (err & w' & Htrack & Hmem); [by vm_compute|reflexivity..|].
  assert (Hcode : mem (Track (trackerOf "test.store" hbt) "programming"
                         feb06_1259 (worldOf hbt)).2 !! 1%positive
                  = Some (mkHabit "programming" GoInt.min_int feb06_1259))
    by reflexivity.
  rewrite Htrack in Hcode. cbn [snd] in Hcode.
  rewrite Hmem, lookup_insert_eq in Hcode. discriminate Hcode.
Qed.

(** C4. For a habit of the store, [Track] at a time that is not before
    the stored [LastDone], not on its calendar date, and less than a
    whole day after it, adds 1 to [CurrentStreak] in the arithmetic of
    [int], which is the sum itself unless the streak is the largest
    [int], sets [LastDone] to the time, prints the line of the extended
    streak, and saves. *)
Theorem C4_next_day_extends_streak
  (t : Tracker) (hbtName : string) (now : Time) (w : World) (l : loc) (hbt : Habit) :
  data (tstore t) !! hbtName = Some (Some l) ->
  mem w !! l = Some hbt ->
  Before now (LastDone hbt) = false ->
  sameDate now (LastDone hbt) = false ->
  specDaysSince now (LastDone hbt) = 0 ->
  let s := GoInt.wrap64 (CurrentStreak hbt + 1) in
  (GoInt.min_int <= CurrentStreak hbt < GoInt.max_int -> s = CurrentStreak hbt + 1) /\
  (CurrentStreak hbt = GoInt.max_int -> s = GoInt.min_int) /\
  exists err w',
    Track t hbtName now w = (Returns err, t, w') /\
    (err, w') = store_Save (tstore t)
                  (updated t l hbt s now (MsgStreak hbtName s "days") w) /\
    mem w' = <[l := mkHabit (Name hbt) s now]> (mem w) /\
    written w' = written w ++ [(output t, MsgStreak hbtName s "days")].
Proof.
  intros Hd Hm Hb Hs Hspec s.
  pose proof (proj2 (daysSince_spec now (LastDone hbt) Hb) Hspec) as Hn.
  split; [|split].
  - intros Hr. apply wrap64_id.
    unfold GoInt.in_range, GoInt.min_int, GoInt.max_int in *. lia.
  - intros Hmax. unfold s. rewrite Hmax. reflexivity.
  - apply (Track_update_spec t hbtName now w l hbt).
    apply (Track_update t hbtName now w l hbt); [done..|].
    rewrite Hs, Hn. reflexivity.
Qed.

(** The scenario of the test suite: a streak of 1 last done
    2024-02-05T13:00:00Z, recorded at 2024-02-06T12:59:00Z. *)
Lemma C4_next_day_extends_streak_witness :
  let hbt := mkHabit "programming" 1 feb05_1300 in
  (GoInt.min_int <= 1 < GoInt.max_int -> GoInt.wrap64 (1 + 1) = 1 + 1) /\
  (1 = GoInt.max_int -> GoInt.wrap64 (1 + 1) = GoInt.min_int) /\
  exists err w',
    Track (trackerOf "test.store" hbt) "programming" feb06_1259 (worldOf hbt)
    = (Returns err, trackerOf "test.store" hbt, w') /\
    (err, w') = store_Save (tstore (trackerOf "test.store" hbt))
                  (updated (trackerOf "test.store" hbt) 1%positive hbt 2 feb06_1259
                     (MsgStreak "programming" 2 "days") (worldOf hbt)) /\
    mem w' = <[1%positive := mkHabit "programming" 2 feb06_1259]> (mem (worldOf hbt)) /\
    written w' = written (worldOf hbt) ++ [(Buffer 0, MsgStreak "programming" 2 "days")].
Proof.
  intros hbt.
  apply (C4_next_day_extends_streak (trackerOf "test.store" hbt) "programming"
           feb06_1259 (worldOf hbt) 1%positive hbt); reflexivity.
Defined.

(** ** What a successful [Save] leaves in the file *)

Lemma gobEncode_lookup mem0 (d : gmap string ptr) (m : gmap string Habit) (k : string) :
  gobEncode mem0 d = Some m -> m !! k = d !! k ≫= deref mem0.
Proof.
  unfold gobEncode. case_decide; [|discriminate].
  intros [= <-]. apply lookup_omap.
Qed.

Lemma gobEncode_Some mem0 (d : gmap string ptr) (m : gmap string Habit) :
  gobEncode mem0 d = Some m ->
  forall k p, d !! k = Some p -> exists hbt, deref mem0 p = Some hbt /\ m !! k = Some hbt.
Proof.
  intros Henc k p Hk. rewrite (gobEncode_lookup _ _ _ k Henc), Hk. cbn.
  unfold gobEncode in Henc. case_decide as Hall; [|discriminate].
  destruct (Hall k p Hk) as [hbt Hp]. eauto.
Qed.

Lemma store_Save_ok s w w' :
  store_Save s w = (None, w') ->
  path s <> "" /\
  exists m,
    gobEncode (mem w) (data s) = Some m /\
    files w' !! path s = Some (Regular (GobStream m)) /\
    mem w' = mem w /\ written w' = written w.
Proof.
  unfold store_Save, os_Create.
  case_decide as Hp; [discriminate|].
  intros Hsave. split; [done|].
  destruct (files w !! path s) as [[ | | | ]|];
    try discriminate;
    (destruct (gobEncode (mem w) (data s)) as [m|]; [|discriminate]);
    injection Hsave as <-; exists m; cbn;
    by rewrite lookup_insert_eq.
Qed.


(** ** C5: the first occurrence of a habit *)




(** ** C6: what [Save] wrote, [OpenStore] reads back *)

Lemma setAll_path calls s : path (setAll calls s) = path s.
Proof.
  unfold setAll. revert s.
  induction calls as [|call calls IH]; intros s; cbn; [reflexivity|].
  by rewrite IH.
Qed.

(** Decoding allocates: the records that were there stay, and every
    entry of the decoded map leads to the record of the stream. *)
Lemma gobDecode_spec (m : gmap string Habit) (mem0 : gmap loc Habit) :
  mem0 ⊆ (gobDecode m mem0).2 /\
  forall k, deref (gobDecode m mem0).2 <$> ((gobDecode m mem0).1 !! k) = Some <$> (m !! k).
Proof.
  unfold gobDecode.
  apply (map_fold_weak_ind (fun (acc : gmap string ptr * gmap loc Habit) m =>
           mem0 ⊆ acc.2 /\ forall k, deref acc.2 <$> (acc.1 !! k) = Some <$> (m !! k))).
  - split; [done|]. intros k. by rewrite !lookup_empty.
  - intros i x m' [d h2] Hi [Hsub IH]. cbn [fst snd] in *.
    assert (Hfresh : h2 !! fresh (dom h2) = None).
    { apply not_elem_of_dom, is_fresh. }
    split.
    + etrans; [exact Hsub|]. by apply insert_subseteq.
    + intros k. destruct (decide (i = k)) as [->|Hne].
      * rewrite !lookup_insert_eq. cbn. by rewrite lookup_insert_eq.
      * rewrite !lookup_insert_ne by done. rewrite <- IH.
        destruct (d !! k) as [[l0|]|] eqn:Hk; cbn; [|done..].
        f_equal. specialize (IH k). rewrite Hk in IH. cbn in IH.
        destruct (decide (fresh (dom h2) = l0)) as [<-|Hl].
        -- rewrite Hfresh in IH. destruct (m' !! k); discriminate.
        -- by rewrite lookup_insert_ne.
Qed.

(** C6. Let a sequence of [Set] calls be made on a store, each call
    binding its key and a later call of a key replacing an earlier
    one: the map of the store is then [saved] below. If [Save]
    succeeds, [OpenStore] of the same path succeeds in the world
    [Save] left, and what [All] returns for the store it returns has
    an entry exactly where [saved] has one, leading to a record equal
    to the record the saved entry led to at the time of the save; no
    saved entry is nil. The path of a store that was saved is not
    empty. *)
Theorem C6_save_open_roundtrip
  (s : store) (calls : list (string * ptr)) (w w' : World) :
  store_Save (setAll calls s) w = (None, w') ->
  let saved := foldl (fun (m : gmap string ptr) call => <[call.1 := call.2]> m)
                     (data s) calls in
  path s <> "" /\
  data (setAll calls s) = saved /\
  exists s2 w2,
    OpenStore (path s) w' = (inr s2, w2) /\
    path s2 = path s /\
    forall name,
      deref (mem w2) <$> (store_All s2 !! name) = deref (mem w) <$> (saved !! name) /\
      (forall p, saved !! name = Some p -> is_Some (deref (mem w) p)).
Proof.
  intros Hsave saved.
  assert (Hdata : data (setAll calls s) = saved).
  { subst saved. unfold setAll. clear Hsave. revert s.
    induction calls as [|call calls IH]; intros s; cbn; [reflexivity|].
    by rewrite IH. }
  apply store_Save_ok in Hsave as (Hpath & m & Henc & Hfile & Hmem & _).
  rewrite setAll_path in Hpath, Hfile. split; [done|]. split; [done|].
  rewrite Hdata in Henc.
  pose proof (gobDecode_spec m (mem w')) as [_ Hdec].
  exists (mkStore (path s) (gobDecode m (mem w')).1),
         (set_mem (gobDecode m (mem w')).2 w').
  split; [|split; [reflexivity|]].
  - unfold OpenStore, os_Open. rewrite decide_False by done. rewrite Hfile.
    destruct (gobDecode m (mem w')). reflexivity.
  - intros name. unfold store_All. cbn [data mem set_mem]. rewrite Hdec.
    rewrite (gobEncode_lookup _ _ _ name Henc).
    split.
    + destruct (saved !! name) as [p|] eqn:Hp; [|done].
      destruct (gobEncode_Some _ _ _ Henc name p Hp) as (hbt & Hd & _).
      cbn. by rewrite Hd.
    + intros p Hp.
      destruct (gobEncode_Some _ _ _ Henc name p Hp) as (hbt & Hd & _).
      by exists hbt.
Qed.

(** The round trip of the store tests: three habits are set, the
    store is saved and opened again, and [Get] finds the three habits
    in the store that was opened. *)
Lemma C6_save_open_roundtrip_witness :
  let s := mkStore "temp.store" ∅ in
  let w := mkWorld threeHabits ∅ [] in
  let w' := (store_Save (setAll threeSets s) w).2 in
  let saved : gmap string ptr :=
    {[ "habit1" := Some 1%positive; "habit2" := Some 2%positive;
       "habit3" := Some 3%positive ]} in
  data (setAll threeSets s) = saved /\
  exists s2 w2,
    OpenStore "temp.store" w' = (inr s2, w2) /\
    path s2 = "temp.store" /\
    (forall name,
        deref (mem w2) <$> (store_All s2 !! name) = deref (mem w) <$> (saved !! name)) /\
    deref (mem w2) <$> (store_All s2 !! "habit1") = Some (Some (mkHabit "habit1" 0 zeroTime)) /\
    deref (mem w2) <$> (store_All s2 !! "habit2") = Some (Some (mkHabit "habit2" 0 zeroTime)) /\
    deref (mem w2) <$> (store_All s2 !! "habit3") = Some (Some (mkHabit "habit3" 0 zeroTime)) /\
    store_All s2 !! "habit4" = None.
Proof.
  intros s w w' saved.
  destruct (C6_save_open_roundtrip s threeSets w w' eq_refl)
    as (_ & Hdata & s2 & w2 & Hopen & Hpath & Hall).
  split; [exact Hdata|].
  exists s2, w2. split; [exact Hopen|]. split; [exact Hpath|].
  split; [intros name; exact (proj1 (Hall name))|].
  split; [exact (proj1 (Hall "habit1"))|].
  split; [exact (proj1 (Hall "habit2"))|].
  split; [exact (proj1 (Hall "habit3"))|].
  pose proof (proj1 (Hall "habit4")) as H4.
  destruct (store_All s2 !! "habit4"); [discriminate H4|reflexivity].
Defined.

(** ** C10: [NewTracker] opens the default store first *)

(** C10. Whatever the options, if [OpenStore] of ["habit.store"] fails
    then [NewTracker] returns its error and the world it left: the
    result is that of the call without options, none of them has been
    applied. *)
Theorem C10_NewTracker_open_error
  (opts : list trackerOption) (w w' : World) (err : error) :
  OpenStore "habit.store" w = (inl err, w') ->
  NewTracker opts w = (inl err, w') /\ NewTracker opts w = NewTracker [] w.
Proof.
  intros Hopen. unfold NewTracker. rewrite Hopen. done.
Qed.

(** The default store cannot be opened, and a store and an output that
    would be accepted are supplied. *)
Lemma C10_NewTracker_open_error_witness :
  let opts := [WithStore (Some (mkStore "" ∅)); WithOutput (Some (Buffer 0))] in
  NewTracker opts lockedDefault
  = (inl (ErrOpeningStore "habit.store" EACCES), lockedDefault) /\
  NewTracker opts lockedDefault = NewTracker [] lockedDefault.
Proof.
  intros opts.
  apply (C10_NewTracker_open_error opts lockedDefault lockedDefault
           (ErrOpeningStore "habit.store" EACCES)).
  reflexivity.
Defined.

(** A file that does not decode is refused in the same way, and where
    the default store opens the options are applied. *)
Example NewTracker_undecodable :
  NewTracker [WithStore (Some (mkStore "" ∅))]
    (mkWorld ∅ {[ "habit.store" := Regular NotGob ]} [])
  = (inl ErrDecodingStore, mkWorld ∅ {[ "habit.store" := Regular NotGob ]} []).
Proof. reflexivity. Qed.

Example NewTracker_with_store :
  NewTracker [WithStore (Some (mkStore "" ∅)); WithOutput (Some (Buffer 0))]
    (mkWorld ∅ ∅ [])
  = (inr (mkTracker (Buffer 0) (mkStore "" ∅)), mkWorld ∅ ∅ []).
Proof. reflexivity. Qed.

(** ** C9: the store of the empty path *)

Lemma store_Save_transient s w :
  path s = "" -> store_Save s w = (Some (ErrCreatingStore "" ENOENT), w).
Proof. intros Hp. unfold store_Save, os_Create. rewrite Hp. reflexivity. Qed.

(** The cases of [Track]: a nil or dangling entry, an occurrence before
    the last one, the three updates, a new habit. *)
Ltac Track_cases t hbtName now w :=
  unfold Track;
  destruct (data (tstore t) !! hbtName) as [[?l|]|];
    [destruct (mem w !! _) as [?hbt|];
       [destruct (Before now (LastDone _));
          [|destruct (sameDate now (LastDone _));
              [|destruct (0 <? daysSince now (LastDone _))]]|]| |];
  cbn zeta.

(** [Track] never changes the path of the store of its tracker. *)
Lemma Track_path t hbtName now w :
  path (tstore (Track t hbtName now w).1.2) = path (tstore t).
Proof.
  Track_cases t hbtName now w; try reflexivity;
    destruct (store_Save _ _) as [[e|] w2]; reflexivity.
Qed.

Lemma Track_transient_files t hbtName now w :
  path (tstore t) = "" -> files (Track t hbtName now w).2 = files w.
Proof.
  intros Hp.
  Track_cases t hbtName now w; try reflexivity;
    rewrite store_Save_transient by done; reflexivity.
Qed.

Lemma doCall_transient sw c :
  path sw.1 = "" ->
  path (doCall sw c).1 = "" /\ files (doCall sw c).2 = files sw.2.
Proof.
  destruct sw as [s w]. cbn [fst snd]. intros Hp.
  destruct c as [key|key hb|key| | |o hbtName now]; cbn [doCall fst snd]; try done.
  - split; [done|]. by rewrite store_Save_transient.
  - pose proof (Track_path (mkTracker o s) hbtName now w) as Hpath.
    pose proof (Track_transient_files (mkTracker o s) hbtName now w Hp) as Hfiles.
    destruct (Track (mkTracker o s) hbtName now w) as [[r t'] w'].
    cbn in *. by rewrite Hpath.
Qed.

(** C9. [OpenStore] of the empty path returns, without error and in
    any world, an empty store bound to the empty path. What is set in
    it is found by [Get]. Whatever calls follow on it, also [Save] and
    [Track], the store stays bound to the empty path and the files
    stay as they were; [Save] returns the error of the file that could
    not be created. *)
Theorem C9_transient_store :
  (forall w, OpenStore "" w = (inr (mkStore "" ∅), w)) /\
  (forall key l hbt (s : store) (w : World),
      mem w !! l = Some hbt ->
      store_Get (store_Set key (Some l) s) (mem w) key = Some (hbt, true)) /\
  (forall (calls : list storeCall) (s : store) (w : World),
      path s = "" ->
      path (doCalls calls (s, w)).1 = "" /\
      files (doCalls calls (s, w)).2 = files w) /\
  (forall (s : store) (w : World),
      path s = "" -> store_Save s w = (Some (ErrCreatingStore "" ENOENT), w)).
Proof.
  split; [reflexivity|]. split; [|split].
  - intros key l hbt s w Hl. unfold store_Get, store_Set. cbn.
    rewrite lookup_insert_eq. cbn. by rewrite Hl.
  - intros calls. unfold doCalls.
    induction calls as [|c calls IH] using rev_ind; intros s w Hp; [done|].
    rewrite foldl_app. cbn [foldl].
    destruct (IH s w Hp) as [Hp' Hf'].
    destruct (doCall_transient (foldl doCall (s, w) calls) c Hp') as [Hp2 Hf2].
    split; [done|]. by rewrite Hf2.
  - intros s w. apply store_Save_transient.
Qed.

(** A run on the store of the empty path: three habits are set, the
    store is saved, a habit is tracked, and no file has appeared. *)
Lemma C9_transient_store_witness :
  let calls := [CallSet "habit1" (Some 1%positive); CallGet "habit1"; CallSave;
                CallTrack Stdout "programming" feb06_1300; CallDelete "habit1";
                CallAll; CallSave] in
  OpenStore "" (mkWorld threeHabits ∅ []) = (inr (mkStore "" ∅), mkWorld threeHabits ∅ []) /\
  path (doCalls calls (mkStore "" ∅, mkWorld threeHabits ∅ [])).1 = "" /\
  files (doCalls calls (mkStore "" ∅, mkWorld threeHabits ∅ [])).2 = ∅.
Proof.
  intros calls.
  destruct C9_transient_store as (Hopen & _ & Hruns & _).
  split; [apply Hopen|].
  apply (Hruns calls (mkStore "" ∅) (mkWorld threeHabits ∅ [])). reflexivity.
Defined.

(** ** C8: the summary *)

(** The loop prints one line for each entry, in the order it takes
    them, and changes nothing else. *)
Lemma summaryLoop_lines o now (entries : list (string * ptr)) w :
  Forall (fun e => is_Some (deref (mem w) e.2)) entries ->
  exists lines,
    Forall2 (fun e line => exists hbt,
                 deref (mem w) e.2 = Some hbt /\
                 line = (o, summaryLine now hbt)) entries lines /\
    summaryLoop o now entries w
    = (Returns None, mkWorld (mem w) (files w) (written w ++ lines)).
Proof.
  revert w. induction entries as [|[k p] entries IH]; intros w Hall.
  - exists []. split; [constructor|]. cbn. rewrite app_nil_r. by destruct w.
  - apply Forall_cons in Hall as [[hbt Hp] Hall]. cbn [snd] in Hp.
    destruct (IH (emit o (summaryLine now hbt) w)) as (lines & Hlines & Hloop);
      [exact Hall|].
    exists ((o, summaryLine now hbt) :: lines). split.
    + constructor; [by exists hbt|exact Hlines].
    + cbn [summaryLoop]. rewrite Hp, Hloop. cbn. by rewrite <- app_assoc.
Qed.





Example summary_of_the_tests :
  PrintSummaryIn (map_to_list (data (tstore summaryTracker)))
    summaryTracker feb06_1300 summaryWorld
  = (Returns None,
     mkWorld (mem summaryWorld) ∅
       [(Buffer 0, MsgInactive 3 "days" "exercising");
        (Buffer 0, MsgInactive 1 "day" "programming")]).
Proof. reflexivity. Qed.

Example summary_of_nothing :
  PrintSummaryIn [] (mkTracker Stdout (mkStore "" ∅)) feb06_1300 (mkWorld ∅ ∅ [])
  = (Returns None, mkWorld ∅ ∅ [(Stdout, MsgNoHabits)]).
Proof. reflexivity. Qed.

(** ** C7: streaks of a store that [Track] has built *)

(** What a call of [Track] that returns no error has done to the store
    and to the records. *)
Lemma Track_success t hbtName now w t' w' :
  Track t hbtName now w = (Returns None, t', w') ->
  (data (tstore t) !! hbtName = None /\
   data (tstore t') = <[hbtName := Some (fresh (dom (mem w)))]> (data (tstore t)) /\
   mem w' = <[fresh (dom (mem w)) := mkHabit hbtName 1 now]> (mem w))
  \/
  (exists l hbt streak,
      data (tstore t) !! hbtName = Some (Some l) /\
      mem w !! l = Some hbt /\
      t' = t /\
      mem w' = <[l := mkHabit (Name hbt) streak now]> (mem w) /\
      (streak = CurrentStreak hbt \/ streak = 1 \/
       streak = GoInt.wrap64 (CurrentStreak hbt + 1))).
Proof.
  unfold Track. destruct (data (tstore t) !! hbtName) as [[l|]|] eqn:Hd.
  - destruct (mem w !! l) as [hbt|] eqn:Hm; [|discriminate].
    destruct (Before now (LastDone hbt)); [discriminate|].
    intros Htrack. right. exists l, hbt.
    destruct (sameDate now (LastDone hbt));
      [|destruct (0 <? daysSince now (LastDone hbt))];
      cbn zeta in Htrack;
      match type of Htrack with
      | context [store_Save ?s ?w2] =>
          pose proof (store_Save_mem s w2) as Hmem;
          destruct (store_Save s w2) as [err w3]
      end;
      injection Htrack as -> <- <-; cbn in Hmem;
      eexists; (split; [reflexivity|]); (split; [exact Hm|]);
      (split; [reflexivity|]); (split; [exact Hmem|]); auto.
  - discriminate.
  - cbn zeta.
    match goal with
    | |- context [store_Save ?s ?w2] =>
        pose proof (store_Save_mem s w2) as Hmem;
        destruct (store_Save s w2) as [[err|] w3]
    end; [discriminate|].
    intros [= <- <-]. left. cbn in *. done.
Qed.

(** After [n] successful calls no streak is below 1 or above [n], as
    long as [n] is an [int]. *)
Lemma reachable_streak_bounds n t w :
  reachable n t w ->
  Z.of_nat n <= GoInt.max_int ->
  forall name p, data (tstore t) !! name = Some p ->
    exists l hbt, p = Some l /\ mem w !! l = Some hbt /\
                  1 <= CurrentStreak hbt <= Z.of_nat n.
Proof.
  induction 1 as [o p0 w|n t w hbtName now t' w' Hreach IH Htrack]; intros Hn name p Hp.
  - cbn in Hp. by rewrite lookup_empty in Hp.
  - assert (Hn' : Z.of_nat n <= GoInt.max_int) by lia.
    specialize (IH Hn').
    apply Track_success in Htrack
      as [(Hnone & Hdata & Hmem)|(l & hbt & streak & Hd & Hm & -> & Hmem & Hstreak)].
    + rewrite Hdata in Hp. rewrite Hmem.
      destruct (decide (hbtName = name)) as [->|Hne].
      * rewrite lookup_insert_eq in Hp. injection Hp as <-.
        eexists _, _. split; [reflexivity|]. rewrite lookup_insert_eq.
        split; [reflexivity|]. cbn. lia.
      * rewrite lookup_insert_ne in Hp by done.
        destruct (IH name p Hp) as (l0 & hbt0 & -> & Hl0 & Hb).
        exists l0, hbt0. split; [done|].
        rewrite lookup_insert_ne; [split; [done|lia]|].
        intros Heq. rewrite <- Heq in Hl0.
        pose proof (is_fresh (dom (mem w))) as Hfresh.
        apply not_elem_of_dom in Hfresh. congruence.
    + destruct (IH name p Hp) as (l0 & hbt0 & -> & Hl0 & Hb).
      destruct (IH hbtName (Some l) Hd) as (l1 & hbt1 & [= <-] & Hl1 & Hb1).
      rewrite Hm in Hl1. injection Hl1 as <-.
      rewrite Hmem. destruct (decide (l = l0)) as [<-|Hne].
      * eexists l, _. split; [done|]. rewrite lookup_insert_eq.
        split; [reflexivity|]. cbn.
        destruct Hstreak as [->|[->| ->]]; [lia|lia|].
        rewrite wrap64_id; [lia|].
        unfold GoInt.in_range, GoInt.min_int, GoInt.max_int in *. lia.
      * exists l0, hbt0. split; [done|].
        rewrite lookup_insert_ne by done. split; [done|lia].
Qed.

(** C7. In every state that a tracker over an empty store reaches by
    [n] calls of [Track] that return no error, [n] an [int], every
    entry of the store leads to a record whose [CurrentStreak] is at
    least 1. *)
Theorem C7_streak_at_least_one (n : nat) (t : Tracker) (w : World) :
  reachable n t w ->
  Z.of_nat n <= GoInt.max_int ->
  forall name p, data (tstore t) !! name = Some p ->
    exists l hbt, p = Some l /\ mem w !! l = Some hbt /\ 1 <= CurrentStreak hbt.
Proof.
  intros Hreach Hn name p Hp.
  destruct (reachable_streak_bounds n t w Hreach Hn name p Hp)
    as (l & hbt & Hl & Hm & Hb).
  exists l, hbt. split; [done|]. split; [done|lia].
Qed.

(** Two successful calls: a new habit, and its streak extended. *)
Lemma C7_streak_at_least_one_witness :
  exists l hbt,
    Some 1%positive = Some l /\ mem secondDay.2 !! l = Some hbt /\
    1 <= CurrentStreak hbt.
Proof.
  apply (C7_streak_at_least_one 2 secondDay.1.2 secondDay.2) with (name := "programming").
  - apply (reach_Track 1 firstDay.1.2 firstDay.2 "programming" feb06_1259);
      [|reflexivity].
    apply (reach_Track 0 (mkTracker (Buffer 0) (mkStore "test.store" ∅))
             (mkWorld ∅ ∅ []) "programming" feb05_1300);
      [apply reach_empty|reflexivity].
  - vm_compute. discriminate.
  - reflexivity.
Defined.

(** *** The bound cannot be dropped *)

Lemma wrap64_succ (z : Z) :
  GoInt.wrap64 (GoInt.wrap64 z + 1) = GoInt.wrap64 (z + 1).
Proof.
  unfold GoInt.wrap64.
  replace (_ mod _ - _ + 1 + _)
    with ((z + 9223372036854775808) mod 18446744073709551616 + 1) by lia.
  replace (z + 1 + 9223372036854775808) with (z + 9223372036854775808 + 1) by lia.
  by rewrite Zplus_mod_idemp_l.
Qed.

Lemma gobEncode_total mem0 (d : gmap string ptr) :
  map_Forall (fun _ p => is_Some (deref mem0 p)) d ->
  gobEncode mem0 d = Some (omap (deref mem0) d).
Proof. intros Hall. unfold gobEncode. by rewrite decide_True. Qed.

(** With the clock at one instant, seen in turn from two zones in
    which the date differs, every call extends the streak. *)
Lemma lone_step (s : Z) (b : bool) (w : World) :
  loneWorld s b w ->
  exists w',
    Track loneTracker "h" (clk (negb b)) w = (Returns None, loneTracker, w') /\
    loneWorld (GoInt.wrap64 (s + 1)) (negb b) w'.
Proof.
  intros [Hm [d Hf]].
  assert (Hb : Before (clk (negb b)) (clk b) = false) by (by destruct b).
  assert (Hs : sameDate (clk (negb b)) (clk b) = false) by (by destruct b).
  assert (Hn : daysSince (clk (negb b)) (clk b) = 0) by (by destruct b).
  pose (hbt := mkHabit "h" s (clk b)).
  pose (s' := GoInt.wrap64 (s + 1)).
  assert (Hl : mem w !! 1%positive = Some hbt) by (rewrite Hm; apply lookup_singleton_eq).
  pose proof (Track_update loneTracker "h" (clk (negb b)) w 1%positive hbt
                eq_refl Hl s' (MsgStreak "h" s' "days") Hb) as Htrack.
  cbn [LastDone CurrentStreak hbt] in Htrack.
  rewrite Hs, Hn in Htrack. specialize (Htrack eq_refl).
  set (w2 := updated loneTracker 1 hbt s' (clk (negb b)) (MsgStreak "h" s' "days") w)
    in Htrack.
  assert (Hm2 : mem w2 = {[ 1%positive := mkHabit "h" s' (clk (negb b)) ]}).
  { unfold w2, updated. cbn [mem]. rewrite Hm. apply insert_singleton_eq. }
  assert (Hsave : store_Save (tstore loneTracker) w2
                  = (None, set_files
                       {[ "habit.store" :=
                            Regular (GobStream (omap (deref (mem w2))
                                                  (data (tstore loneTracker)))) ]} w2)).
  { unfold store_Save, os_Create. cbn [path tstore loneTracker].
    rewrite decide_False by discriminate.
    replace (files w2) with (files w) by reflexivity. rewrite Hf, lookup_singleton_eq.
    rewrite gobEncode_total.
    - rewrite insert_singleton_eq, insert_singleton_eq. reflexivity.
    - intros k p Hk. cbn [data] in Hk. apply lookup_singleton_Some in Hk as [_ <-].
      unfold deref. rewrite Hm2, lookup_singleton_eq. by eexists. }
  rewrite Hsave in Htrack. cbn [fst snd] in Htrack.
  eexists. split; [exact Htrack|].
  split; [exact Hm2|]. by eexists.
Qed.

Lemma lone_run (k : nat) :
  exists n b w,
    reachable n loneTracker w /\
    loneWorld (GoInt.wrap64 (Z.of_nat k + 1)) b w.
Proof.
  induction k as [|k (n & b & w & Hreach & Hw)].
  - exists 1%nat, true,
      (Track (mkTracker Stdout (mkStore "habit.store" ∅)) "h" (clk true)
             (mkWorld ∅ ∅ [])).2.
    split.
    + apply (reach_Track 0 (mkTracker Stdout (mkStore "habit.store" ∅))
               (mkWorld ∅ ∅ []) "h" (clk true)); [apply reach_empty|reflexivity].
    + split; [reflexivity|]. eexists. reflexivity.
  - destruct (lone_step _ b w Hw) as (w' & Htrack & Hw').
    exists (S n), (negb b), w'. split.
    + eapply reach_Track; [exact Hreach|exact Htrack].
    + rewrite wrap64_succ in Hw'.
      by replace (Z.of_nat (S k) + 1) with (Z.of_nat k + 1 + 1) by lia.
Qed.

(** C7, as the claim has it, fails: 2^63 calls of [Track] that all
    return no error, the first of which starts a habit, lead to a
    store whose one record has the streak -2^63. *)
Lemma C7_unbounded_refuted :
  ~ (forall (n : nat) (t : Tracker) (w : World),
        reachable n t w ->
        forall name l hbt,
          data (tstore t) !! name = Some (Some l) ->
          mem w !! l = Some hbt ->
          1 <= CurrentStreak hbt).
Proof.
  intros claim.
  destruct (lone_run (Z.to_nat GoInt.max_int)) as (n & b & w & Hreach & Hm & _).
  rewrite Z2Nat.id in Hm by discriminate.
  specialize (claim n loneTracker w Hreach "h" 1%positive
                (mkHabit "h" (GoInt.wrap64 (GoInt.max_int + 1)) (clk b)) eq_refl).
  rewrite Hm, lookup_singleton_eq in claim.
  specialize (claim eq_refl). revert claim. by vm_compute.
Qed.

(** * Further properties of the store *)

(** ** What [Save] writes *)

(** X2. [Save] changes no record and prints nothing; of the files it
    changes at most the one at the path of the store; and when it
    returns the error of the file it could not create, the world is as
    it was. *)
Theorem X2_Save_changes_one_file (s : store) (w : World) :
  mem (store_Save s w).2 = mem w /\
  written (store_Save s w).2 = written w /\
  (forall p, p <> path s -> files (store_Save s w).2 !! p = files w !! p) /\
  (forall e, (store_Save s w).1 = Some (ErrCreatingStore (path s) e) ->
             (store_Save s w).2 = w).
Proof.
  split; [apply store_Save_mem|]. split; [apply store_Save_written|].
  unfold store_Save, os_Create.
  case_decide as He; [done|].
  destruct (files w !! path s) as [[ | | | ]|]; try done;
    (destruct (gobEncode (mem w) (data s)); cbn [fst snd files set_files];
     (split; [|done]); intros p Hp; by rewrite !lookup_insert_ne).
Qed.

(** X3. Of two calls of [Save] on stores of one path the second
    decides: the result and the world are those of the second call
    alone, whatever the first call wrote or failed to write. *)
Theorem X3_Save_last_write_wins (s1 s2 : store) (w : World) :
  path s1 = path s2 ->
  store_Save s2 (store_Save s1 w).2 = store_Save s2 w.
Proof.
  intros Hp. unfold store_Save, os_Create. rewrite Hp.
  case_decide as He; [reflexivity|].
  destruct w as [m f o]. cbn [files mem written set_files].
  destruct (f !! path s2) as [[ | | | ]|] eqn:Hf; cbn [snd files mem written];
    try (rewrite Hf; reflexivity).
  all: destruct (gobEncode m (data s1)); cbn [snd files mem written set_files];
    rewrite ?lookup_insert_eq;
    destruct (gobEncode m (data s2)); cbn [set_files files mem written];
    rewrite ?insert_insert_eq; reflexivity.
Qed.

(** A store of one habit is saved, then the store of the three habits
    of the store tests at the same path. *)
Lemma X3_Save_last_write_wins_witness :
  let s1 := mkStore "temp.store" {[ "habit1" := Some 1%positive ]} in
  let s2 := setAll threeSets (mkStore "temp.store" ∅) in
  let w := mkWorld threeHabits ∅ [] in
  store_Save s2 (store_Save s1 w).2 = store_Save s2 w.
Proof.
  intros s1 s2 w. apply (X3_Save_last_write_wins s1 s2 w). reflexivity.
Defined.

(** X4. [Save] on a store that holds a nil pointer, at a path where the
    file can be created: the file is created or truncated before the
    encoder fails, [Save] returns the encoding error, and what the file
    held is lost, [OpenStore] of the path now returning the decoding
    error. *)
Theorem X4_Save_nil_entry_truncates (s : store) (w : World) (key : string) :
  data s !! key = Some None ->
  path s <> "" ->
  (files w !! path s = None \/ exists d, files w !! path s = Some (Regular d)) ->
  let w' := set_files (<[path s := Regular NotGob]> (files w)) w in
  store_Save s w = (Some (ErrEncodingStore (path s)), w') /\
  OpenStore (path s) w' = (inl ErrDecodingStore, w').
Proof.
  intros Hnil Hp Hfile w'.
  assert (Henc : gobEncode (mem w) (data s) = None).
  { unfold gobEncode. case_decide as Hall; [|done].
    destruct (Hall key None Hnil) as [h Hh]. discriminate. }
  split.
  - unfold store_Save, os_Create. rewrite decide_False by done.
    destruct Hfile as [->|[d ->]]; by rewrite Henc.
  - unfold OpenStore, os_Open. rewrite decide_False by done.
    subst w'. cbn [files set_files]. by rewrite lookup_insert_eq.
Qed.

(** The file of the default path holds a habit; a store with a nil
    entry is saved over it. *)
Lemma X4_Save_nil_entry_truncates_witness :
  let w' := set_files (<["habit.store" := Regular NotGob]> (files storedWorld)) storedWorld in
  store_Save (tstore nilTracker) storedWorld = (Some (ErrEncodingStore "habit.store"), w') /\
  OpenStore "habit.store" w' = (inl ErrDecodingStore, w').
Proof.
  apply (X4_Save_nil_entry_truncates (tstore nilTracker) storedWorld "h").
  - reflexivity.
  - discriminate.
  - right. eexists. reflexivity.
Defined.

(** ** Keys *)

(** X5. [Delete] removes its key, after which [Get] returns the zero
    habit and false; [Set] and [Delete] leave what [Get] returns for
    every other key as it was. *)
Theorem X5_store_keys_independent (s : store) (m : gmap loc Habit) (key : string) :
  store_Get (store_Delete key s) m key = Some (zeroHabit, false) /\
  forall other hb, other <> key ->
    store_Get (store_Set key hb s) m other = store_Get s m other /\
    store_Get (store_Delete key s) m other = store_Get s m other.
Proof.
  unfold store_Get, store_Set, store_Delete. cbn [data]. split.
  - by rewrite lookup_delete_eq.
  - intros other hb Hne. by rewrite lookup_insert_ne, lookup_delete_ne.
Qed.

(** The loop of the summary panics when it reaches a nil entry, and it
    reaches every entry. *)
Lemma summaryLoop_nil o now (entries : list (string * ptr)) (w : World) :
  Exists (fun e => deref (mem w) e.2 = None) entries ->
  (summaryLoop o now entries w).1 = Panics.
Proof.
  revert w. induction entries as [|[k p] entries IH]; intros w Hex.
  - by apply Exists_nil in Hex.
  - cbn [summaryLoop]. destruct (deref (mem w) p) as [hbt|] eqn:Hp; [|reflexivity].
    apply IH. apply Exists_cons in Hex as [Hex|Hex]; [cbn in Hex; congruence|].
    exact Hex.
Qed.

(** X6. [Set] takes a nil pointer without complaint. Once a key holds
    one, [Get] of the key panics, [Track] of the key panics and leaves
    the world as it was, and [PrintSummary] panics in whatever order it
    takes the entries. *)
Theorem X6_nil_entry_panics (t : Tracker) (key : string) (now : Time) (w : World) :
  data (tstore t) !! key = Some None ->
  store_Get (tstore t) (mem w) key = None /\
  Track t key now w = (Panics, t, w) /\
  forall res, PrintSummary t now w res -> res.1 = Panics.
Proof.
  intros Hnil. split; [|split].
  - unfold store_Get. by rewrite Hnil.
  - unfold Track. by rewrite Hnil.
  - intros res (entries & Hperm & <-). unfold PrintSummaryIn.
    assert (Hsize : (Z.of_nat (size (data (tstore t))) <? 1) = false).
    { apply Z.ltb_ge.
      destruct (decide (size (data (tstore t)) = 0%nat)) as [H0|H0]; [|lia].
      apply map_size_empty_iff in H0. rewrite H0, lookup_empty in Hnil. discriminate. }
    rewrite Hsize. apply summaryLoop_nil.
    apply Exists_exists. exists (key, None). split; [|reflexivity].
    rewrite Hperm. by apply elem_of_map_to_list.
Qed.

Lemma X6_nil_entry_panics_witness :
  store_Get (tstore nilTracker) (mem storedWorld) "h" = None /\
  Track nilTracker "h" feb06_1300 storedWorld = (Panics, nilTracker, storedWorld) /\
  forall res, PrintSummary nilTracker feb06_1300 storedWorld res -> res.1 = Panics.
Proof.
  apply (X6_nil_entry_panics nilTracker "h" feb06_1300 storedWorld). reflexivity.
Defined.

(** * Sound stores

    What [OpenStore] builds, what [Track] keeps, and what follows for
    a tracker over such a store. *)

(** Decoding allocates a record for every entry, outside the records
    that were there, and no record twice. *)
Lemma gobDecode_fresh (m : gmap string Habit) (mem0 : gmap loc Habit) :
  (forall k p, (gobDecode m mem0).1 !! k = Some p ->
     exists l, p = Some l /\ is_Some ((gobDecode m mem0).2 !! l) /\ mem0 !! l = None) /\
  (forall k1 k2 l, (gobDecode m mem0).1 !! k1 = Some (Some l) ->
     (gobDecode m mem0).1 !! k2 = Some (Some l) -> k1 = k2).
Proof.
  enough (H : mem0 ⊆ (gobDecode m mem0).2 /\
    (forall k p, (gobDecode m mem0).1 !! k = Some p ->
       exists l, p = Some l /\ is_Some ((gobDecode m mem0).2 !! l) /\ mem0 !! l = None) /\
    (forall k1 k2 l, (gobDecode m mem0).1 !! k1 = Some (Some l) ->
       (gobDecode m mem0).1 !! k2 = Some (Some l) -> k1 = k2)) by tauto.
  unfold gobDecode.
  apply (map_fold_weak_ind (fun (acc : gmap string ptr * gmap loc Habit) (_ : gmap string Habit) =>
    mem0 ⊆ acc.2 /\
    (forall k p, acc.1 !! k = Some p ->
       exists l, p = Some l /\ is_Some (acc.2 !! l) /\ mem0 !! l = None) /\
    (forall k1 k2 l, acc.1 !! k1 = Some (Some l) -> acc.1 !! k2 = Some (Some l) -> k1 = k2))).
  - split; [done|]. cbn [fst snd]. split; intros *; by rewrite lookup_empty.
  - intros i x m' [d h2] Hi (Hsub & Halloc & Hinj). cbn [fst snd] in *.
    assert (Hfresh : h2 !! fresh (dom h2) = None).
    { apply not_elem_of_dom, is_fresh. }
    assert (Hnew : forall k, d !! k <> Some (Some (fresh (dom h2)))).
    { intros k Hk. destruct (Halloc k _ Hk) as (l & [= <-] & [h Hl] & _). congruence. }
    split; [|split].
    + etrans; [exact Hsub|]. by apply insert_subseteq.
    + intros k p. destruct (decide (i = k)) as [->|Hne].
      * rewrite lookup_insert_eq. intros [= <-]. eexists. split; [reflexivity|].
        rewrite lookup_insert_eq. split; [by eexists|].
        destruct (mem0 !! fresh (dom h2)) as [h|] eqn:Hm; [|done].
        eapply lookup_weaken in Hm; [|exact Hsub]. congruence.
      * rewrite lookup_insert_ne by done. intros Hk.
        destruct (Halloc k p Hk) as (l & -> & [h Hl] & Hm0).
        exists l. split; [done|]. split; [|done].
        exists h. rewrite lookup_insert_ne; [done|]. congruence.
    + intros k1 k2 l.
      destruct (decide (i = k1)) as [E1|Hne1]; destruct (decide (i = k2)) as [E2|Hne2];
        subst; rewrite ?lookup_insert_eq, ?lookup_insert_ne by done.
      * done.
      * intros [= <-] Hk. by destruct (Hnew k2).
      * intros Hk [= <-]. by destruct (Hnew k1).
      * apply Hinj.
Qed.

(** What [OpenStore] does to the world, and the store it returns. *)
Lemma OpenStore_frame (p : string) (w : World) :
  files (OpenStore p w).2 = files w /\
  written (OpenStore p w).2 = written w /\
  mem w ⊆ mem (OpenStore p w).2 /\
  match (OpenStore p w).1 with
  | inl _ => (OpenStore p w).2 = w
  | inr s =>
      path s = p /\ sound s (mem (OpenStore p w).2) /\
      forall name l, data s !! name = Some (Some l) -> mem w !! l = None
  end.
Proof.
  unfold OpenStore.
  destruct (os_Open (files w) p) as [[ | ]|[m| ]]; cbn [fst snd]; try done.
  pose proof (gobDecode_spec m (mem w)) as [Hsub _].
  pose proof (gobDecode_fresh m (mem w)) as [Halloc Hinj].
  destruct (gobDecode m (mem w)) as [d mem'] eqn:Hdec. cbn [fst snd] in *.
  repeat split; try done.
  - intros name q Hq. destruct (Halloc name q Hq) as (l & -> & Hl & _). eauto.
  - intros name l Hl. by destruct (Halloc name _ Hl) as (l' & [= <-] & _ & Hnone).
Qed.

(** X1. [OpenStore] only reads: the files and the output are as they
    were and every record that was there still is. When it fails the
    world is unchanged. The store it returns is bound to the path it
    was given and is sound, and its entries lead to records that were
    not there before. *)
Theorem X1_OpenStore_reads_only (p : string) (w : World) :
  files (OpenStore p w).2 = files w /\
  written (OpenStore p w).2 = written w /\
  mem w ⊆ mem (OpenStore p w).2 /\
  match (OpenStore p w).1 with
  | inl _ => (OpenStore p w).2 = w
  | inr s =>
      path s = p /\ sound s (mem (OpenStore p w).2) /\
      forall name l, data s !! name = Some (Some l) -> mem w !! l = None
  end.
Proof. exact (OpenStore_frame p w). Qed.

(** Soundness is kept when a key is bound to a new record and when a
    record is overwritten. *)
Lemma sound_insert_new (s : store) (m : gmap loc Habit) (name : string) (h : Habit) :
  sound s m ->
  sound (store_Set name (Some (fresh (dom m))) s) (<[fresh (dom m) := h]> m).
Proof.
  intros [Halloc Hinj].
  assert (Hfresh : m !! fresh (dom m) = None) by apply not_elem_of_dom, is_fresh.
  assert (Hnew : forall k, data s !! k <> Some (Some (fresh (dom m)))).
  { intros k Hk. destruct (Halloc k _ Hk) as (l & [= <-] & [h' Hl]). congruence. }
  split; cbn [store_Set data].
  - intros k p. destruct (decide (name = k)) as [->|Hne].
    + rewrite lookup_insert_eq. intros [= <-]. eexists. split; [done|].
      rewrite lookup_insert_eq. by eexists.
    + rewrite lookup_insert_ne by done. intros Hk.
      destruct (Halloc k p Hk) as (l & -> & [h' Hl]). exists l. split; [done|].
      exists h'. rewrite lookup_insert_ne; [done|congruence].
  - intros k1 k2 l.
    destruct (decide (name = k1)) as [E1|Hne1]; destruct (decide (name = k2)) as [E2|Hne2];
      subst; rewrite ?lookup_insert_eq, ?lookup_insert_ne by done.
    + done.
    + intros [= <-] Hk. by destruct (Hnew k2).
    + intros Hk [= <-]. by destruct (Hnew k1).
    + apply Hinj.
Qed.

Lemma sound_update (s : store) (m : gmap loc Habit) (l : loc) (h : Habit) :
  is_Some (m !! l) -> sound s m -> sound s (<[l := h]> m).
Proof.
  intros Hl [Halloc Hinj]. split; [|done].
  intros k p Hk. destruct (Halloc k p Hk) as (l' & -> & Hl').
  exists l'. split; [done|]. apply lookup_insert_is_Some'. by right.
Qed.

(** Soundness of a given store, by two checks that can be computed. *)
Lemma sound_checked (s : store) (m : gmap loc Habit) :
  map_Forall (fun _ p => is_Some (deref m p)) (data s) ->
  NoDup (map_to_list (data s)).*2 ->
  sound s m.
Proof.
  intros Hall Hnd. split.
  - intros name p Hp. destruct (Hall name p Hp) as [h Hh].
    destruct p as [l|]; [|discriminate]. exists l. split; [done|]. by exists h.
  - intros n1 n2 l H1 H2.
    apply elem_of_map_to_list, list_elem_of_lookup_1 in H1 as [i Hi].
    apply elem_of_map_to_list, list_elem_of_lookup_1 in H2 as [j Hj].
    assert (Hij : i = j).
    { apply (NoDup_lookup _ i j (Some l) Hnd); rewrite list_lookup_fmap.
      - by rewrite Hi.
      - by rewrite Hj. }
    subst j. congruence.
Qed.

Lemma sound_trackerOf (p : string) (hbt : Habit) :
  sound (tstore (trackerOf p hbt)) (mem (worldOf hbt)).
Proof.
  apply sound_checked; cbn.
  - apply map_Forall_singleton. cbn. rewrite lookup_singleton_eq. by eexists.
  - rewrite map_to_list_singleton. cbn. apply NoDup_singleton.
Qed.

Lemma sound_summaryTracker : sound (tstore summaryTracker) (mem summaryWorld).
Proof.
  apply sound_checked.
  - apply (bool_decide_unpack _). vm_compute. exact I.
  - apply (bool_decide_unpack _). vm_compute. exact I.
Qed.

(** [Track] on a sound store does not panic and leaves the store sound. *)
Lemma Track_sound (t : Tracker) (hbtName : string) (now : Time) (w : World) :
  sound (tstore t) (mem w) ->
  (Track t hbtName now w).1.1 <> Panics /\
  sound (tstore (Track t hbtName now w).1.2) (mem (Track t hbtName now w).2).
Proof.
  intros Hs. pose proof Hs as [Halloc _].
  unfold Track.
  destruct (data (tstore t) !! hbtName) as [[l|]|] eqn:Hd.
  - destruct (Halloc _ _ Hd) as (l' & [= <-] & [hbt Hl]). rewrite Hl.
    destruct (Before now (LastDone hbt)); [done|].
    destruct (sameDate now (LastDone hbt));
      [|destruct (0 <? daysSince now (LastDone hbt))]; cbn zeta;
      match goal with
      | |- context [store_Save ?s ?w2] =>
          pose proof (store_Save_mem s w2) as Hmem;
          destruct (store_Save s w2) as [err w3]
      end; cbn [fst snd mem set_mem emit] in *; rewrite Hmem;
      (split; [done|]); apply sound_update; eauto.
  - by destruct (Halloc _ _ Hd) as (l' & [=] & _).
  - cbn zeta.
    match goal with
    | |- context [store_Save ?s ?w2] =>
        pose proof (store_Save_mem s w2) as Hmem;
        destruct (store_Save s w2) as [[err|] w3]
    end; cbn [fst snd mem set_mem emit set_store tstore] in *; rewrite Hmem;
    (split; [done|]); by apply sound_insert_new.
Qed.

(** X7. On a sound store [Track] never panics, whatever the name and
    the time, and the store it leaves is sound over the records it
    leaves. *)
Theorem X7_Track_keeps_sound (t : Tracker) (hbtName : string) (now : Time) (w : World) :
  sound (tstore t) (mem w) ->
  (Track t hbtName now w).1.1 <> Panics /\
  sound (tstore (Track t hbtName now w).1.2) (mem (Track t hbtName now w).2).
Proof. exact (Track_sound t hbtName now w). Qed.

Lemma X7_Track_keeps_sound_witness :
  let t := trackerOf "test.store" programmingDay1 in
  let w := worldOf programmingDay1 in
  (Track t "exercising" feb06_1259 w).1.1 <> Panics /\
  sound (tstore (Track t "exercising" feb06_1259 w).1.2)
        (mem (Track t "exercising" feb06_1259 w).2).
Proof.
  intros t w. apply (X7_Track_keeps_sound t "exercising" feb06_1259 w).
  apply sound_trackerOf.
Defined.

(** * What [Track] leaves alone *)

(** What becomes of a record in a call of [Track], whatever the
    outcome of the call. *)
Lemma Track_kept (t : Tracker) (hbtName : string) (now : Time) (w : World)
  (l : loc) (hbt : Habit) :
  mem w !! l = Some hbt ->
  exists hbt',
    mem (Track t hbtName now w).2 !! l = Some hbt' /\
    Name hbt' = Name hbt /\
    unixNano (LastDone hbt) <= unixNano (LastDone hbt') /\
    (data (tstore t) !! hbtName <> Some (Some l) -> hbt' = hbt).
Proof.
  intros Hl. unfold Track.
  destruct (data (tstore t) !! hbtName) as [[l0|]|] eqn:Hd.
  - destruct (mem w !! l0) as [hbt0|] eqn:Hl0; [|exists hbt; cbn; by eauto with lia].
    destruct (Before now (LastDone hbt0)) eqn:Hb; [exists hbt; cbn; by eauto with lia|].
    apply Z.ltb_ge in Hb.
    destruct (sameDate now (LastDone hbt0));
      [|destruct (0 <? daysSince now (LastDone hbt0))]; cbn zeta;
      match goal with
      | |- context [store_Save ?s ?w2] =>
          pose proof (store_Save_mem s w2) as Hmem;
          destruct (store_Save s w2) as [err w3]
      end; cbn [fst snd mem set_mem emit] in *; rewrite Hmem;
      (destruct (decide (l0 = l)) as [->|Hne];
       [rewrite lookup_insert_eq; eexists; split; [reflexivity|];
        assert (hbt0 = hbt) as -> by congruence; cbn; by eauto with lia
       |rewrite lookup_insert_ne by done; exists hbt; by eauto with lia]).
  - exists hbt. cbn. by eauto with lia.
  - cbn zeta.
    assert (Hne : fresh (dom (mem w)) <> l).
    { intros <-. pose proof (is_fresh (dom (mem w))) as Hf.
      apply not_elem_of_dom in Hf. congruence. }
    match goal with
    | |- context [store_Save ?s ?w2] =>
        pose proof (store_Save_mem s w2) as Hmem;
        destruct (store_Save s w2) as [[err|] w3]
    end; cbn [fst snd mem set_mem emit] in *; rewrite Hmem;
    rewrite lookup_insert_ne by done; exists hbt; by eauto with lia.
Qed.

(** X8. [Track] deletes no record, renames none and moves no
    [LastDone] back: a record of the heap is still there after the
    call, under the same name and with a [LastDone] that is not earlier,
    and it is unchanged unless it is the record of the habit tracked.
    This holds for every outcome of the call. *)
Theorem X8_Track_records_kept (t : Tracker) (hbtName : string) (now : Time) (w : World)
  (l : loc) (hbt : Habit) :
  mem w !! l = Some hbt ->
  exists hbt',
    mem (Track t hbtName now w).2 !! l = Some hbt' /\
    Name hbt' = Name hbt /\
    unixNano (LastDone hbt) <= unixNano (LastDone hbt') /\
    (data (tstore t) !! hbtName <> Some (Some l) -> hbt' = hbt).
Proof. exact (Track_kept t hbtName now w l hbt). Qed.

(** The habit of the tracker tests on its second day. *)
Lemma X8_Track_records_kept_witness :
  let t := trackerOf "test.store" programmingDay1 in
  let w := worldOf programmingDay1 in
  exists hbt',
    mem (Track t "programming" feb06_1259 w).2 !! 1%positive = Some hbt' /\
    Name hbt' = Name programmingDay1 /\
    unixNano (LastDone programmingDay1) <= unixNano (LastDone hbt') /\
    (data (tstore t) !! "programming" <> Some (Some 1%positive) -> hbt' = programmingDay1).
Proof.
  intros t w.
  apply (X8_Track_records_kept t "programming" feb06_1259 w 1%positive programmingDay1).
  reflexivity.
Defined.

(** X9. On a sound store, tracking one habit changes what [Get]
    returns for no other key, whatever the outcome of the call. *)
Theorem X9_Track_other_habits (t : Tracker) (hbtName other : string) (now : Time) (w : World) :
  sound (tstore t) (mem w) ->
  other <> hbtName ->
  store_Get (tstore (Track t hbtName now w).1.2) (mem (Track t hbtName now w).2) other
  = store_Get (tstore t) (mem w) other.
Proof.
  intros [Halloc Hinj] Hother.
  assert (Hdata : data (tstore (Track t hbtName now w).1.2) !! other
                  = data (tstore t) !! other).
  { Track_cases t hbtName now w; try reflexivity;
      destruct (store_Save _ _) as [[e|] w2]; try reflexivity;
      cbn; by rewrite lookup_insert_ne. }
  unfold store_Get. rewrite Hdata.
  destruct (data (tstore t) !! other) as [p|] eqn:Hp; [|reflexivity].
  destruct (Halloc _ _ Hp) as (l & -> & [hbt Hl]).
  destruct (Track_kept t hbtName now w l hbt Hl) as (hbt' & Hl' & _ & _ & Hsame).
  cbn [deref]. rewrite Hl, Hl'. rewrite Hsame; [done|].
  intros Hd. apply Hother. by apply (Hinj other hbtName l).
Qed.

(** The two habits of the summary test: tracking one leaves the
    other. *)
Lemma X9_Track_other_habits_witness :
  store_Get (tstore (Track summaryTracker "programming" feb06_1300 summaryWorld).1.2)
            (mem (Track summaryTracker "programming" feb06_1300 summaryWorld).2) "exercising"
  = store_Get (tstore summaryTracker) (mem summaryWorld) "exercising".
Proof.
  apply (X9_Track_other_habits summaryTracker "programming" "exercising" feb06_1300
           summaryWorld).
  - apply sound_summaryTracker.
  - discriminate.
Defined.

(** * [Track] and the file *)

(** X10. For a habit of the store that is not ahead of the clock,
    [Track] updates the record and prints its line before it saves:
    when the file cannot be created the call returns the error of
    [Save], and yet the record carries the new [LastDone] and the line
    has been printed; the files are as they were. *)
Theorem X10_Track_update_survives_failed_save
  (t : Tracker) (hbtName : string) (now : Time) (w : World)
  (l : loc) (hbt : Habit) (e : oserror) :
  data (tstore t) !! hbtName = Some (Some l) ->
  mem w !! l = Some hbt ->
  Before now (LastDone hbt) = false ->
  os_Create (files w) (path (tstore t)) = inl e ->
  exists streak msg,
    Track t hbtName now w
    = (Returns (Some (ErrCreatingStore (path (tstore t)) e)), t,
       mkWorld (<[l := mkHabit (Name hbt) streak now]> (mem w)) (files w)
               (written w ++ [(output t, msg)])).
Proof.
  intros Hd Hl Hb Hc.
  pose proof (Track_update t hbtName now w l hbt Hd Hl) as Hupd.
  match type of Hupd with
  | forall streak msg, _ -> ?p = _ -> _ =>
      exists p.1, p.2; rewrite (Hupd p.1 p.2 Hb (surjective_pairing p))
  end.
  unfold store_Save, updated. cbn [files]. rewrite Hc. reflexivity.
Qed.

(** The habit of the tracker tests, in the store of the empty path. *)
Lemma X10_Track_update_survives_failed_save_witness :
  let t := trackerOf "" programmingDay1 in
  let w := worldOf programmingDay1 in
  exists streak msg,
    Track t "programming" feb06_1259 w
    = (Returns (Some (ErrCreatingStore (path (tstore t)) ENOENT)), t,
       mkWorld (<[1%positive := mkHabit (Name programmingDay1) streak feb06_1259]> (mem w))
               (files w) (written w ++ [(output t, msg)])).
Proof.
  intros t w.
  apply (X10_Track_update_survives_failed_save t "programming" feb06_1259 w
           1%positive programmingDay1 ENOENT); reflexivity.
Defined.

(** What a call of [Track] that returns no error leaves in the file
    of the store. *)
Lemma Track_success_file t hbtName now w t' w' :
  Track t hbtName now w = (Returns None, t', w') ->
  path (tstore t') <> "" /\
  exists m,
    gobEncode (mem w') (data (tstore t')) = Some m /\
    files w' !! path (tstore t') = Some (Regular (GobStream m)).
Proof.
  unfold Track. destruct (data (tstore t) !! hbtName) as [[l|]|] eqn:Hd.
  - destruct (mem w !! l) as [hbt|] eqn:Hm; [|discriminate].
    destruct (Before now (LastDone hbt)); [discriminate|].
    destruct (sameDate now (LastDone hbt));
      [|destruct (0 <? daysSince now (LastDone hbt))];
      cbn zeta;
      match goal with
      | |- context [store_Save ?s ?w2] =>
          destruct (store_Save s w2) as [err w3] eqn:Hsave
      end;
      intros [= -> <- <-];
      apply store_Save_ok in Hsave as (Hp & m & Henc & Hfile & Hmem & _);
      (split; [done|]); exists m; by rewrite Hmem.
  - discriminate.
  - cbn zeta.
    match goal with
    | |- context [store_Save ?s ?w2] =>
        destruct (store_Save s w2) as [[err|] w3] eqn:Hsave
    end; [discriminate|].
    intros [= <- <-].
    apply store_Save_ok in Hsave as (Hp & m & Henc & Hfile & Hmem & _).
    split; [done|]. exists m. cbn [emit mem files]. by rewrite Hmem.
Qed.

(** Opening a file that holds what a store encoded to. *)
Lemma OpenStore_of_saved (p : string) (m : gmap string Habit) (d : gmap string ptr)
  (mem0 : gmap loc Habit) (w : World) :
  p <> "" ->
  gobEncode mem0 d = Some m ->
  files w !! p = Some (Regular (GobStream m)) ->
  exists s2 w2,
    OpenStore p w = (inr s2, w2) /\ path s2 = p /\
    forall key, store_Get s2 (mem w2) key = store_Get (mkStore p d) mem0 key.
Proof.
  intros Hp Henc Hfile.
  pose proof (gobDecode_spec m (mem w)) as [_ Hdec].
  exists (mkStore p (gobDecode m (mem w)).1), (set_mem (gobDecode m (mem w)).2 w).
  split; [|split; [reflexivity|]].
  - unfold OpenStore, os_Open. rewrite decide_False by done. rewrite Hfile.
    destruct (gobDecode m (mem w)). reflexivity.
  - intros key. unfold store_Get. cbn [data mem set_mem].
    specialize (Hdec key). rewrite (gobEncode_lookup _ _ _ key Henc) in Hdec.
    destruct (d !! key) as [q|] eqn:Hq.
    + destruct (gobEncode_Some _ _ _ Henc key q Hq) as (hbt & Hderef & _).
      cbn in Hdec. rewrite Hderef in Hdec. rewrite Hderef.
      destruct ((gobDecode m (mem w)).1 !! key) as [q2|]; [|discriminate].
      cbn in Hdec. injection Hdec as ->. done.
    + cbn in Hdec. by destruct ((gobDecode m (mem w)).1 !! key).
Qed.

(** X11. What [Track] has saved can be opened again: after a call that
    returns no error, [OpenStore] of the path of the store succeeds on
    the files the call left, over any heap, a new process with an
    empty one included, and [Get] returns for every key what it
    returns in the store of the tracker. *)
Theorem X11_Track_persisted (t : Tracker) (hbtName : string) (now : Time) (w : World)
  (t' : Tracker) (w' : World) (heap : gmap loc Habit) (out : list (Writer * Msg)) :
  Track t hbtName now w = (Returns None, t', w') ->
  exists s2 w2,
    OpenStore (path (tstore t')) (mkWorld heap (files w') out) = (inr s2, w2) /\
    path s2 = path (tstore t') /\
    forall key, store_Get s2 (mem w2) key = store_Get (tstore t') (mem w') key.
Proof.
  intros Htrack.
  apply Track_success_file in Htrack as (Hp & m & Henc & Hfile).
  destruct (OpenStore_of_saved (path (tstore t')) m (data (tstore t')) (mem w')
              (mkWorld heap (files w') out) Hp Henc Hfile) as (s2 & w2 & Hopen & Hpath & Hget).
  exists s2, w2. split; [done|]. split; [done|].
  intros key. rewrite Hget. by destruct (tstore t').
Qed.

(** The first day of a habit, opened again by a new process. *)
Lemma X11_Track_persisted_witness :
  exists s2 w2,
    OpenStore (path (tstore firstDay.1.2)) (mkWorld ∅ (files firstDay.2) []) = (inr s2, w2) /\
    path s2 = path (tstore firstDay.1.2) /\
    forall key, store_Get s2 (mem w2) key
                = store_Get (tstore firstDay.1.2) (mem firstDay.2) key.
Proof.
  apply (X11_Track_persisted (mkTracker (Buffer 0) (mkStore "test.store" ∅)) "programming"
           feb05_1300 (mkWorld ∅ ∅ []) firstDay.1.2 firstDay.2 ∅ []).
  reflexivity.
Defined.

(** * [Track] on the contents of a sound store *)

(** The encoder succeeds on a sound store, with its contents. *)
Lemma gobEncode_sound (s : store) (m : gmap loc Habit) :
  sound s m -> gobEncode m (data s) = Some (contents s m).
Proof.
  intros [Halloc _]. unfold gobEncode. rewrite decide_True; [done|].
  intros k p Hk. destruct (Halloc k p Hk) as (l & -> & Hl). exact Hl.
Qed.

Lemma contents_lookup (s : store) (m : gmap loc Habit) (k : string) :
  contents s m !! k = data s !! k ≫= deref m.
Proof. apply lookup_omap. Qed.

(** The contents after a record was overwritten, after a key was
    bound to a new record, and after decoding. *)
Lemma contents_update (s : store) (m : gmap loc Habit) (name : string) (l : loc) (h : Habit) :
  sound s m -> data s !! name = Some (Some l) ->
  contents s (<[l := h]> m) = <[name := h]> (contents s m).
Proof.
  intros [Halloc Hinj] Hl. apply map_eq. intros k.
  rewrite contents_lookup.
  destruct (decide (name = k)) as [<-|Hne].
  - rewrite lookup_insert_eq, Hl. cbn. by rewrite lookup_insert_eq.
  - rewrite lookup_insert_ne by done. rewrite contents_lookup.
    destruct (data s !! k) as [[l'|]|] eqn:Hk; cbn; [|done..].
    rewrite lookup_insert_ne; [done|].
    intros <-. apply Hne. by apply (Hinj name k l).
Qed.

Lemma contents_new (s : store) (m : gmap loc Habit) (name : string) (h : Habit) :
  sound s m ->
  contents (store_Set name (Some (fresh (dom m))) s) (<[fresh (dom m) := h]> m)
  = <[name := h]> (contents s m).
Proof.
  intros [Halloc _]. apply map_eq. intros k.
  rewrite contents_lookup. cbn [store_Set data].
  assert (Hfresh : m !! fresh (dom m) = None) by apply not_elem_of_dom, is_fresh.
  destruct (decide (name = k)) as [<-|Hne].
  - rewrite !lookup_insert_eq. cbn. by rewrite lookup_insert_eq.
  - rewrite !lookup_insert_ne by done. rewrite contents_lookup.
    destruct (data s !! k) as [p|] eqn:Hk; [|done].
    destruct (Halloc k p Hk) as (l & -> & [h' Hl]). cbn.
    rewrite lookup_insert_ne; [done|congruence].
Qed.

Lemma contents_decoded (m : gmap string Habit) (mem0 : gmap loc Habit) (p : string) :
  contents (mkStore p (gobDecode m mem0).1) (gobDecode m mem0).2 = m.
Proof.
  pose proof (gobDecode_spec m mem0) as [_ Hdec].
  apply map_eq. intros k. rewrite contents_lookup. cbn [data].
  specialize (Hdec k).
  destruct ((gobDecode m mem0).1 !! k) as [q|]; destruct (m !! k) as [h|];
    cbn in *; congruence.
Qed.

(** The contents of the store after a call of [Track]. *)
Lemma Track_contents_eq (t : Tracker) (hbtName : string) (now : Time) (w : World) :
  sound (tstore t) (mem w) ->
  contents (tstore (Track t hbtName now w).1.2) (mem (Track t hbtName now w).2)
  = match contents (tstore t) (mem w) !! hbtName with
    | None => <[hbtName := mkHabit hbtName 1 now]> (contents (tstore t) (mem w))
    | Some hbt =>
        if Before now (LastDone hbt) then contents (tstore t) (mem w)
        else <[hbtName := mkHabit (Name hbt) (nextStreak now hbt) now]>
               (contents (tstore t) (mem w))
    end.
Proof.
  intros Hs. pose proof Hs as [Halloc _].
  rewrite contents_lookup. unfold Track, nextStreak.
  destruct (data (tstore t) !! hbtName) as [[l|]|] eqn:Hd.
  - destruct (Halloc _ _ Hd) as (l' & [= <-] & [hbt Hl]).
    change (Some (Some l) ≫= deref (mem w)) with (mem w !! l). rewrite Hl.
    destruct (Before now (LastDone hbt)); [done|].
    destruct (sameDate now (LastDone hbt));
      [|destruct (0 <? daysSince now (LastDone hbt))]; cbn zeta;
      match goal with
      | |- context [store_Save ?s ?w2] =>
          pose proof (store_Save_mem s w2) as Hmem;
          destruct (store_Save s w2) as [err w3]
      end; cbn [fst snd mem set_mem emit] in *; rewrite Hmem;
      by apply contents_update.
  - by destruct (Halloc _ _ Hd) as (l' & [=] & _).
  - cbn zeta.
    match goal with
    | |- context [store_Save ?s ?w2] =>
        pose proof (store_Save_mem s w2) as Hmem;
        destruct (store_Save s w2) as [[err|] w3]
    end; cbn [fst snd mem set_mem emit set_store tstore] in *; rewrite Hmem;
    by apply contents_new.
Qed.

(** X12. On a sound store [Track] acts on the contents as an update at
    one key, whatever [Save] then does: a name that is not there is
    bound to a habit of that name with the streak 1 and the time of the
    call; a habit that is ahead of the clock is left, with all the
    rest; any other habit keeps its [Name] and gets the time of the
    call and the streak of the [switch]. *)
Theorem X12_Track_contents (t : Tracker) (hbtName : string) (now : Time) (w : World) :
  sound (tstore t) (mem w) ->
  contents (tstore (Track t hbtName now w).1.2) (mem (Track t hbtName now w).2)
  = match contents (tstore t) (mem w) !! hbtName with
    | None => <[hbtName := mkHabit hbtName 1 now]> (contents (tstore t) (mem w))
    | Some hbt =>
        if Before now (LastDone hbt) then contents (tstore t) (mem w)
        else <[hbtName := mkHabit (Name hbt) (nextStreak now hbt) now]>
               (contents (tstore t) (mem w))
    end.
Proof. exact (Track_contents_eq t hbtName now w). Qed.

(** The two habits of the summary test, one of them tracked three days
    after it was last done. *)
Lemma X12_Track_contents_witness :
  contents (tstore (Track summaryTracker "exercising" feb06_1300 summaryWorld).1.2)
           (mem (Track summaryTracker "exercising" feb06_1300 summaryWorld).2)
  = match contents (tstore summaryTracker) (mem summaryWorld) !! "exercising" with
    | None => <["exercising" := mkHabit "exercising" 1 feb06_1300]>
                (contents (tstore summaryTracker) (mem summaryWorld))
    | Some hbt =>
        if Before feb06_1300 (LastDone hbt)
        then contents (tstore summaryTracker) (mem summaryWorld)
        else <["exercising" := mkHabit (Name hbt) (nextStreak feb06_1300 hbt) feb06_1300]>
               (contents (tstore summaryTracker) (mem summaryWorld))
    end.
Proof.
  apply (X12_Track_contents summaryTracker "exercising" feb06_1300 summaryWorld).
  apply sound_summaryTracker.
Defined.

(** [Save] of a sound store at a path where the file can be created. *)
Lemma store_Save_sound (s : store) (w : World) :
  sound s (mem w) -> writable (files w) (path s) ->
  store_Save s w
  = (None, set_files (<[path s := Regular (GobStream (contents s (mem w)))]> (files w)) w).
Proof.
  intros Hs [Hp Hfile]. unfold store_Save, os_Create.
  rewrite decide_False by done. rewrite (gobEncode_sound s (mem w) Hs).
  destruct Hfile as [->|[d ->]]; by rewrite insert_insert_eq.
Qed.

(** [Track] on a sound store whose file can be created: it fails only
    for a habit that is ahead of the clock, and otherwise leaves the
    contents of the store in the file and one line in the output. *)
Lemma Track_sound_writable (t : Tracker) (hbtName : string) (now : Time) (w : World) :
  sound (tstore t) (mem w) -> writable (files w) (path (tstore t)) ->
  exists t' w',
    path (tstore t') = path (tstore t) /\
    match contents (tstore t) (mem w) !! hbtName with
    | None =>
        Track t hbtName now w = (Returns None, t', w') /\
        files w' = <[path (tstore t) := Regular (GobStream (contents (tstore t') (mem w')))]> (files w) /\
        written w' = written w ++ [(output t, MsgNewHabit hbtName)]
    | Some hbt =>
        if Before now (LastDone hbt) then
          Track t hbtName now w
          = (Returns (Some (ErrPrecedes now hbtName (LastDone hbt))), t', w') /\ w' = w
        else
          Track t hbtName now w = (Returns None, t', w') /\
          files w' = <[path (tstore t) := Regular (GobStream (contents (tstore t') (mem w')))]> (files w) /\
          written w' = written w ++ [(output t, nextMsg hbtName now hbt)]
    end.
Proof.
  intros Hs Hw. pose proof Hs as [Halloc _].
  rewrite contents_lookup.
  destruct (data (tstore t) !! hbtName) as [[l|]|] eqn:Hd.
  - destruct (Halloc _ _ Hd) as (l' & [= <-] & [hbt Hl]).
    change (Some (Some l) ≫= deref (mem w)) with (mem w !! l). rewrite Hl.
    destruct (Before now (LastDone hbt)) eqn:Hb.
    + exists t, w. split; [done|]. split; [|done].
      by apply (Track_precedes t hbtName now w l hbt).
    + pose proof (Track_update t hbtName now w l hbt Hd Hl
                    (nextStreak now hbt) (nextMsg hbtName now hbt) Hb) as Hupd.
      rewrite Hupd.
      2:{ unfold nextMsg, nextStreak. cbv zeta.
          destruct (sameDate now (LastDone hbt)); [reflexivity|].
          destruct (0 <? daysSince now (LastDone hbt)); reflexivity. }
      rewrite store_Save_sound.
      * eexists _, _. split; [|split; [reflexivity|split]]; done.
      * unfold updated. cbn [mem]. apply sound_update; [by eexists|done].
      * done.
  - by destruct (Halloc _ _ Hd) as (l' & [=] & _).
  - cbn [mbind option_bind]. unfold Track. rewrite Hd. cbn zeta.
    rewrite store_Save_sound.
    + eexists _, _. split; [|split; [reflexivity|split]]; done.
    + cbn [set_store tstore set_mem mem]. by apply sound_insert_new.
    + done.
Qed.

Lemma sameDate_refl (t : Time) : sameDate t t = true.
Proof.
  unfold sameDate. destruct (Date t) as [[y m] d]. by rewrite !Z.eqb_refl.
Qed.

Lemma Before_irrefl (t : Time) : Before t t = false.
Proof. unfold Before. apply Z.ltb_irrefl. Qed.

(** X13. Tracking a habit a second time at the same instant, on a
    sound store and after a first call that returned no error: the
    second call returns no error either, leaves the contents of the
    store and the files as the first call left them, and prints the
    line of a habit practised more than once in a day. *)
Theorem X13_Track_again_same_instant (t : Tracker) (hbtName : string) (now : Time) (w : World)
  (t1 : Tracker) (w1 : World) :
  sound (tstore t) (mem w) ->
  Track t hbtName now w = (Returns None, t1, w1) ->
  exists w2,
    Track t1 hbtName now w1 = (Returns None, t1, w2) /\
    contents (tstore t1) (mem w2) = contents (tstore t1) (mem w1) /\
    files w2 = files w1 /\
    written w2 = written w1 ++ [(output t1, MsgSameDay hbtName)].
Proof.
  intros Hs Htrack.
  pose proof (Track_sound t hbtName now w Hs) as [_ Hs1].
  pose proof (Track_contents_eq t hbtName now w Hs) as Hc.
  pose proof (Track_success_file t hbtName now w t1 w1 Htrack) as (Hp1 & m & Henc & Hfile).
  rewrite Htrack in Hs1, Hc. cbn [fst snd] in Hs1, Hc.
  rewrite (gobEncode_sound _ _ Hs1) in Henc. injection Henc as <-.
  assert (Hlast : exists hbt1, contents (tstore t1) (mem w1) !! hbtName = Some hbt1 /\
                               LastDone hbt1 = now).
  { rewrite Hc. destruct (contents (tstore t) (mem w) !! hbtName) as [hbt|] eqn:Hk.
    - destruct (Before now (LastDone hbt)) eqn:Hb.
      + exfalso. revert Htrack. unfold Track.
        rewrite contents_lookup in Hk.
        destruct (data (tstore t) !! hbtName) as [[l|]|]; [|done..].
        cbn in Hk. rewrite Hk, Hb. done.
      + rewrite lookup_insert_eq. eauto.
    - rewrite lookup_insert_eq. eauto. }
  destruct Hlast as (hbt1 & Hk1 & Hnow).
  assert (Hwr : writable (files w1) (path (tstore t1))) by (split; eauto).
  destruct (Track_sound_writable t1 hbtName now w1 Hs1 Hwr) as (t2 & w2 & _ & Hres).
  pose proof (Track_contents_eq t1 hbtName now w1 Hs1) as Hc2.
  rewrite Hk1 in Hres, Hc2. rewrite Hnow, Before_irrefl in Hres, Hc2.
  destruct Hres as (Htrack2 & Hfiles2 & Hwritten2).
  assert (Ht2 : t2 = t1).
  { pose proof (Track_success t1 hbtName now w1 t2 w2 Htrack2)
      as [(Hnone & _)|(l & hbt & streak & _ & _ & -> & _)]; [|done].
    rewrite contents_lookup, Hnone in Hk1. done. }
  subst t2. rewrite Htrack2 in Hc2. cbn [fst snd] in Hc2.
  exists w2. split; [done|].
  assert (Hsame : contents (tstore t1) (mem w2) = contents (tstore t1) (mem w1)).
  { rewrite Hc2. unfold nextStreak. rewrite Hnow, sameDate_refl.
    apply insert_id. rewrite Hk1. f_equal. destruct hbt1. cbn in *. by subst. }
  split; [done|]. split.
  - rewrite Hfiles2, Hsame. by apply insert_id.
  - rewrite Hwritten2. unfold nextMsg. by rewrite Hnow, sameDate_refl.
Qed.

Lemma sound_empty (p : string) (m : gmap loc Habit) : sound (mkStore p ∅) m.
Proof. split; intros *; cbn; by rewrite lookup_empty. Qed.

(** The first day of a habit, twice. *)
Lemma X13_Track_again_same_instant_witness :
  exists w2,
    Track firstDay.1.2 "programming" feb05_1300 firstDay.2 = (Returns None, firstDay.1.2, w2) /\
    contents (tstore firstDay.1.2) (mem w2) = contents (tstore firstDay.1.2) (mem firstDay.2) /\
    files w2 = files firstDay.2 /\
    written w2 = written firstDay.2 ++ [(output firstDay.1.2, MsgSameDay "programming")].
Proof.
  apply (X13_Track_again_same_instant (mkTracker (Buffer 0) (mkStore "test.store" ∅))
           "programming" feb05_1300 (mkWorld ∅ ∅ []) firstDay.1.2 firstDay.2).
  - apply sound_empty.
  - reflexivity.
Defined.

(** * Building a tracker *)

Lemma applyOptions_app (opts1 opts2 : list trackerOption) (t : Tracker) :
  applyOptions (opts1 ++ opts2) t
  = match applyOptions opts1 t with
    | inl err => inl err
    | inr t' => applyOptions opts2 t'
    end.
Proof.
  revert t. induction opts1 as [|opt opts1 IH]; intros t; cbn; [reflexivity|].
  destruct (opt t); [reflexivity|apply IH].
Qed.

(** [NewTracker] without options. *)
Lemma NewTracker_default (w : World) :
  files (NewTracker [] w).2 = files w /\
  written (NewTracker [] w).2 = written w /\
  mem w ⊆ mem (NewTracker [] w).2 /\
  match (NewTracker [] w).1 with
  | inr t =>
      output t = Stdout /\ path (tstore t) = "habit.store" /\
      sound (tstore t) (mem (NewTracker [] w).2) /\
      (files w !! "habit.store" = None -> data (tstore t) = ∅)
  | inl err =>
      (NewTracker [] w).2 = w /\ is_Some (files w !! "habit.store") /\
      (err = ErrDecodingStore \/ err = ErrOpeningStore "habit.store" EACCES)
  end.
Proof.
  pose proof (OpenStore_frame "habit.store" w) as (Hf & Hw & Hm & Hres).
  unfold NewTracker.
  destruct (OpenStore "habit.store" w) as [[err|s] w'] eqn:Hopen; cbn [fst snd] in *.
  - repeat split; try done.
    + unfold OpenStore, os_Open in Hopen. rewrite decide_False in Hopen by done.
      destruct (files w !! "habit.store") as [nd|]; [by eexists|discriminate].
    + unfold OpenStore, os_Open in Hopen. rewrite decide_False in Hopen by done.
      destruct (files w !! "habit.store") as [[[m|]|[m|]| | ]|]; try discriminate;
        try (destruct (gobDecode m (mem w)); discriminate);
        injection Hopen as <- _; auto.
  - destruct Hres as (Hpath & Hsound & _).
    repeat split; try done; try apply Hsound.
    intros Hnone. unfold OpenStore, os_Open in Hopen.
    rewrite decide_False in Hopen by done. rewrite Hnone in Hopen.
    by injection Hopen as <- _.
Qed.

(** X14. [NewTracker] without options only reads: files and output are
    as they were and no record is lost. The tracker it returns writes
    to standard output over a sound store bound to ["habit.store"],
    which is empty when no file of that name exists. It fails only
    when a file of that name exists, with the decoding error or with
    the error of the file that could not be opened, and then the world
    is unchanged. *)
Theorem X14_NewTracker_defaults (w : World) :
  files (NewTracker [] w).2 = files w /\
  written (NewTracker [] w).2 = written w /\
  mem w ⊆ mem (NewTracker [] w).2 /\
  match (NewTracker [] w).1 with
  | inr t =>
      output t = Stdout /\ path (tstore t) = "habit.store" /\
      sound (tstore t) (mem (NewTracker [] w).2) /\
      (files w !! "habit.store" = None -> data (tstore t) = ∅)
  | inl err =>
      (NewTracker [] w).2 = w /\ is_Some (files w !! "habit.store") /\
      (err = ErrDecodingStore \/ err = ErrOpeningStore "habit.store" EACCES)
  end.
Proof. exact (NewTracker_default w). Qed.

(** X15. The options of [NewTracker], when the default store opens.
    [WithStore] and [WithOutput] give the same tracker in either
    order; of two options of one kind the later one decides; an option
    built from nil fails with its error once the options before it
    have succeeded, whatever follows it; and after an option that
    fails none is applied. *)
Theorem X15_NewTracker_options (w w' : World) (s0 : store) :
  OpenStore "habit.store" w = (inr s0, w') ->
  (forall o s,
      NewTracker [WithStore (Some s); WithOutput (Some o)] w = (inr (mkTracker o s), w') /\
      NewTracker [WithOutput (Some o); WithStore (Some s)] w = (inr (mkTracker o s), w')) /\
  (forall o1 o2,
      NewTracker [WithOutput (Some o1); WithOutput (Some o2)] w
      = (inr (mkTracker o2 s0), w')) /\
  (forall opts1 opts2 t1,
      applyOptions opts1 (mkTracker Stdout s0) = inr t1 ->
      NewTracker (opts1 ++ WithOutput None :: opts2) w = (inl ErrNilOutput, w') /\
      NewTracker (opts1 ++ WithStore None :: opts2) w = (inl ErrNilStore, w')) /\
  (forall opts1 opts2 err,
      applyOptions opts1 (mkTracker Stdout s0) = inl err ->
      NewTracker (opts1 ++ opts2) w = (inl err, w')).
Proof.
  intros Hopen. unfold NewTracker. rewrite Hopen.
  split; [done|]. split; [done|]. split.
  - intros opts1 opts2 t1 H1. rewrite !applyOptions_app, H1. done.
  - intros opts1 opts2 err H1. by rewrite applyOptions_app, H1.
Qed.

Lemma X15_NewTracker_options_witness :
  let w := mkWorld ∅ ∅ [] in
  let s0 := mkStore "habit.store" ∅ in
  (forall o s,
      NewTracker [WithStore (Some s); WithOutput (Some o)] w = (inr (mkTracker o s), w) /\
      NewTracker [WithOutput (Some o); WithStore (Some s)] w = (inr (mkTracker o s), w)) /\
  (forall o1 o2,
      NewTracker [WithOutput (Some o1); WithOutput (Some o2)] w
      = (inr (mkTracker o2 s0), w)) /\
  (forall opts1 opts2 t1,
      applyOptions opts1 (mkTracker Stdout s0) = inr t1 ->
      NewTracker (opts1 ++ WithOutput None :: opts2) w = (inl ErrNilOutput, w) /\
      NewTracker (opts1 ++ WithStore None :: opts2) w = (inl ErrNilStore, w)) /\
  (forall opts1 opts2 err,
      applyOptions opts1 (mkTracker Stdout s0) = inl err ->
      NewTracker (opts1 ++ opts2) w = (inl err, w)).
Proof.
  intros w s0. apply (X15_NewTracker_options w w s0). reflexivity.
Defined.

(** * Stores that [Track] has built *)

(** X16. In every state that a tracker over an empty store reaches by
    calls of [Track] that return no error, the store is sound and
    every record is filed under its own name: the key of an entry is
    the [Name] of the record it leads to. *)
Theorem X16_reachable_names (n : nat) (t : Tracker) (w : World) :
  reachable n t w ->
  sound (tstore t) (mem w) /\
  forall name l hbt,
    data (tstore t) !! name = Some (Some l) -> mem w !! l = Some hbt -> Name hbt = name.
Proof.
  induction 1 as [o p0 w|n t w hbtName now t' w' Hreach [IHs IHn] Htrack].
  - unfold sound. cbn [tstore data]. split; [split|]; intros *; by rewrite lookup_empty.
  - split.
    + pose proof (Track_sound t hbtName now w IHs) as [_ Hs].
      by rewrite Htrack in Hs.
    + apply Track_success in Htrack
        as [(Hnone & Hdata & Hmem)|(l & hbt & streak & Hd & Hm & -> & Hmem & _)].
      * intros name l hbt. rewrite Hdata, Hmem.
        destruct (decide (hbtName = name)) as [->|Hne].
        -- rewrite lookup_insert_eq. intros [= <-]. rewrite lookup_insert_eq.
           by intros [= <-].
        -- rewrite lookup_insert_ne by done. intros Hl.
           destruct IHs as [Halloc _].
           destruct (Halloc _ _ Hl) as (l' & [= <-] & [h Hh]).
           rewrite lookup_insert_ne; [by apply IHn|].
           intros Heq. rewrite <- Heq in Hh.
           pose proof (is_fresh (dom (mem w))) as Hfresh.
           apply not_elem_of_dom in Hfresh. congruence.
      * intros name l0 hbt0 Hl0. rewrite Hmem.
        destruct (decide (l = l0)) as [<-|Hne].
        -- rewrite lookup_insert_eq. intros [= <-]. cbn.
           rewrite (IHn hbtName l hbt Hd Hm). destruct IHs as [_ Hinj].
           by apply (Hinj hbtName name l).
        -- rewrite lookup_insert_ne by done. by apply IHn.
Qed.

Lemma reach_secondDay : reachable 2 secondDay.1.2 secondDay.2.
Proof.
  apply (reach_Track 1 firstDay.1.2 firstDay.2 "programming" feb06_1259);
    [|reflexivity].
  apply (reach_Track 0 (mkTracker (Buffer 0) (mkStore "test.store" ∅))
           (mkWorld ∅ ∅ []) "programming" feb05_1300);
    [apply reach_empty|reflexivity].
Qed.

Lemma X16_reachable_names_witness :
  sound (tstore secondDay.1.2) (mem secondDay.2) /\
  forall name l hbt,
    data (tstore secondDay.1.2) !! name = Some (Some l) ->
    mem secondDay.2 !! l = Some hbt -> Name hbt = name.
Proof.
  apply (X16_reachable_names 2 secondDay.1.2 secondDay.2). apply reach_secondDay.
Defined.

(** X17. After [n] calls of [Track] that return no error on a tracker
    over an empty store, [n] an [int], no streak exceeds [n]. *)
Theorem X17_reachable_streak_at_most_calls (n : nat) (t : Tracker) (w : World) :
  reachable n t w ->
  Z.of_nat n <= GoInt.max_int ->
  forall name l hbt,
    data (tstore t) !! name = Some (Some l) -> mem w !! l = Some hbt ->
    CurrentStreak hbt <= Z.of_nat n.
Proof.
  intros Hreach Hn name l hbt Hl Hh.
  destruct (reachable_streak_bounds n t w Hreach Hn name _ Hl) as (l' & hbt' & [= <-] & Hh' & Hb).
  assert (hbt' = hbt) as -> by congruence. lia.
Qed.

(** Two successful calls: the streak is 2. *)
Lemma X17_reachable_streak_at_most_calls_witness :
  exists hbt,
    mem secondDay.2 !! 1%positive = Some hbt /\ CurrentStreak hbt <= Z.of_nat 2.
Proof.
  eexists. split; [reflexivity|].
  apply (X17_reachable_streak_at_most_calls 2 secondDay.1.2 secondDay.2)
    with (name := "programming") (l := 1%positive).
  - apply reach_secondDay.
  - vm_compute. discriminate.
  - reflexivity.
  - reflexivity.
Defined.

(** * Days and dates without rounding *)

(** ** Dates *)

(** [civil] has an inverse, so that two days of one date are one day. *)
Lemma dayNumber_civil (z : Z) :
  let '(y, m, d) := civil z in dayNumber y m d = z.
Proof.
  unfold civil, dayNumber.
  set (z' := z + 719468).
  set (era := z' / 146097).
  set (doe := z' - era * 146097).
  assert (Hdoe : 0 <= doe < 146097).
  { subst doe era. pose proof (Z.mod_pos_bound z' 146097 ltac:(lia)).
    rewrite Z.mod_eq in H by lia. lia. }
  set (yoe := (doe - doe / 1460 + doe / 36524 - doe / 146096) / 365).
  assert (Hz : z = era * 146097 + doe - 719468) by (subst doe z'; lia).
  assert (Hyoe : 0 <= yoe < 400).
  { subst yoe. clearbody doe. clear -Hdoe. Z.div_mod_to_equations. lia. }
  set (doy := doe - (365 * yoe + yoe / 4 - yoe / 100)).
  assert (Hdoy : 0 <= doy <= 365).
  { subst doy yoe. clearbody doe. clear -Hdoe. Z.div_mod_to_equations; lia. }
  set (mp := (5 * doy + 2) / 153).
  assert (Hmp' : 0 <= mp <= 11).
  { subst mp. clearbody doy. clear -Hdoy. Z.div_mod_to_equations. lia. }
  assert (Hera : (yoe + era * 400) / 400 = era).
  { symmetry. apply (Z.div_unique _ _ _ yoe); lia. }
  clearbody yoe era doe mp.
  destruct (mp <? 10) eqn:Hmp.
  - apply Z.ltb_lt in Hmp.
    destruct (mp + 3 <=? 2) eqn:Hm; [apply Z.leb_le in Hm|apply Z.leb_gt in Hm]; [lia|].
    replace (2 <? mp + 3) with true by (symmetry; apply Z.ltb_lt; lia).
    replace (yoe + era * 400 + 0) with (yoe + era * 400) by lia.
    rewrite Hera. replace (yoe + era * 400 - era * 400) with yoe by lia.
    replace (mp + 3 - 3) with mp by lia. subst doy. lia.
  - apply Z.ltb_ge in Hmp.
    replace (mp - 9 <=? 2) with true by (symmetry; apply Z.leb_le; lia).
    replace (2 <? mp - 9) with false by (symmetry; apply Z.ltb_ge; lia).
    replace (yoe + era * 400 + 1 - 1) with (yoe + era * 400) by lia.
    rewrite Hera. replace (yoe + era * 400 - era * 400) with yoe by lia.
    replace (mp - 9 + 9) with mp by lia. subst doy. lia.
Qed.

Lemma civil_inj (z1 z2 : Z) : civil z1 = civil z2 -> z1 = z2.
Proof.
  intros Heq. pose proof (dayNumber_civil z1) as H1. pose proof (dayNumber_civil z2) as H2.
  rewrite Heq in H1. destruct (civil z2) as [[y m] d]. congruence.
Qed.

Lemma sameDate_days (t1 t2 : Time) :
  (sameDate t1 t2 = true <-> localDay t1 = localDay t2) /\
  (zoneOffset t1 = zoneOffset t2 -> sameDate t1 t2 = true ->
   - (24 * Hour) < unixNano t1 - unixNano t2 < 24 * Hour).
Proof.
  assert (Hiff : sameDate t1 t2 = true <-> localDay t1 = localDay t2).
  { unfold sameDate, Date, localDay. split.
    - intros Hs. apply civil_inj.
      destruct (civil _) as [[y1 m1] d1], (civil _) as [[y2 m2] d2].
      apply andb_prop in Hs as [Hs Hd]. apply andb_prop in Hs as [Hy Hm].
      apply Z.eqb_eq in Hy, Hm, Hd. congruence.
    - intros ->. destruct (civil _) as [[y m] d]. by rewrite !Z.eqb_refl. }
  split; [exact Hiff|].
  intros Hz Hs. apply Hiff in Hs. unfold localDay in Hs. rewrite Hz in Hs.
  unfold Second, Hour in *.
  set (a := unixNano t1 + zoneOffset t2 * 1000000000) in *.
  set (b := unixNano t2 + zoneOffset t2 * 1000000000) in *.
  assert (unixNano t1 - unixNano t2 = a - b) as -> by (subst a b; lia).
  clearbody a b. Z.div_mod_to_equations. lia.
Qed.

(** X18. [sameDate] holds exactly when the two times fall on the same
    day, each counted in its own zone. Two times of one zone that are
    on the same date are therefore less than 24 hours apart. *)
Theorem X18_sameDate_local_day (t1 t2 : Time) :
  (sameDate t1 t2 = true <-> localDay t1 = localDay t2) /\
  (zoneOffset t1 = zoneOffset t2 -> sameDate t1 t2 = true ->
   - (24 * Hour) < unixNano t1 - unixNano t2 < 24 * Hour).
Proof. exact (sameDate_days t1 t2). Qed.

(** ** The streak and the summary by elapsed time *)

Lemma nextStreak_elapsed (now : Time) (hbt : Habit) :
  nextStreak now hbt
  = if decide (localDay now = localDay (LastDone hbt)) then CurrentStreak hbt
    else if decide (24 * Hour <= unixNano now - unixNano (LastDone hbt)) then 1
    else GoInt.wrap64 (CurrentStreak hbt + 1).
Proof.
  unfold nextStreak.
  destruct (sameDate_days now (LastDone hbt)) as [Hiff _].
  destruct (sameDate now (LastDone hbt)) eqn:Hs.
  - rewrite decide_True; [done|]. by apply Hiff.
  - rewrite decide_False by (intros Hd; apply Hiff in Hd; congruence).
    pose proof (daysSince_positive now (LastDone hbt)) as Hpos.
    destruct (0 <? daysSince now (LastDone hbt)) eqn:Hn.
    + apply Z.ltb_lt in Hn. rewrite decide_True; [done|]. by apply Hpos.
    + apply Z.ltb_ge in Hn. rewrite decide_False; [done|].
      intros Hd. apply Hpos in Hd. lia.
Qed.

(** X19. The streak [Track] leaves in a habit of the store that is not
    ahead of the clock is decided by integers, for all the rounding of
    the day count: it is unchanged when the time and [LastDone] fall on
    the same day, each in its own zone; otherwise it is 1 when 24 hours
    or more have passed, and one more than it was, in [int]
    arithmetic, when less than 24 hours have passed. *)
Theorem X19_Track_streak_by_elapsed
  (t : Tracker) (hbtName : string) (now : Time) (w : World) (l : loc) (hbt : Habit) :
  data (tstore t) !! hbtName = Some (Some l) ->
  mem w !! l = Some hbt ->
  Before now (LastDone hbt) = false ->
  mem (Track t hbtName now w).2 !! l
  = Some (mkHabit (Name hbt)
            (if decide (localDay now = localDay (LastDone hbt)) then CurrentStreak hbt
             else if decide (24 * Hour <= unixNano now - unixNano (LastDone hbt)) then 1
             else GoInt.wrap64 (CurrentStreak hbt + 1))
            now).
Proof.
  intros Hd Hl Hb. rewrite <- nextStreak_elapsed.
  rewrite (Track_update t hbtName now w l hbt Hd Hl
             (nextStreak now hbt) (nextMsg hbtName now hbt) Hb).
  - cbn [snd]. rewrite store_Save_mem. unfold updated. cbn [mem].
    by rewrite lookup_insert_eq.
  - unfold nextMsg, nextStreak. cbv zeta.
    destruct (sameDate now (LastDone hbt)); [reflexivity|].
    destruct (0 <? daysSince now (LastDone hbt)); reflexivity.
Qed.

(** The habit of the tracker tests, done again 23 hours and 59 minutes
    later, on the next day. *)
Lemma X19_Track_streak_by_elapsed_witness :
  let t := trackerOf "test.store" programmingDay1 in
  let w := worldOf programmingDay1 in
  mem (Track t "programming" feb06_1259 w).2 !! 1%positive
  = Some (mkHabit "programming"
            (if decide (localDay feb06_1259 = localDay feb05_1300) then 1
             else if decide (24 * Hour <= unixNano feb06_1259 - unixNano feb05_1300) then 1
             else GoInt.wrap64 (1 + 1))
            feb06_1259).
Proof.
  intros t w.
  apply (X19_Track_streak_by_elapsed t "programming" feb06_1259 w 1%positive programmingDay1);
    reflexivity.
Defined.

(** X20. The line of the summary by elapsed time: a habit is reported
    as on its streak when less than 24 hours lie between [LastDone]
    and the time, also when [LastDone] is ahead of the time, and as
    inactive from 24 hours on, with a day count of at least 1 that is
    the number of whole days for every gap below 32 days. *)
Theorem X20_summaryLine_by_elapsed (now : Time) (hbt : Habit) :
  let gap := unixNano now - unixNano (LastDone hbt) in
  (gap < 24 * Hour -> summaryLine now hbt = MsgOnStreak (CurrentStreak hbt) (Name hbt)) /\
  (24 * Hour <= gap ->
   exists n, summaryLine now hbt = MsgInactive n (dayOutput n) (Name hbt) /\
             1 <= n /\ (gap < 32 * (24 * Hour) -> n = gap / (24 * Hour))).
Proof.
  intros gap. unfold summaryLine.
  pose proof (daysSince_positive now (LastDone hbt)) as Hpos. fold gap in Hpos.
  split.
  - intros Hlt. destruct (0 <? daysSince now (LastDone hbt)) eqn:Hn; [|done].
    apply Z.ltb_lt, Hpos in Hn. lia.
  - intros Hge. exists (daysSince now (LastDone hbt)).
    pose proof Hge as Hn. apply Hpos in Hn.
    replace (0 <? daysSince now (LastDone hbt)) with true by (symmetry; by apply Z.ltb_lt).
    split; [done|]. split; [lia|].
    intros Hshort. unfold daysSince.
    destruct (Sub_cases now (LastDone hbt)) as (_ & _ & _ & HSub).
    rewrite HSub; fold gap.
    + apply daysIn_exact_short. unfold Hour in *. lia.
    + unfold minDuration, maxDuration, GoInt.min_int, GoInt.max_int, Hour in *. lia.
Qed.

(** * The command *)

(** What package flag makes of some arguments. *)
Example parseOne_examples :
  parseOne <$> ["programming"; ""; "-"; "--"; "-h"; "--help"; "-help=1"; "-x"; "--x=3";
                "---"; "-="; "--=a"]
  = [FlagsDone; FlagsDone; FlagsDone; FlagsDone; FlagHelp; FlagHelp; FlagHelp;
     FlagUndefined "x"; FlagUndefined "x";
     FlagBadSyntax "---"; FlagBadSyntax "-="; FlagBadSyntax "--=a"].
Proof. reflexivity. Qed.

(** On a sound store the summary does not panic and changes neither
    records nor files. *)
Lemma PrintSummary_sound (t : Tracker) (now : Time) (w : World) (r : outcome * World) :
  sound (tstore t) (mem w) -> PrintSummary t now w r ->
  r.1 = Returns None /\ mem r.2 = mem w /\ files r.2 = files w.
Proof.
  intros [Halloc _] (entries & Hperm & <-). unfold PrintSummaryIn.
  destruct (_ <? 1); [done|].
  destruct (summaryLoop_lines (output t) now entries w) as (lines & _ & ->); [|done].
  apply Forall_forall. intros [k p] Hin. rewrite Hperm in Hin.
  apply elem_of_map_to_list in Hin.
  destruct (Halloc k p Hin) as (l & -> & Hl). exact Hl.
Qed.

Lemma PrintSummary_total (t : Tracker) (now : Time) (w : World) :
  exists r, PrintSummary t now w r.
Proof. eexists. exists (map_to_list (data (tstore t))). split; reflexivity. Qed.

(** X21. How the command ends, for a command line that holds at least
    the program name. It has a result, and every result is one of
    these: it returns 0 and has printed nothing besides the lines of
    the tracker; it returns 1 and has printed one error on standard
    error; package flag exits with 0 after the usage text, or with 2
    after its message and the usage text, the world being untouched
    in both cases. It never panics. *)
Theorem X21_Main_endings (osArgs : list string) (now : Time) (w : World) :
  osArgs <> [] ->
  (exists res, Main osArgs now w res) /\
  forall res, Main osArgs now w res ->
    (res.1.1 = Returned 0 /\ res.1.2 = []) \/
    (res.1.1 = Returned 1 /\ exists err, res.1.2 = [ErrorLine err]) \/
    (res.1.1 = Exited 0 /\ res.1.2 = [UsageText] /\ res.2 = w) \/
    (res.1.1 = Exited 2 /\ exists msg, res.1.2 = [StderrText msg; UsageText] /\ res.2 = w).
Proof.
  intros Hargs. destruct osArgs as [|prog arguments]; [done|]. clear Hargs.
  unfold Main.
  destruct (flagParse arguments) as [ |  |s|name].
  2-4: split; [eexists; reflexivity|]; intros res ->; cbn; eauto 10.
  pose proof (NewTracker_default w) as (_ & _ & _ & Hnew).
  destruct (NewTracker [] w) as [[err|tracker] w1]; cbn [fst snd] in Hnew.
  { split; [eexists; reflexivity|]. intros res ->. cbn. eauto 10. }
  destruct Hnew as (_ & _ & Hs & _).
  destruct arguments as [|hbtName rest].
  - split.
    + destruct (PrintSummary_total tracker now w1) as [r Hr]. eauto.
    + intros res (r & Hr & ->).
      destruct (PrintSummary_sound tracker now w1 r Hs Hr) as (-> & _). cbn. auto.
  - pose proof (Track_sound tracker hbtName now w1 Hs) as [Hnp _].
    destruct (Track tracker hbtName now w1) as [[[[err|]|] t'] w2]; cbn in Hnp; [| |done].
    + split; [eexists; reflexivity|]. intros res ->. cbn. eauto 10.
    + split; [eexists; reflexivity|]. intros res ->. cbn. eauto 10.
Qed.

Lemma X21_Main_endings_witness :
  (exists res, Main ["habit"; "programming"] feb06_1259 storedWorld res) /\
  forall res, Main ["habit"; "programming"] feb06_1259 storedWorld res ->
    (res.1.1 = Returned 0 /\ res.1.2 = []) \/
    (res.1.1 = Returned 1 /\ exists err, res.1.2 = [ErrorLine err]) \/
    (res.1.1 = Exited 0 /\ res.1.2 = [UsageText] /\ res.2 = storedWorld) \/
    (res.1.1 = Exited 2 /\
     exists msg, res.1.2 = [StderrText msg; UsageText] /\ res.2 = storedWorld).
Proof.
  apply (X21_Main_endings ["habit"; "programming"] feb06_1259 storedWorld). discriminate.
Defined.

(** The tracker of the command over a default store file that is
    missing or holds the map [m]. *)
Lemma NewTracker_opened (w : World) (m : gmap string Habit) :
  (files w !! "habit.store" = None /\ m = ∅ \/
   files w !! "habit.store" = Some (Regular (GobStream m))) ->
  exists t w1,
    NewTracker [] w = (inr t, w1) /\
    output t = Stdout /\ path (tstore t) = "habit.store" /\
    sound (tstore t) (mem w1) /\ contents (tstore t) (mem w1) = m /\
    files w1 = files w /\ written w1 = written w.
Proof.
  intros Hfile.
  pose proof (NewTracker_default w) as (Hf & Hw & _ & Hnew).
  assert (Hopen : OpenStore "habit.store" w
                  = (inr (mkStore "habit.store" (gobDecode m (mem w)).1),
                     set_mem (gobDecode m (mem w)).2 w)).
  { unfold OpenStore, os_Open. rewrite decide_False by done.
    destruct Hfile as [[-> ->]| ->].
    - unfold gobDecode. rewrite map_fold_empty. cbn. by destruct w.
    - by destruct (gobDecode m (mem w)). }
  unfold NewTracker in *. rewrite Hopen in *. cbn [applyOptions fst snd] in *.
  destruct Hnew as (_ & _ & Hs & _).
  eexists _, _. split; [reflexivity|].
  repeat split; try done; try apply Hs.
  cbn [tstore set_mem mem]. apply contents_decoded.
Qed.

(** X22. The command with a habit name, from file to file. Let the name
    be no flag, and let the default store file be missing, [m] then
    being empty, or be an ordinary file that holds the map [m]. The
    command has exactly one result. For a name that [m] does not hold
    it returns 0, prints the line of a new habit and leaves in the file
    [m] with the name bound to a habit of streak 1 done at the time of
    the call. For a habit of [m] that is ahead of the clock it returns
    1, prints the error on standard error and leaves files and output
    as they were. For any other habit of [m] it returns 0, prints the
    line of the [switch] and leaves in the file [m] with the habit
    done at the time of the call, with the streak of the [switch].
    Every other entry of [m] is in the file as it was. *)
Theorem X22_Main_tracks_in_the_file
  (prog hbtName : string) (rest : list string) (now : Time) (w : World)
  (m : gmap string Habit) :
  parseOne hbtName = FlagsDone ->
  (files w !! "habit.store" = None /\ m = ∅ \/
   files w !! "habit.store" = Some (Regular (GobStream m))) ->
  exists status console w',
    (forall res, Main (prog :: hbtName :: rest) now w res <-> res = (status, console, w')) /\
    match m !! hbtName with
    | None =>
        status = Returned 0 /\ console = [] /\
        files w' = <["habit.store" :=
                       Regular (GobStream (<[hbtName := mkHabit hbtName 1 now]> m))]> (files w) /\
        written w' = written w ++ [(Stdout, MsgNewHabit hbtName)]
    | Some hbt =>
        if Before now (LastDone hbt) then
          status = Returned 1 /\
          console = [ErrorLine (ErrPrecedes now hbtName (LastDone hbt))] /\
          files w' = files w /\ written w' = written w
        else
          status = Returned 0 /\ console = [] /\
          files w' = <["habit.store" :=
                         Regular (GobStream (<[hbtName := mkHabit (Name hbt) (nextStreak now hbt) now]> m))]>
                       (files w) /\
          written w' = written w ++ [(Stdout, nextMsg hbtName now hbt)]
    end.
Proof.
  intros Hflag Hfile.
  destruct (NewTracker_opened w m Hfile) as (t & w1 & Hnew & Hout & Hpath & Hs & Hc & Hf & Hw).
  assert (Hwr : writable (files w1) (path (tstore t))).
  { rewrite Hpath, Hf. split; [done|]. destruct Hfile as [[-> _]| ->]; eauto. }
  destruct (Track_sound_writable t hbtName now w1 Hs Hwr) as (t' & w' & _ & Htrack).
  pose proof (Track_contents_eq t hbtName now w1 Hs) as Hcont.
  rewrite Hc in Htrack, Hcont. rewrite Hpath, Hout, Hf, Hw in Htrack.
  unfold Main, flagParse. rewrite Hflag, Hnew.
  destruct (m !! hbtName) as [hbt|].
  - destruct (Before now (LastDone hbt)).
    + destruct Htrack as [Htrack ->]. rewrite Htrack.
      eexists _, _, _. split; [done|]. done.
    + destruct Htrack as (Htrack & Hfiles & Hwritten). rewrite Htrack in *.
      cbn [fst snd] in Hcont. rewrite Hcont in Hfiles.
      eexists _, _, _. split; [done|]. done.
  - destruct Htrack as (Htrack & Hfiles & Hwritten). rewrite Htrack in *.
    cbn [fst snd] in Hcont. rewrite Hcont in Hfiles.
    eexists _, _, _. split; [done|]. done.
Qed.

(** The habit of the tracker tests, stored on its first day and done
    again on the next, by two runs of the command. *)
Lemma X22_Main_tracks_in_the_file_witness :
  exists status console w',
    (forall res, Main ["habit"; "programming"] feb06_1259 storedWorld res
                 <-> res = (status, console, w')) /\
    status = Returned 0 /\ console = [] /\
    files w' = <["habit.store" :=
                   Regular (GobStream (<["programming" := mkHabit "programming" 2 feb06_1259]>
                                         {[ "programming" := programmingDay1 ]}))]>
                 (files storedWorld) /\
    written w' = written storedWorld ++ [(Stdout, MsgStreak "programming" 2 "days")].
Proof.
  destruct (X22_Main_tracks_in_the_file "habit" "programming" [] feb06_1259 storedWorld
              {[ "programming" := programmingDay1 ]} eq_refl (or_intror eq_refl))
    as (status & console & w' & Hres & Hcase).
  exists status, console, w'. split; [exact Hres|exact Hcase].
Defined.

Lemma parseOne_dash (c : ascii) (r : string) :
  String "-" (String c r) <> "--" -> parseOne (String "-" (String c r)) <> FlagsDone.
Proof.
  intros Hne. unfold parseOne.
  destruct (Ascii.eqb c "-") eqn:Hc.
  - apply Ascii.eqb_eq in Hc as ->.
    destruct r as [|c0 r0]; [done|]. cbn [andb String.eqb].
    destruct (Ascii.eqb c0 "-" || Ascii.eqb c0 "="); [done|].
    by destruct (_ || _).
  - cbn [andb]. rewrite Hc. cbn [orb].
    destruct (Ascii.eqb c "="); [done|]. by destruct (_ || _).
Qed.

(** X23. A first argument of two bytes or more that starts with ["-"]
    and is not ["--"] is taken for a flag, and the command defines
    none: package flag ends the program, with 0 after the usage text
    or with 2 after its message and the usage text, before the store
    is opened. The world is untouched, and no habit of such a name can
    be tracked. *)
Theorem X23_Main_dash_argument (prog : string) (c : ascii) (r : string) (rest : list string)
  (now : Time) (w : World) (res : ending * list ConsoleLine * World) :
  String "-" (String c r) <> "--" ->
  Main (prog :: String "-" (String c r) :: rest) now w res ->
  res.2 = w /\
  (res.1 = (Exited 0, [UsageText]) \/
   exists msg, res.1 = (Exited 2, [StderrText msg; UsageText])).
Proof.
  intros Hne. pose proof (parseOne_dash c r Hne) as Hp.
  unfold Main, flagParse.
  destruct (parseOne (String "-" (String c r))); [done|..]; intros ->; cbn; eauto.
Qed.

Lemma X23_Main_dash_argument_witness :
  let res := (Exited 2, [StderrText "flag provided but not defined: -x"; UsageText],
              storedWorld) in
  res.2 = storedWorld /\
  (res.1 = (Exited 0, [UsageText]) \/
   exists msg, res.1 = (Exited 2, [StderrText msg; UsageText])).
Proof.
  intros res.
  apply (X23_Main_dash_argument "habit" "x" "" ["programming"] feb06_1300 storedWorld res).
  - discriminate.
  - reflexivity.
Defined.

(** * The store of habit values *)

(** A store that [Add] and [Delete] have built from the empty one
    files every habit under its own name. *)
Lemma ValueStore_keyed (calls : list ValueStore.call) (p : string) (name : string) (h : Habit) :
  ValueStore.data (foldl ValueStore.doCall (ValueStore.mkStore p ∅) calls) !! name = Some h ->
  Name h = name.
Proof.
  revert name h. induction calls as [|c calls IH] using rev_ind; intros name h.
  - cbn. by rewrite lookup_empty.
  - rewrite foldl_app. cbn [foldl]. destruct c as [h0|name0]; cbn.
    + destruct (decide (Name h0 = name)) as [<-|Hne].
      * rewrite lookup_insert_eq. by intros [= <-].
      * rewrite lookup_insert_ne by done. apply IH.
    + destruct (decide (name0 = name)) as [<-|Hne].
      * by rewrite lookup_delete_eq.
      * rewrite lookup_delete_ne by done. apply IH.
Qed.

(** X24. Over a store that calls of [Add] and [Delete] have built from
    an empty one, whatever slice [All] returns holds no two habits of
    one name and as many habits as the map has entries, and a habit is
    in it exactly when [Get] of its name returns it. *)
Theorem X24_ValueStore_All_by_name (calls : list ValueStore.call) (p : string)
  (habits : list Habit) :
  let s := foldl ValueStore.doCall (ValueStore.mkStore p ∅) calls in
  ValueStore.All s habits ->
  NoDup (Name <$> habits) /\
  length habits = size (ValueStore.data s) /\
  forall h, h ∈ habits <-> ValueStore.Get s (Name h) = (h, true).
Proof.
  intros s Hall. unfold ValueStore.All in Hall.
  assert (Hkey : forall name h, ValueStore.data s !! name = Some h -> Name h = name)
    by apply ValueStore_keyed.
  assert (Hnames : Name <$> (map_to_list (ValueStore.data s)).*2
                   = (map_to_list (ValueStore.data s)).*1).
  { rewrite <- list_fmap_compose. apply list_fmap_ext.
    intros i [k h] Hi. cbn. apply Hkey.
    apply elem_of_map_to_list. by eapply list_elem_of_lookup_2. }
  split; [|split].
  - rewrite Hall, Hnames. apply NoDup_fst_map_to_list.
  - by rewrite Hall, length_fmap, length_map_to_list.
  - intros h. rewrite Hall. unfold ValueStore.Get. split.
    + intros Hin. apply list_elem_of_fmap in Hin as ([k h'] & -> & Hin).
      apply elem_of_map_to_list in Hin. cbn.
      rewrite (Hkey k h' Hin). by rewrite Hin.
    + destruct (ValueStore.data s !! Name h) as [h'|] eqn:Hl; [|done].
      intros [= ->]. apply list_elem_of_fmap. exists (Name h, h). split; [done|].
      by apply elem_of_map_to_list.
Qed.

Lemma X24_ValueStore_All_by_name_witness :
  let habits := (map_to_list (ValueStore.data valueStore)).*2 in
  NoDup (Name <$> habits) /\
  length habits = size (ValueStore.data valueStore) /\
  forall h, h ∈ habits <-> ValueStore.Get valueStore (Name h) = (h, true).
Proof.
  intros habits.
  apply (X24_ValueStore_All_by_name valueCalls "temp.store" habits).
  unfold ValueStore.All. reflexivity.
Defined.

(** X25. The round trip of the store of values is exact: when [Save]
    returns no error, [OpenStore] of the path returns the very store
    that was saved, and no other file has changed. *)
Theorem X25_ValueStore_round_trip (s : ValueStore.store) (fs fs' : gmap string Node) :
  ValueStore.Save s fs = (None, fs') ->
  ValueStore.OpenStore (ValueStore.path s) fs' = inr s /\
  forall p, p <> ValueStore.path s -> fs' !! p = fs !! p.
Proof.
  unfold ValueStore.Save, ValueStore.OpenStore, os_Create, os_Open.
  case_decide as Hp; [done|].
  destruct (fs !! ValueStore.path s) as [[ | | | ]|]; try done;
    intros [= <-]; rewrite lookup_insert_eq;
    (split; [by destruct s|]); intros p Hne; by rewrite !lookup_insert_ne.
Qed.

Lemma X25_ValueStore_round_trip_witness :
  let fs' := (ValueStore.Save valueStore ∅).2 in
  ValueStore.OpenStore (ValueStore.path valueStore) fs' = inr valueStore /\
  forall p, p <> ValueStore.path valueStore -> fs' !! p = (∅ : gmap string Node) !! p.
Proof.
  intros fs'. apply (X25_ValueStore_round_trip valueStore ∅ fs'). reflexivity.
Defined.
